(** * n8n: workflow service, Compression node and execution-metadata migration

    A shallow embedding of
    - [packages/cli/src/workflows/workflow.service.ts] ([WorkflowService]),
    - the [Compression] node ([Compression.execute]),
    - the [CreateExecutionMetadataTable1674133106777] migration,
    together with the properties stated about them.

    JavaScript objects used as dictionaries are [gmap]s, arrays are lists,
    optional properties are [option]s, and code that throws or mutates
    services is written in a state-and-exception monad over an explicit
    world. *)

From Stdlib Require Import String Ascii List Bool Arith Lia.
From stdpp Require Import base option list strings gmap pretty.

Open Scope string_scope.

(* ===================================================================== *)
(** * JavaScript strings and values *)
(* ===================================================================== *)

Module Js.

(** A JavaScript string is held as the bytes of its UTF-8 encoding. *)

(** What the engine provides and is not written out here:
    [String.prototype.toLowerCase], which follows the case mappings of
    Unicode. *)
Record Engine : Type := {
  toLowerCase : string -> string
}.

(** [s.includes(sub)]: [sub] occurs in [s] as a contiguous substring. *)
Fixpoint includes (s sub : string) : bool :=
  String.prefix sub s
  || match s with
     | EmptyString => false
     | String _ r => includes r sub
     end.

(** [s.split(sep)] for a one-character separator; never the empty list. *)
Fixpoint split (sep : ascii) (s : string) : list string :=
  match s with
  | EmptyString => [EmptyString]
  | String c r =>
      if Ascii.eqb c sep then EmptyString :: split sep r
      else match split sep r with
           | [] => [String c EmptyString]
           | h :: t => String c h :: t
           end
  end.

(** The string of the bytes with the given codes. *)
Definition bytes (codes : list nat) : string :=
  fold_right (fun n s => String (ascii_of_nat n) s) EmptyString codes.

(** The code points that [String.prototype.trim] removes, the WhiteSpace
    and LineTerminator of ECMAScript, in UTF-8: U+0009 to U+000D, U+0020,
    U+00A0, U+1680, U+2000 to U+200A, U+2028, U+2029, U+202F, U+205F,
    U+3000 and U+FEFF. *)
Definition whiteSpace : list string :=
  [ bytes [9]; bytes [10]; bytes [11]; bytes [12]; bytes [13]; bytes [32];
    bytes [194; 160];
    bytes [225; 154; 128];
    bytes [226; 128; 128]; bytes [226; 128; 129]; bytes [226; 128; 130];
    bytes [226; 128; 131]; bytes [226; 128; 132]; bytes [226; 128; 133];
    bytes [226; 128; 134]; bytes [226; 128; 135]; bytes [226; 128; 136];
    bytes [226; 128; 137]; bytes [226; 128; 138];
    bytes [226; 128; 168]; bytes [226; 128; 169]; bytes [226; 128; 175];
    bytes [226; 129; 159];
    bytes [227; 128; 128];
    bytes [239; 187; 191] ].

Definition isWhiteSpace (s : string) : bool := existsb (String.eqb s) whiteSpace.

(** The string without the code points at its start that [white]
    accepts; a code point takes one to three bytes. *)
Fixpoint stripStart (white : string -> bool) (s : string) : string :=
  match s with
  | EmptyString => s
  | String a r1 =>
      if white (String a EmptyString) then stripStart white r1
      else
        match r1 with
        | EmptyString => s
        | String b r2 =>
            if white (String a (String b EmptyString)) then stripStart white r2
            else
              match r2 with
              | EmptyString => s
              | String c r3 =>
                  if white (String a (String b (String c EmptyString)))
                  then stripStart white r3
                  else s
              end
        end
  end.

(** The bytes of a string, last first. *)
Fixpoint reverse (s : string) : string :=
  match s with
  | EmptyString => EmptyString
  | String c r => reverse r +:+ String c EmptyString
  end.

Definition trimStart (s : string) : string := stripStart isWhiteSpace s.

Definition trimEnd (s : string) : string :=
  reverse (stripStart (fun w => isWhiteSpace (reverse w)) (reverse s)).

Definition trim (s : string) : string := trimEnd (trimStart s).

(** [`${x}`] for a value that may be [undefined]. *)
Definition template (o : option string) : string := default "undefined" o.

(** [x?.split('.')[0]]. *)
Definition firstDotSegment (o : option string) : option string :=
  (fun s => hd EmptyString (split "." s)) <$> o.

(** [x?.toLowerCase() === lit]. *)
Definition lowerEquals (engine : Engine) (o : option string) (lit : string) : bool :=
  match o with
  | Some s => String.eqb (toLowerCase engine s) lit
  | None => false
  end.

(** A primitive JavaScript value. *)
Inductive value : Type :=
| VUndefined
| VNull
| VBool (b : bool)
| VNum (n : Z)
| VStr (s : string).

(** [v === true]. *)
Definition strictlyTrue (v : value) : bool :=
  match v with
  | VBool true => true
  | _ => false
  end.

(** A thrown [Error]: the constructor's name, the message, the
    [description] of an n8n node error and the numeric [errorCode] of a
    response error. *)
Record error : Type := Error {
  err_class : string;
  err_message : string;
  err_description : option string;
  err_code : option Z
}.

(** A computation that returns or throws. *)
Inductive result (A : Type) : Type :=
| Ok (a : A)
| Throw (e : error).
Arguments Ok {A} a.
Arguments Throw {A} e.

Definition rbind {A B} (r : result A) (k : A -> result B) : result B :=
  match r with
  | Ok a => k a
  | Throw e => Throw e
  end.

End Js.

Notation "x <-? r ; k" := (Js.rbind r (fun x => k))
  (at level 100, r at next level, right associativity, only parsing).


(* ===================================================================== *)
(** * Interfaces of n8n-workflow *)
(* ===================================================================== *)

Module N8n.
Import Js.

(** A [Buffer] / [Uint8Array]. *)
Abbreviation Buffer := (list Byte.byte).

(** [IBinaryData], the binary payload of one named field. *)
Record IBinaryData : Type := {
  data : Buffer;
  mimeType : string;
  fileName : option string;
  fileExtension : option string
}.

(** [IBinaryKeyData]: the binary fields of an item, by name. *)
Abbreviation IBinaryKeyData := (gmap string IBinaryData).
Abbreviation IDataObject := (gmap string value).

(** [INodeExecutionData]; [pairedItem] is [{ item: i }]. *)
Record INodeExecutionData : Type := {
  json : IDataObject;
  binary : option IBinaryKeyData;
  pairedItem : option nat
}.

(** [INode], with the properties the services read. *)
Record INode : Type := {
  nodeId : option string;
  nodeName : string;
  nodeType : string;
  nodeDisabled : option bool;
  nodeCredentials : gmap string (option string * string)
}.

(** [IConnection] and [IConnections]: by source node, by connection
    type, the outputs with their destinations. *)
Record IConnection : Type := {
  connNode : string;
  connType : string;
  connIndex : nat
}.
Abbreviation IConnections := (gmap string (gmap string (list (list IConnection)))).

(** [IPinData]: pinned items by node name. *)
Abbreviation IPinData := (gmap string (list INodeExecutionData)).

End N8n.

(* ===================================================================== *)
(** * The Compression node *)
(* ===================================================================== *)

Module Compression.
Import Js N8n.

(** The [this: IExecuteFunctions] of [execute]: the input items, the node
    parameters and the helpers of n8n-core the node calls, each of which
    returns or throws. *)
Record IExecuteFunctions : Type := {
  getInputData : list INodeExecutionData;
  getNodeParameter : string -> nat -> string;
  assertBinaryData : nat -> string -> result IBinaryData;
  getBinaryDataBuffer : nat -> string -> result Buffer;
  prepareBinaryData : Buffer -> option string -> result IBinaryData;
  continueOnFail : bool
}.

(** A [fflate.Zippable] that began as [{}]: its own properties in the
    order of their creation (the engine lists those named by an array
    index before the others), and the prototype that an assignment to
    ["__proto__"] has given it, [None] while it is still
    [Object.prototype]. *)
Record Zippable : Type := {
  ownProperties : list (string * (Buffer * nat));
  prototype : option (Buffer * nat)
}.

(** The engine, the promisified [fflate] functions, each of which
    resolves or rejects, and [mime.extension]. [unzip] yields, in the
    order of [Object.keys(files)], the keys with the bytes of
    [files[key].buffer]; [gunzip] yields the bytes of [file.buffer];
    [mime_extension] is [None] where the library returns [false]. *)
Record Libraries : Type := {
  engine : Engine;
  gzip : Buffer -> result Buffer;
  gunzip : Buffer -> result Buffer;
  unzip : Buffer -> result (list (string * Buffer));
  zip : Zippable -> result Buffer;
  mime_extension : string -> option string
}.

Definition ALREADY_COMPRESSED : list string :=
  [ "7z"; "aifc"; "bz2"; "doc"; "docx"; "gif"; "gz"; "heic"; "heif"; "jpg";
    "jpeg"; "mov"; "mp3"; "mp4"; "pdf"; "png"; "ppt"; "pptx"; "rar"; "webm";
    "webp"; "xls"; "xlsx"; "zip" ].

(** [Buffer.from(x)]: the same bytes. *)
Definition Buffer_from (b : Buffer) : Buffer := b.

(** [o[key] = v] on own properties: the value of an existing property is
    replaced where it is, a new property comes last. *)
Fixpoint assign (key : string) (v : Buffer * nat)
    (properties : list (string * (Buffer * nat))) : list (string * (Buffer * nat)) :=
  match properties with
  | [] => [(key, v)]
  | (k, w) :: rest =>
      if String.eqb k key then (k, v) :: rest
      else (k, w) :: assign key v rest
  end.

(** [zipData[key] = v] on the [fflate.Zippable] object, [v] being an
    array: under the key ["__proto__"] the assignment goes to the setter
    that the object inherits, which makes [v] its prototype and creates no
    property. *)
Definition zippable_set (key : string) (v : Buffer * nat) (z : Zippable) : Zippable :=
  if String.eqb key "__proto__"
  then {| ownProperties := ownProperties z; prototype := Some v |}
  else {| ownProperties := assign key v (ownProperties z); prototype := prototype z |}.

Section Execute.
Variable this : IExecuteFunctions.
Variable lib : Libraries.

(** [getNodeParameter('binaryPropertyName', 0).split(',').map(trim)]. *)
Definition binaryPropertyNames : list string :=
  map trim (split "," (getNodeParameter this "binaryPropertyName" 0)).

(** [`${outputPrefix}${n}`]. *)
Definition outputKey (n : nat) : string :=
  getNodeParameter this "outputPrefix" 0 +:+ pretty n.

(** One round of [for (const key of Object.keys(files))], on the pair
    of [binaryObject] and [zipIndex]. *)
Definition unzipEntry (st : IBinaryKeyData * nat) (entry : string * Buffer)
    : result (IBinaryKeyData * nat) :=
  let '(key, contents) := entry in
  if includes key "__MACOSX" then Ok st
  else
    data <-? prepareBinaryData this (Buffer_from contents) (Some key);
    Ok (<[outputKey (snd st) := data]> (fst st), S (snd st)).

Fixpoint unzipEntries (files : list (string * Buffer))
    (st : IBinaryKeyData * nat) : result (IBinaryKeyData * nat) :=
  match files with
  | [] => Ok st
  | entry :: rest =>
      st' <-? unzipEntry st entry;
      unzipEntries rest st'
  end.

(** The gz branch: the prepared field with its name and extension
    rewritten from the detected mime type. *)
Definition gunzipped (binaryData : IBinaryData) (file : Buffer) : result IBinaryData :=
  let fileName := firstDotSegment (fileName binaryData) in
  prepared <-? prepareBinaryData this (Buffer_from file) fileName;
  let fileExtension := mime_extension lib (mimeType prepared) in
  Ok {| data := data prepared;
        mimeType := mimeType prepared;
        fileName :=
          Some (template fileName +:+ "." +:+ default "false" fileExtension);
        fileExtension := fileExtension |}.

(** The body of the decompress loop over the field names, for item [i]
    and the field at position [index]. *)
Definition decompressField (i index : nat) (binaryPropertyName : string)
    (st : IBinaryKeyData * nat) : result (IBinaryKeyData * nat) :=
  binaryData <-? assertBinaryData this i binaryPropertyName;
  binaryDataBuffer <-? getBinaryDataBuffer this i binaryPropertyName;
  if lowerEquals (engine lib) (fileExtension binaryData) "zip" then
    files <-? unzip lib binaryDataBuffer;
    unzipEntries files st
  else if lowerEquals (engine lib) (fileExtension binaryData) "gz" then
    file <-? gunzip lib binaryDataBuffer;
    field <-? gunzipped binaryData file;
    Ok (<[outputKey index := field]> (fst st), snd st)
  else Ok st.

Fixpoint decompressFields (i index : nat) (names : list string)
    (st : IBinaryKeyData * nat) : result (IBinaryKeyData * nat) :=
  match names with
  | [] => Ok st
  | name :: rest =>
      st' <-? decompressField i index name st;
      decompressFields i (S index) rest st'
  end.

(** The body of the compress loop, on the pair of [zipData] and
    [binaryObject]. *)
Definition compressField (i index : nat) (binaryPropertyName : string)
    (st : Zippable * IBinaryKeyData) : result (Zippable * IBinaryKeyData) :=
  let outputFormat := getNodeParameter this "outputFormat" 0 in
  binaryData <-? assertBinaryData this i binaryPropertyName;
  binaryDataBuffer <-? getBinaryDataBuffer this i binaryPropertyName;
  if String.eqb outputFormat "zip" then
    let level :=
      match fileExtension binaryData with
      | Some ext => if existsb (String.eqb ext) ALREADY_COMPRESSED then 0 else 6
      | None => 6
      end in
    Ok (zippable_set (template (fileName binaryData))
          (binaryDataBuffer, level) (fst st), snd st)
  else if String.eqb outputFormat "gzip" then
    data <-? gzip lib binaryDataBuffer;
    let fileName := firstDotSegment (fileName binaryData) in
    field <-? prepareBinaryData this (Buffer_from data)
                (Some (template fileName +:+ ".gzip"));
    Ok (fst st, <[outputKey index := field]> (snd st))
  else Ok st.

Fixpoint compressFields (i index : nat) (names : list string)
    (st : Zippable * IBinaryKeyData) : result (Zippable * IBinaryKeyData) :=
  match names with
  | [] => Ok st
  | name :: rest =>
      st' <-? compressField i index name st;
      compressFields i (S index) rest st'
  end.

(** The [try] block for item [i]: the items it pushes on [returnData]. *)
Definition processItem (i : nat) (item : INodeExecutionData)
    : result (list INodeExecutionData) :=
  let operation := getNodeParameter this "operation" 0 in
  pushed <-?
    (if String.eqb operation "decompress" then
       st <-? decompressFields i 0 binaryPropertyNames (∅, 0);
       Ok [ {| json := json item; binary := Some (fst st);
               pairedItem := Some i |} ]
     else Ok []);
  if String.eqb operation "compress" then
    let outputFormat := getNodeParameter this "outputFormat" 0 in
    st <-? compressFields i 0 binaryPropertyNames
             ({| ownProperties := []; prototype := None |}, ∅);
    pushedZip <-?
      (if String.eqb outputFormat "zip" then
         let fileName := getNodeParameter this "fileName" 0 in
         let binaryPropertyOutput := getNodeParameter this "binaryPropertyOutput" 0 in
         buffer <-? zip lib (fst st);
         data <-? prepareBinaryData this (Buffer_from buffer) (Some fileName);
         Ok [ {| json := json item; binary := Some {[ binaryPropertyOutput := data ]};
                 pairedItem := Some i |} ]
       else Ok []);
    let pushedGzip :=
      if String.eqb outputFormat "gzip" then
        [ {| json := json item; binary := Some (snd st); pairedItem := Some i |} ]
      else [] in
    Ok (pushed ++ pushedZip ++ pushedGzip)%list
  else Ok pushed.

(** The item pushed by the [catch] block under [continueOnFail]. *)
Definition errorItem (i : nat) (e : error) : INodeExecutionData :=
  {| json := {[ "error" := VStr (err_message e) ]};
     binary := None;
     pairedItem := Some i |}.

(** [for (let i = 0; i < length; i++) { try ... catch ... }]. *)
Fixpoint executeLoop (i : nat) (items : list INodeExecutionData)
    (returnData : list INodeExecutionData) : result (list INodeExecutionData) :=
  match items with
  | [] => Ok returnData
  | item :: rest =>
      match processItem i item with
      | Ok pushed => executeLoop (S i) rest (returnData ++ pushed)%list
      | Throw e =>
          if continueOnFail this
          then executeLoop (S i) rest (returnData ++ [errorItem i e])%list
          else Throw e
      end
  end.

Definition execute : result (list (list INodeExecutionData)) :=
  returnData <-? executeLoop 0 (getInputData this) [];
  Ok [returnData].

End Execute.

End Compression.

(* ===================================================================== *)
(** * The CreateExecutionMetadataTable1674133106777 migration *)
(* ===================================================================== *)

Module Migration.
Import Js.

(** A name as the statement spells it: between double quotes, or bare. *)
Inductive Name : Type :=
| Quoted (s : string)
| Bare (s : string).

Definition spelling (n : Name) : string :=
  match n with
  | Quoted s | Bare s => s
  end.

Inductive ColumnType : Type := INTEGER | TEXT.

Record Column : Type := {
  columnName : Name;
  columnType : ColumnType;
  primaryKey : bool;
  autoincrement : bool;
  notNull : bool
}.

Inductive ReferentialAction : Type := NO_ACTION | CASCADE.

Record ForeignKey : Type := {
  constraintName : Name;
  fkColumn : Name;
  referencedTable : Name;
  referencedColumn : Name;
  onDelete : ReferentialAction
}.

Record Table : Type := {
  columns : list Column;
  foreignKeys : list ForeignKey
}.

(** The two statements the migration sends to [queryRunner.query], each
    with its names as the template literal spells them. *)
Inductive Statement : Type :=
| CREATE_TABLE (name : Name) (t : Table)
| DROP_TABLE (name : Name).

(** A call of one of the log helpers of [@db/utils/migrationHelpers]. *)
Inductive LogCall : Type :=
| MigrationStart (migrationName : string)
| MigrationEnd (migrationName : string).

(** The database seen by the query runner: the tables with their names,
    in the order of their creation, and the calls made to the migration
    log helpers. *)
Record Database : Type := {
  schema : list (string * Table);
  migrationLog : list LogCall
}.

(** The codes of the characters of a string. *)
Definition codes (s : string) : list nat := map nat_of_ascii (list_ascii_of_string s).

Definition fold_ascii (n : nat) : nat :=
  if ((65 <=? n) && (n <=? 90))%nat then n + 32 else n.

(** A name folded to lower case on the ASCII letters. *)
Definition folded (s : string) : string := bytes (map fold_ascii (codes s)).

(** The table of an entry of the schema goes by the name [name]: SQLite
    compares names without regard to the case of the ASCII letters. *)
Definition named (name : string) (entry : string * Table) : bool :=
  String.eqb (folded entry.1) (folded name).

Definition identifierStart (n : nat) : bool :=
  (((97 <=? n) && (n <=? 122)) || ((65 <=? n) && (n <=? 90)) || (n =? 95) || (128 <=? n))%nat.

Definition identifierPart (n : nat) : bool :=
  (identifierStart n || ((48 <=? n) && (n <=? 57)) || (n =? 36))%nat.

(** The keywords of SQLite, in lower case. *)
Definition keywords : list string :=
  [ "abort"; "action"; "add"; "after"; "all"; "alter"; "always"; "analyze"; "and";
    "as"; "asc"; "attach"; "autoincrement"; "before"; "begin"; "between"; "by";
    "cascade"; "case"; "cast"; "check"; "collate"; "column"; "commit"; "conflict";
    "constraint"; "create"; "cross"; "current"; "current_date"; "current_time";
    "current_timestamp"; "database"; "default"; "deferrable"; "deferred"; "delete";
    "desc"; "detach"; "distinct"; "do"; "drop"; "each"; "else"; "end"; "escape";
    "except"; "exclude"; "exclusive"; "exists"; "explain"; "fail"; "filter"; "first";
    "following"; "for"; "foreign"; "from"; "full"; "generated"; "glob"; "group";
    "groups"; "having"; "if"; "ignore"; "immediate"; "in"; "index"; "indexed";
    "initially"; "inner"; "insert"; "instead"; "intersect"; "into"; "is"; "isnull";
    "join"; "key"; "last"; "left"; "like"; "limit"; "match"; "materialized";
    "natural"; "no"; "not"; "nothing"; "notnull"; "null"; "nulls"; "of"; "offset";
    "on"; "or"; "order"; "others"; "outer"; "over"; "partition"; "plan"; "pragma";
    "preceding"; "primary"; "query"; "raise"; "range"; "recursive"; "references";
    "regexp"; "reindex"; "release"; "rename"; "replace"; "restrict"; "returning";
    "right"; "rollback"; "row"; "rows"; "savepoint"; "select"; "set"; "table";
    "temp"; "temporary"; "then"; "ties"; "to"; "transaction"; "trigger";
    "unbounded"; "union"; "unique"; "update"; "using"; "vacuum"; "values"; "view";
    "virtual"; "when"; "where"; "window"; "with"; "without" ].

(** A bare name that SQLite reads as the name it spells: letters, digits,
    underscores, dollar signs and bytes above the ASCII range, the first
    neither a digit nor a dollar sign, the whole no keyword. *)
Definition isIdentifier (s : string) : bool :=
  match codes s with
  | [] => false
  | first :: rest => identifierStart first && forallb identifierPart rest
  end
  && negb (existsb (String.eqb (folded s)) keywords).

(** A name that is read as the name it spells; a quoted one is when it
    holds no double quote. *)
Definition plainName (n : Name) : bool :=
  match n with
  | Quoted s => forallb (fun c => negb (c =? 34)%nat) (codes s)
  | Bare s => isIdentifier s
  end.

(** The text of the statement says what the statement says: all its
    names are read as spelled, and the table is not one of those that
    SQLite keeps for itself, named [sqlite_...]. *)
Definition plain (st : Statement) : bool :=
  match st with
  | CREATE_TABLE name t =>
      plainName name
      && negb (String.prefix "sqlite_" (folded (spelling name)))
      && forallb (fun c => plainName (columnName c)) (columns t)
      && forallb (fun fk =>
                    plainName (constraintName fk) && plainName (fkColumn fk)
                    && plainName (referencedTable fk) && plainName (referencedColumn fk))
           (foreignKeys t)
  | DROP_TABLE name => plainName name
  end.

Section QueryRunner.

(** What SQLite makes of a text that is not plain: as a rule it rejects
    it with a syntax error. *)
Variable misread : Statement -> Database -> result Database.

(** Modelled from the spec: the relational database behind
    [queryRunner.query], SQLite, for which creating a table that exists
    and dropping one that does not are errors. *)
Definition query (st : Statement) (db : Database) : result Database :=
  if plain st then
    match st with
    | CREATE_TABLE name t =>
        if existsb (named (spelling name)) (schema db) then
          Throw (Error "QueryFailedError"
                   ("table " +:+ spelling name +:+ " already exists") None None)
        else
          Ok {| schema := (schema db ++ [(spelling name, t)])%list;
                migrationLog := migrationLog db |}
    | DROP_TABLE name =>
        if existsb (named (spelling name)) (schema db) then
          Ok {| schema := List.filter (fun entry => negb (named (spelling name) entry))
                            (schema db);
                migrationLog := migrationLog db |}
        else
          Throw (Error "QueryFailedError" ("no such table: " +:+ spelling name) None None)
    end
  else misread st db.

(** The two log helpers: their calls are recorded. *)
Definition logMigrationStart (migrationName : string) (db : Database) : Database :=
  {| schema := schema db;
     migrationLog := (migrationLog db ++ [MigrationStart migrationName])%list |}.

Definition logMigrationEnd (migrationName : string) (db : Database) : Database :=
  {| schema := schema db;
     migrationLog := (migrationLog db ++ [MigrationEnd migrationName])%list |}.

Definition name : string := "CreateExecutionMetadataTable1674133106777".

(** The table of the statement of [up]:
    CREATE TABLE "<tablePrefix>execution_metadata" (
      id INTEGER PRIMARY KEY AUTOINCREMENT,
      executionId INTEGER NOT NULL,
      "key" TEXT,
      value TEXT,
      CONSTRAINT <tablePrefix>execution_metadata_entity_FK
        FOREIGN KEY (executionId)
        REFERENCES <tablePrefix>execution_entity(id) ON DELETE CASCADE). *)
Definition execution_metadata (tablePrefix : string) : Table :=
  {| columns :=
       [ {| columnName := Bare "id"; columnType := INTEGER; primaryKey := true;
            autoincrement := true; notNull := false |};
         {| columnName := Bare "executionId"; columnType := INTEGER; primaryKey := false;
            autoincrement := false; notNull := true |};
         {| columnName := Quoted "key"; columnType := TEXT; primaryKey := false;
            autoincrement := false; notNull := false |};
         {| columnName := Bare "value"; columnType := TEXT; primaryKey := false;
            autoincrement := false; notNull := false |} ];
     foreignKeys :=
       [ {| constraintName := Bare (tablePrefix +:+ "execution_metadata_entity_FK");
            fkColumn := Bare "executionId";
            referencedTable := Bare (tablePrefix +:+ "execution_entity");
            referencedColumn := Bare "id";
            onDelete := CASCADE |} ] |}.

(** The statements of [up] and [down] for a [database.tablePrefix]; the
    one of [down] is DROP TABLE "<tablePrefix>execution_metadata". *)
Definition up_statements (tablePrefix : string) : list Statement :=
  [ CREATE_TABLE (Quoted (tablePrefix +:+ "execution_metadata"))
      (execution_metadata tablePrefix) ].

Definition down_statements (tablePrefix : string) : list Statement :=
  [ DROP_TABLE (Quoted (tablePrefix +:+ "execution_metadata")) ].

Fixpoint queries (sts : list Statement) (db : Database) : result Database :=
  match sts with
  | [] => Ok db
  | st :: rest => db' <-? query st db; queries rest db'
  end.

Definition up (tablePrefix : string) (db : Database) : result Database :=
  let db := logMigrationStart name db in
  db <-? queries (up_statements tablePrefix) db;
  Ok (logMigrationEnd name db).

Definition down (tablePrefix : string) (db : Database) : result Database :=
  queries (down_statements tablePrefix) db.

End QueryRunner.

End Migration.

(* ===================================================================== *)
(** * The workflow service *)
(* ===================================================================== *)

Module WorkflowService.
Import Js N8n.

(** ** Entities *)

Record TagEntity : Type := { tagId : string; tagName : string }.

(** The value of one property of a [WorkflowEntity] object. *)
Inductive field : Type :=
| FValue (v : value)
| FDate (t : Z)
| FNodes (ns : list INode)
| FConnections (c : IConnections)
| FObject (o : IDataObject)
| FPinData (p : IPinData)
| FTags (ts : list TagEntity).

(** A [WorkflowEntity] as the service handles it: an object whose own
    properties ([id], [name], [active], [nodes], [connections],
    [settings], [staticData], [pinData], [versionId], [updatedAt],
    [tags], ...) may each be present or not. *)
Abbreviation WorkflowEntity := (gmap string field).

(** JavaScript truthiness of a property that may be absent. *)
Definition truthy (o : option field) : bool :=
  match o with
  | None => false
  | Some (FValue VUndefined) | Some (FValue VNull) => false
  | Some (FValue (VBool b)) => b
  | Some (FValue (VNum n)) => negb (n =? 0)%Z
  | Some (FValue (VStr s)) => negb (String.eqb s "")
  | Some _ => true
  end.

(** [a === b] on primitive values. *)
Definition value_eqb (a b : value) : bool :=
  match a, b with
  | VUndefined, VUndefined | VNull, VNull => true
  | VBool x, VBool y => Bool.eqb x y
  | VNum x, VNum y => (x =? y)%Z
  | VStr x, VStr y => String.eqb x y
  | _, _ => false
  end.

(** [a !== b] on two property reads: a missing property reads
    [undefined], and two objects of different origin are never the same
    reference. *)
Definition strictNe (a b : option field) : bool :=
  match a, b with
  | None, None => false
  | None, Some (FValue VUndefined) | Some (FValue VUndefined), None => false
  | Some (FValue x), Some (FValue y) => negb (value_eqb x y)
  | _, _ => true
  end.

(** lodash [omit] and [pick], and [Object.keys]. *)
Definition omit (o : WorkflowEntity) (keys : list string) : WorkflowEntity :=
  filter (fun kv => kv.1 ∉ keys) o.

Definition pick (o : WorkflowEntity) (keys : list string) : WorkflowEntity :=
  filter (fun kv => kv.1 ∈ keys) o.

Definition Object_keys (o : WorkflowEntity) : list string :=
  (map_to_list o).*1.

Record User : Type := { userId : string; globalScopes : list string }.

(** A row of the shared-workflow table, and the entity [findOne] builds
    from it with the [workflow] and [role] relations loaded. *)
Record SharedWorkflowRow : Type := {
  rowUserId : string;
  rowWorkflowId : string;
  rowRole : string
}.

Record SharedWorkflow : Type := {
  sharedRow : SharedWorkflowRow;
  sharedWorkflow_workflow : WorkflowEntity
}.

(** The [Workflow] object of n8n-workflow that [saveStaticData] reads
    and marks. *)
Record Workflow : Type := {
  id : string;
  staticData : IDataObject
}.

(** [IWorkflowDb] as [findPinnedTrigger] reads it. *)
Record IWorkflowDb : Type := {
  nodes : list INode;
  connections : IConnections;
  active : bool
}.

(** ** The world the service acts on *)

(** What the service calls on its collaborators, in call order. *)
Inductive Event : Type :=
| SharedWorkflowFindOne (globalScope workflowId : string)
| LoggerVerbose (message : string)
| LoggerError (message : string)
| ErrorReporterError (e : error)
| UuidV4 (generated : string)
| ExternalHook (hookName : string)
| InternalHook (hookName workflowId : string)
| ActiveRemove (workflowId : string)
| ActiveAdd (workflowId mode : string)
| ValidateEntity (entity : WorkflowEntity)
| WorkflowRepoUpdate (workflowId : string) (patch : WorkflowEntity)
| WorkflowRepoFindOne (workflowId : string)
| WorkflowRepoDelete (workflowId : string)
| TagMappingDelete (workflowId : string)
| TagMappingInsert (workflowId : string) (tagIds : list string)
| HistorySaveVersion (u : User) (entity : WorkflowEntity) (workflowId : string)
| ExecutionFind (workflowId : string)
| BinaryDeleteMany (ids : list (string * string))
| MultiMainInit
| MultiMainBroadcast (workflowId : string) (oldState newState : option field)
    (versionId : option field).

(** Modelled from the spec: the tables behind the ORM repositories
    (workflows by id, shared-workflow rows, tag mappings as pairs of tag id
    and workflow id, tags by id, executions as pairs of execution id and
    workflow id, stored binary data as pairs of workflow id and execution
    id) and the in-memory registry of active workflows owned by
    [ActiveWorkflowRunner]; with them the entity object that [update]
    builds from its re-fetch (shared with the hooks it is handed to), the
    number of uuids generated, and the calls made so far. *)
Record World : Type := {
  workflowRepository : gmap string WorkflowEntity;
  sharedWorkflowRepository : list SharedWorkflowRow;
  workflowTagMappingRepository : list (string * string);
  tagRepository : gmap string TagEntity;
  executionRepository : list (string * string);
  binaryDataService : list (string * string);
  activeWorkflows : gset string;
  updatedWorkflow : option WorkflowEntity;
  uuidCount : nat;
  trace : list Event
}.

(** What the service does not decide itself, the sources of which are not
    at hand: the engine, helpers of other modules ([whereClause],
    [getParentNodes] of the [Workflow] class, the two [WorkflowHelpers] as
    functions on the nodes, [sortByRequestOrder], [isWorkflowIdValid]),
    the uuid generator and the clock, the configuration, and which calls
    to collaborators throw and what: the hooks, the validation, the
    writes to the workflow repository and the activation by name, and by
    [rejects] the writes of tag mappings, the saving of a history version,
    the look-up of executions and the deletions of a workflow and of
    binary data, each given as the call it is recorded as. *)
Record Env : Type := {
  engine : Engine;
  whereClause : User -> string -> string -> option (list string) -> SharedWorkflowRow -> bool;
  getParentNodes : list INode -> IConnections -> string -> list string;
  replaceInvalidCredentials : list INode -> list INode;
  addNodeIds : list INode -> list INode;
  sortByRequestOrder : list TagEntity -> list string -> list TagEntity;
  isWorkflowIdValid : string -> bool;
  uuid : nat -> string;
  now : Z;
  workflowTagsDisabled : bool;
  executionsTimeout : value;
  multiMainEnabled : bool;
  externalHookThrows : string -> option error;
  validateEntityThrows : WorkflowEntity -> option error;
  repositoryUpdateThrows : string -> WorkflowEntity -> option error;
  activeAddThrows : string -> string -> option error;
  rejects : Event -> option error
}.

(** ** State and exceptions *)

Definition M (A : Type) : Type := World -> result A * World.

Definition ret {A} (a : A) : M A := fun w => (Ok a, w).

Definition throw {A} (e : error) : M A := fun w => (Throw e, w).

Definition bind {A B} (m : M A) (k : A -> M B) : M B :=
  fun w =>
    match m w with
    | (Ok a, w') => k a w'
    | (Throw e, w') => (Throw e, w')
    end.

(** [try { m } catch (error) { handler error }]. *)
Definition try_catch {A} (m : M A) (handler : error -> M A) : M A :=
  fun w =>
    match m w with
    | (Ok a, w') => (Ok a, w')
    | (Throw e, w') => handler e w'
    end.

Definition gets {A} (f : World -> A) : M A := fun w => (Ok (f w), w).

Definition modify (f : World -> World) : M unit := fun w => (Ok tt, f w).

Definition set_workflowRepository (r : gmap string WorkflowEntity) (w : World) : World :=
  {| workflowRepository := r;
     sharedWorkflowRepository := sharedWorkflowRepository w;
     workflowTagMappingRepository := workflowTagMappingRepository w;
     tagRepository := tagRepository w;
     executionRepository := executionRepository w;
     binaryDataService := binaryDataService w;
     activeWorkflows := activeWorkflows w;
     updatedWorkflow := updatedWorkflow w;
     uuidCount := uuidCount w;
     trace := trace w |}.

Definition set_workflowTagMappingRepository (r : list (string * string)) (w : World) : World :=
  {| workflowRepository := workflowRepository w;
     sharedWorkflowRepository := sharedWorkflowRepository w;
     workflowTagMappingRepository := r;
     tagRepository := tagRepository w;
     executionRepository := executionRepository w;
     binaryDataService := binaryDataService w;
     activeWorkflows := activeWorkflows w;
     updatedWorkflow := updatedWorkflow w;
     uuidCount := uuidCount w;
     trace := trace w |}.

Definition set_binaryDataService (r : list (string * string)) (w : World) : World :=
  {| workflowRepository := workflowRepository w;
     sharedWorkflowRepository := sharedWorkflowRepository w;
     workflowTagMappingRepository := workflowTagMappingRepository w;
     tagRepository := tagRepository w;
     executionRepository := executionRepository w;
     binaryDataService := r;
     activeWorkflows := activeWorkflows w;
     updatedWorkflow := updatedWorkflow w;
     uuidCount := uuidCount w;
     trace := trace w |}.

Definition set_activeWorkflows (r : gset string) (w : World) : World :=
  {| workflowRepository := workflowRepository w;
     sharedWorkflowRepository := sharedWorkflowRepository w;
     workflowTagMappingRepository := workflowTagMappingRepository w;
     tagRepository := tagRepository w;
     executionRepository := executionRepository w;
     binaryDataService := binaryDataService w;
     activeWorkflows := r;
     updatedWorkflow := updatedWorkflow w;
     uuidCount := uuidCount w;
     trace := trace w |}.

Definition set_updatedWorkflow (r : option WorkflowEntity) (w : World) : World :=
  {| workflowRepository := workflowRepository w;
     sharedWorkflowRepository := sharedWorkflowRepository w;
     workflowTagMappingRepository := workflowTagMappingRepository w;
     tagRepository := tagRepository w;
     executionRepository := executionRepository w;
     binaryDataService := binaryDataService w;
     activeWorkflows := activeWorkflows w;
     updatedWorkflow := r;
     uuidCount := uuidCount w;
     trace := trace w |}.

Definition set_uuidCount (r : nat) (w : World) : World :=
  {| workflowRepository := workflowRepository w;
     sharedWorkflowRepository := sharedWorkflowRepository w;
     workflowTagMappingRepository := workflowTagMappingRepository w;
     tagRepository := tagRepository w;
     executionRepository := executionRepository w;
     binaryDataService := binaryDataService w;
     activeWorkflows := activeWorkflows w;
     updatedWorkflow := updatedWorkflow w;
     uuidCount := r;
     trace := trace w |}.

Definition set_trace (r : list Event) (w : World) : World :=
  {| workflowRepository := workflowRepository w;
     sharedWorkflowRepository := sharedWorkflowRepository w;
     workflowTagMappingRepository := workflowTagMappingRepository w;
     tagRepository := tagRepository w;
     executionRepository := executionRepository w;
     binaryDataService := binaryDataService w;
     activeWorkflows := activeWorkflows w;
     updatedWorkflow := updatedWorkflow w;
     uuidCount := uuidCount w;
     trace := r |}.

(** Record a call on a collaborator. *)
Definition emit (ev : Event) : M unit :=
  modify (fun w => set_trace (trace w ++ [ev])%list w).

Notation "'let*' x := m 'in' k" := (bind m (fun x => k))
  (at level 10, x name, m at level 100, k at level 200, only parsing).
Notation "m ;; k" := (bind m (fun _ => k))
  (at level 100, k at level 200, right associativity, only parsing).

(** The names that an object created by a literal or by [JSON.parse]
    inherits from [Object.prototype]. *)
Definition inheritedNames : list string :=
  [ "constructor"; "hasOwnProperty"; "isPrototypeOf"; "propertyIsEnumerable";
    "toLocaleString"; "toString"; "valueOf"; "__proto__"; "__defineGetter__";
    "__defineSetter__"; "__lookupGetter__"; "__lookupSetter__" ].

(** The double quote of the messages. *)
Definition dquote : string := String (ascii_of_nat 34) EmptyString.

(** ** Response errors *)

Definition NotFoundError (message : string) : error :=
  Error "NotFoundError" message None None.

Definition BadRequestError (message : string) (errorCode : option Z) : error :=
  Error "BadRequestError" message None errorCode.

Section Service.
Variable env : Env.

(** ** Collaborators *)

(** Modelled from the spec: the ORM's
    [sharedWorkflowRepository.findOne({ relations: ['workflow', 'role'],
    where })] gives the first row the [where] clause selects, with its
    workflow joined in. *)
Definition sharedWorkflowRepository_findOne (globalScope workflowId : string)
    (where_ : SharedWorkflowRow -> bool) : M (option SharedWorkflow) :=
  emit (SharedWorkflowFindOne globalScope workflowId);;
  gets (fun w =>
    match List.find where_ (sharedWorkflowRepository w) with
    | Some row =>
        match workflowRepository w !! rowWorkflowId row with
        | Some entity => Some {| sharedRow := row; sharedWorkflow_workflow := entity |}
        | None => None
        end
    | None => None
    end).

(** An awaited call on a collaborator that may reject: the call is
    recorded, and throws what the environment says before it has had an
    effect. *)
Definition await (call : Event) : M unit :=
  emit call;;
  match rejects env call with
  | Some e => throw e
  | None => ret tt
  end.

(** [externalHooks.run(hookName, ...)]: the call is recorded, and throws
    what the environment says. *)
Definition externalHooks_run (hookName : string) : M unit :=
  emit (ExternalHook hookName);;
  match externalHookThrows env hookName with
  | Some e => throw e
  | None => ret tt
  end.

(** Modelled from the spec: [activeWorkflowRunner.remove] takes the
    workflow out of the in-memory registry of active workflows. *)
Definition activeWorkflowRunner_remove (workflowId : string) : M unit :=
  emit (ActiveRemove workflowId);;
  modify (fun w => set_activeWorkflows (activeWorkflows w ∖ {[workflowId]}) w).

(** Modelled from the spec: [activeWorkflowRunner.add] puts the workflow
    in the registry of active workflows, unless the activation throws. *)
Definition activeWorkflowRunner_add (workflowId mode : string) : M unit :=
  emit (ActiveAdd workflowId mode);;
  match activeAddThrows env workflowId mode with
  | Some e => throw e
  | None => modify (fun w => set_activeWorkflows ({[workflowId]} ∪ activeWorkflows w) w)
  end.

(** [validateEntity(workflow)]: the call is recorded, and throws what the
    environment says. *)
Definition validateEntity (entity : WorkflowEntity) : M unit :=
  emit (ValidateEntity entity);;
  match validateEntityThrows env entity with
  | Some e => throw e
  | None => ret tt
  end.

(** Modelled from the spec: the ORM's
    [workflowRepository.update(workflowId, patch)] overwrites the columns
    named in [patch] on the row with that id, if there is one, unless the
    write throws. *)
Definition workflowRepository_update (workflowId : string) (patch : WorkflowEntity)
    : M unit :=
  emit (WorkflowRepoUpdate workflowId patch);;
  match repositoryUpdateThrows env workflowId patch with
  | Some e => throw e
  | None =>
      modify (fun w =>
        set_workflowRepository
          (alter (fun stored => patch ∪ stored) workflowId (workflowRepository w)) w)
  end.

(** Modelled from the spec: the tags joined to a workflow through the
    mapping table. *)
Definition tagsOf (w : World) (workflowId : string) : list TagEntity :=
  omap (fun m : string * string =>
          if String.eqb m.2 workflowId then tagRepository w !! m.1 else None)
       (workflowTagMappingRepository w).

(** Modelled from the spec: the entity with the given id, with its tags
    when the relation is asked for. *)
Definition loadWorkflow (workflowId : string) (relations : list string) (w : World)
    : option WorkflowEntity :=
  match workflowRepository w !! workflowId with
  | Some entity =>
      if existsb (String.eqb "tags") relations
      then Some (<["tags" := FTags (tagsOf w workflowId)]> entity)
      else Some entity
  | None => None
  end.

(** [workflowRepository.findOne({ where: { id }, relations })]. *)
Definition workflowRepository_findOne (workflowId : string) (relations : list string)
    : M (option WorkflowEntity) :=
  emit (WorkflowRepoFindOne workflowId);;
  gets (loadWorkflow workflowId relations).

(** Modelled from the spec: the ORM's [workflowRepository.delete(id)]
    removes the row, unless the deletion throws. *)
Definition workflowRepository_delete (workflowId : string) : M unit :=
  await (WorkflowRepoDelete workflowId);;
  modify (fun w =>
    set_workflowRepository (base.delete workflowId (workflowRepository w)) w).

(** Modelled from the spec: the ORM's
    [workflowTagMappingRepository.delete({ workflowId })] and
    [insert(rows)], each of which may throw instead. *)
Definition workflowTagMappingRepository_delete (workflowId : string) : M unit :=
  await (TagMappingDelete workflowId);;
  modify (fun w =>
    set_workflowTagMappingRepository
      (List.filter (fun m : string * string => negb (String.eqb m.2 workflowId))
         (workflowTagMappingRepository w)) w).

Definition workflowTagMappingRepository_insert (workflowId : string)
    (tagIds : list string) : M unit :=
  await (TagMappingInsert workflowId tagIds);;
  modify (fun w =>
    set_workflowTagMappingRepository
      (workflowTagMappingRepository w ++ map (fun tagId => (tagId, workflowId)) tagIds)%list
      w).

(** Modelled from the spec: the ORM's
    [executionRepository.find({ select: ['id'], where: { workflowId } })],
    here with the mapping to [{ workflowId, executionId }] that follows
    it; the look-up may throw. *)
Definition executionRepository_find (workflowId : string) : M (list (string * string)) :=
  await (ExecutionFind workflowId);;
  gets (fun w =>
    map (fun row : string * string => (workflowId, row.1))
      (List.filter (fun row : string * string => String.eqb row.2 workflowId)
         (executionRepository w))).

(** Modelled from the spec: [binaryDataService.deleteMany(ids)] removes
    the binary data stored for these executions, unless it throws. *)
Definition binaryDataService_deleteMany (ids : list (string * string)) : M unit :=
  await (BinaryDeleteMany ids);;
  modify (fun w =>
    set_binaryDataService
      (List.filter (fun stored => bool_decide (stored ∉ ids)) (binaryDataService w)) w).

(** [workflowHistoryService.saveVersion(user, workflow, workflowId)]:
    the call is recorded, and throws what the environment says. *)
Definition workflowHistoryService_saveVersion (user : User) (workflow : WorkflowEntity)
    (workflowId : string) : M unit :=
  await (HistorySaveVersion user workflow workflowId).

(** [uuid()]: the next identifier of the environment's generator. *)
Definition uuid_v4 : M string :=
  let* n := gets uuidCount in
  modify (set_uuidCount (S n));;
  emit (UuidV4 (uuid env n));;
  ret (uuid env n).

(** ** findPinnedTrigger *)

Definition isTrigger (nodeTypeName : string) : bool :=
  existsb (fun suffix => includes (toLowerCase (engine env) nodeTypeName) suffix)
    ["trigger"; "webhook"].

(** [!!o[key]] on an object [o] whose own properties hold arrays, which
    are truthy: a key that is no own property is looked up in
    [Object.prototype], where the inherited names hold functions, and
    ["__proto__"] the prototype itself, all truthy. *)
Definition hasTruthy {V} (o : gmap string V) (key : string) : bool :=
  bool_decide (is_Some (o !! key)) || bool_decide (key ∈ inheritedNames).

(** The predicate of [workflow.nodes.filter]. *)
Definition isPinnedTrigger (pinData : IPinData) (node : INode) : bool :=
  negb (default false (nodeDisabled node))
  && hasTruthy pinData (nodeName node)
  && isTrigger (nodeType node).

Definition findPinnedTrigger (workflow : IWorkflowDb)
    (startNodes : option (list string)) (pinData : option IPinData) : option INode :=
  match pinData, startNodes with
  | Some pinData, Some startNodes =>
      let pinnedTriggers := List.filter (isPinnedTrigger pinData) (nodes workflow) in
      match pinnedTriggers with
      | [] => None
      | firstPinned :: _ =>
          match startNodes with
          | [] => Some firstPinned
          | startNodeName :: _ =>
              let parentNames :=
                getParentNodes env (nodes workflow) (connections workflow) startNodeName in
              let checkNodeName :=
                match parentNames with
                | [] => Some startNodeName
                | _ => List.find (fun pn => String.eqb pn (nodeName firstPinned)) parentNames
                end in
              match checkNodeName with
              | Some checkNodeName =>
                  List.find (fun pt => String.eqb (nodeName pt) checkNodeName) pinnedTriggers
              | None => None
              end
          end
      end
  | _, _ => None
  end.

(** ** update *)

Definition conflictMessage : string :=
  "Your most recent changes may be lost, because someone else just updated this workflow. Open this workflow in a new tab to see those new updates.".

Definition noPermissionMessage : string :=
  "You do not have permission to update this workflow. Ask the owner to share it with you.".

(** The condition of the optimistic-concurrency check. *)
Definition versionConflict (forceSave : option bool) (workflow stored : WorkflowEntity)
    : bool :=
  negb (default false forceSave)
  && strictNe (workflow !! "versionId") (Some (FValue (VStr "")))
  && strictNe (workflow !! "versionId") (stored !! "versionId").

(** [Object.keys(omit(workflow, ['id', 'versionId', 'active'])).length > 0]. *)
Definition changesVersion (workflow : WorkflowEntity) : bool :=
  (0 <? length (Object_keys (omit workflow ["id"; "versionId"; "active"])))%nat.

(** A helper of [WorkflowHelpers] applied to [workflow.nodes]. *)
Definition onNodes (f : list INode -> list INode) (workflow : WorkflowEntity)
    : WorkflowEntity :=
  match workflow !! "nodes" with
  | Some (FNodes ns) => <["nodes" := FNodes (f ns)]> workflow
  | _ => workflow
  end.

Definition keysAllowingDefault : list string :=
  [ "timezone"; "saveDataErrorExecution"; "saveDataSuccessExecution";
    "saveManualExecutions"; "saveExecutionProgress" ].

(** The two clean-ups of [workflowSettings], which is [workflow.settings]
    itself when the workflow has settings. *)
Definition cleanSettings (workflowSettings : IDataObject) : IDataObject :=
  let withoutDefaults :=
    fold_left
      (fun o key =>
         if value_eqb (default VUndefined (o !! key)) (VStr "DEFAULT")
         then base.delete key o else o)
      keysAllowingDefault workflowSettings in
  if value_eqb (default VUndefined (withoutDefaults !! "executionTimeout"))
       (executionsTimeout env)
  then base.delete "executionTimeout" withoutDefaults
  else withoutDefaults.

Definition withCleanSettings (workflow : WorkflowEntity) : WorkflowEntity :=
  match workflow !! "settings" with
  | Some (FObject o) => <["settings" := FObject (cleanSettings o)]> workflow
  | _ => workflow
  end.

Definition persistedKeys : list string :=
  [ "name"; "active"; "nodes"; "connections"; "settings"; "staticData";
    "pinData"; "versionId" ].

(** The patch of the [catch] block: [{ active: false, versionId:
    shared.workflow.versionId }]. *)
Definition rollbackPatch (stored : WorkflowEntity) : WorkflowEntity :=
  <["active" := FValue (VBool false)]>
    (match stored !! "versionId" with
     | Some v => {["versionId" := v]}
     | None => ∅
     end).

(** The message of the error thrown after a failed activation. *)
Definition activationMessage (e : error) : string :=
  let message :=
    if String.eqb (err_class e) "NodeApiError" then err_description e else None in
  default (err_message e) message.

Definition sortedTags (tagIds : option (list string)) (entity : WorkflowEntity)
    : WorkflowEntity :=
  match entity !! "tags", tagIds with
  | Some (FTags (t :: ts)), Some (tagId :: rest) =>
      <["tags" := FTags (sortByRequestOrder env (t :: ts) (tagId :: rest))]> entity
  | _, _ => entity
  end.

(** Lines 250-261: a new [versionId] when the update carries more than
    [id], [versionId] and [active]. *)
Definition assignVersionId (user : User) (workflow : WorkflowEntity)
    (workflowId : string) : M WorkflowEntity :=
  if changesVersion workflow then
    let* versionId := uuid_v4 in
    emit (LoggerVerbose
            ("Updating versionId for workflow " +:+ workflowId +:+ " for user "
             +:+ userId user +:+ " after saving"));;
    ret (<["versionId" := FValue (VStr versionId)]> workflow)
  else ret workflow.

(** Lines 263-279: the credential and node-id helpers, the
    [workflow.update] hook, and the removal of a stored-active workflow
    from the active workflows in memory. *)
Definition beforeSave (workflow : WorkflowEntity) (workflowId : string)
    (stored : WorkflowEntity) : M WorkflowEntity :=
  let workflow := onNodes (replaceInvalidCredentials env) workflow in
  let workflow := onNodes (addNodeIds env) workflow in
  externalHooks_run "workflow.update";;
  (if truthy (stored !! "active")
   then activeWorkflowRunner_remove workflowId
   else ret tt);;
  ret workflow.

(** Lines 281-319: the settings clean-up, the validation and the write
    to the workflow repository. *)
Definition save (workflow : WorkflowEntity) (workflowId : string) : M WorkflowEntity :=
  let workflow := withCleanSettings workflow in
  let* workflow :=
    (if truthy (workflow !! "name") then
       let workflow := <["updatedAt" := FDate (now env)]> workflow in
       validateEntity workflow;;
       ret workflow
     else ret workflow) in
  workflowRepository_update workflowId (pick workflow persistedKeys);;
  ret workflow.

(** Lines 321-330: the tag mappings and the history. *)
Definition tagsAndHistory (user : User) (workflow : WorkflowEntity) (workflowId : string)
    (tagIds : option (list string)) (stored : WorkflowEntity) : M unit :=
  (match tagIds with
   | Some tagIds =>
       if negb (workflowTagsDisabled env) then
         workflowTagMappingRepository_delete workflowId;;
         workflowTagMappingRepository_insert workflowId tagIds
       else ret tt
   | None => ret tt
   end);;
  (if strictNe (workflow !! "versionId") (stored !! "versionId")
   then workflowHistoryService_saveVersion user workflow workflowId
   else ret tt).

(** Lines 332-354: the re-fetch of the updated entity, which becomes
    the [updatedWorkflow] object, and the hooks that are handed it. *)
Definition refetch (workflowId : string) (tagIds : option (list string))
    : M WorkflowEntity :=
  let relations := if workflowTagsDisabled env then [] else ["tags"] in
  let* refetched := workflowRepository_findOne workflowId relations in
  match refetched with
  | None =>
      throw (BadRequestError
               ("Workflow with ID " +:+ dquote +:+ workflowId +:+ dquote
                +:+ " could not be found to be updated.") None)
  | Some refetched =>
      modify (set_updatedWorkflow (Some (sortedTags tagIds refetched)));;
      externalHooks_run "workflow.afterUpdate";;
      emit (InternalHook "onWorkflowSaved" workflowId);;
      ret (sortedTags tagIds refetched)
  end.

(** Lines 356-382: the workflow that is to be active is added again;
    if that throws, it is written back as inactive with the stored
    [versionId] and the error goes to the caller. *)
Definition reactivate (workflowId : string) (stored refetched : WorkflowEntity)
    : M unit :=
  if truthy (refetched !! "active") then
    try_catch
      (externalHooks_run "workflow.activate";;
       activeWorkflowRunner_add workflowId
         (if truthy (stored !! "active") then "update" else "activate"))
      (fun e =>
         workflowRepository_update workflowId (rollbackPatch stored);;
         modify (fun w =>
           set_updatedWorkflow
             (<["active" := FValue (VBool false)]> <$> updatedWorkflow w) w);;
         throw (BadRequestError (activationMessage e) None))
  else ret tt.

(** Lines 384-393. *)
Definition broadcast (workflowId : string) (stored : WorkflowEntity) : M unit :=
  emit MultiMainInit;;
  if multiMainEnabled env then
    let* newState := gets (fun w => updatedWorkflow w ≫= (.!! "active")) in
    emit (MultiMainBroadcast workflowId (stored !! "active") newState
            (stored !! "versionId"))
  else ret tt.

Definition update (user : User) (workflow : WorkflowEntity) (workflowId : string)
    (tagIds : option (list string)) (forceSave : option bool)
    (roles : option (list string)) : M WorkflowEntity :=
  let* shared :=
    sharedWorkflowRepository_findOne "workflow:update" workflowId
      (whereClause env user "workflow:update" workflowId roles) in
  match shared with
  | None =>
      emit (LoggerVerbose "User attempted to update a workflow without permissions");;
      throw (NotFoundError noPermissionMessage)
  | Some shared =>
      let stored := sharedWorkflow_workflow shared in
      if versionConflict forceSave workflow stored
      then throw (BadRequestError conflictMessage (Some 100%Z))
      else
        let* workflow := assignVersionId user workflow workflowId in
        let* workflow := beforeSave workflow workflowId stored in
        let* workflow := save workflow workflowId in
        tagsAndHistory user workflow workflowId tagIds stored;;
        let* refetched := refetch workflowId tagIds in
        reactivate workflowId stored refetched;;
        broadcast workflowId stored;;
        let* updatedWorkflow := gets updatedWorkflow in
        ret (default refetched updatedWorkflow)
  end.

(** ** delete *)

Definition delete (user : User) (workflowId : string) : M (option WorkflowEntity) :=
  externalHooks_run "workflow.delete";;
  let* sharedWorkflow :=
    sharedWorkflowRepository_findOne "workflow:delete" workflowId
      (whereClause env user "workflow:delete" workflowId (Some ["owner"])) in
  match sharedWorkflow with
  | None => ret None
  | Some sharedWorkflow =>
      (if truthy (sharedWorkflow_workflow sharedWorkflow !! "active")
       then activeWorkflowRunner_remove workflowId
       else ret tt);;
      let* idsForDeletion := executionRepository_find workflowId in
      workflowRepository_delete workflowId;;
      binaryDataService_deleteMany idsForDeletion;;
      emit (InternalHook "onWorkflowDeleted" workflowId);;
      externalHooks_run "workflow.afterDelete";;
      ret (Some (sharedWorkflow_workflow sharedWorkflow))
  end.

(** ** saveStaticData *)

Definition saveStaticDataById (workflowId : string) (newStaticData : IDataObject)
    : M unit :=
  workflowRepository_update workflowId {[ "staticData" := FObject newStaticData ]}.

(** [saveStaticData] returns nothing; the result here is the [workflow]
    object as the call leaves it. *)
Definition saveStaticData (workflow : Workflow) : M Workflow :=
  if strictlyTrue (default VUndefined (staticData workflow !! "__dataChanged")) then
    if isWorkflowIdValid env (id workflow) then
      try_catch
        (saveStaticDataById (id workflow) (staticData workflow);;
         ret {| id := id workflow;
                staticData := <["__dataChanged" := VBool false]> (staticData workflow) |})
        (fun e =>
           emit (ErrorReporterError e);;
           emit (LoggerError
                   ("There was a problem saving the workflow with id " +:+ dquote
                    +:+ id workflow +:+ dquote +:+ " to save changed Data: " +:+ dquote
                    +:+ err_message e +:+ dquote));;
           ret workflow)
    else ret workflow
  else ret workflow.

(** ** getSharing *)

(** [WorkflowsGetSharedOptions]. *)
Inductive WorkflowsGetSharedOptions : Type :=
| AllowGlobalScope (globalScope : string)
| DisallowGlobalScope.

(** The [where] of [getSharing]: [{ workflowId }], with [userId] when the
    look-up is restricted to the user's own share. *)
Definition sharingWhere (workflowId : string) (ownerId : option string)
    (row : SharedWorkflowRow) : bool :=
  String.eqb (rowWorkflowId row) workflowId
  && match ownerId with
     | Some u => String.eqb (rowUserId row) u
     | None => true
     end.

(** [getSharing]; [hasGlobalScope] is the method of [User], and the
    entity found carries its workflow when that relation is asked for
    ([relations] defaults to [['workflow']]). *)
Definition getSharing (hasGlobalScope : User -> string -> bool) (user : User)
    (workflowId : string) (options : WorkflowsGetSharedOptions)
    (relations : option (list string))
    : M (option (SharedWorkflowRow * option WorkflowEntity)) :=
  let relations := default ["workflow"] relations in
  let restricted :=
    match options with
    | AllowGlobalScope globalScope => negb (hasGlobalScope user globalScope)
    | DisallowGlobalScope => true
    end in
  let where_ := sharingWhere workflowId (if restricted then Some (userId user) else None) in
  emit (SharedWorkflowFindOne
          (match options with AllowGlobalScope globalScope => globalScope | _ => "" end)
          workflowId);;
  gets (fun w =>
    match List.find where_ (sharedWorkflowRepository w) with
    | Some row =>
        Some (row,
              if existsb (String.eqb "workflow") relations
              then workflowRepository w !! rowWorkflowId row
              else None)
    | None => None
    end).

(** ** runManually *)

(** [IRunData]: the run data by node name. *)
Abbreviation IRunData := (gmap string (list IDataObject)).

(** [WorkflowRequest.ManualRunPayload]. *)
Record ManualRunPayload : Type := {
  workflowData : IWorkflowDb;
  runData : option IRunData;
  pinData : option IPinData;
  startNodes : option (list string);
  destinationNode : option string
}.

(** [IWorkflowExecutionDataProcess], as [runManually] fills it. *)
Record IWorkflowExecutionDataProcess : Type := {
  runDestinationNode : option string;
  runExecutionMode : string;
  runRunData : option IRunData;
  runPinData : option IPinData;
  runSessionId : option string;
  runStartNodes : option (list string);
  runWorkflowData : IWorkflowDb;
  runUserId : string
}.

(** What [runManually] calls: [WorkflowExecuteAdditionalData.getBase],
    [testWebhooks.needsWebhookData] (as a function of the workflow data,
    the session id and the destination node) and [WorkflowRunner.run];
    each returns or throws. *)
Record RunEnv : Type := {
  getBase : string -> result unit;
  needsWebhookData : IWorkflowDb -> option string -> option string -> result bool;
  run : IWorkflowExecutionDataProcess -> result string
}.

(** [{ waitingForWebhook: true }] or [{ executionId }]. *)
Inductive ManualRunResult : Type :=
| WaitingForWebhook
| ExecutionStarted (executionId : string).

(** [hasRunData(node)]. *)
Definition hasRunData (runData : option IRunData) (node : INode) : bool :=
  match runData with
  | Some runData => hasTruthy runData (nodeName node)
  | None => false
  end.

Definition runManually (renv : RunEnv) (payload : ManualRunPayload) (user : User)
    (sessionId : option string) : result ManualRunResult :=
  let pinnedTrigger :=
    findPinnedTrigger (workflowData payload) (startNodes payload) (pinData payload) in
  let fullRun :=
    match runData payload, startNodes payload, destinationNode payload with
    | Some _, Some (_ :: _), Some _ => false
    | _, _, _ => true
    end in
  needsWebhook <-?
    (match pinnedTrigger with
     | None =>
         if fullRun then
           _ <-? getBase renv (userId user);
           needsWebhookData renv (workflowData payload) sessionId (destinationNode payload)
         else Ok false
     | Some _ => Ok false
     end);
  if needsWebhook then Ok WaitingForWebhook
  else
    let workflowData :=
      {| nodes := nodes (workflowData payload);
         connections := connections (workflowData payload);
         active := false |} in
    let startNodes :=
      match pinnedTrigger with
      | Some pinnedTrigger =>
          if negb (hasRunData (runData payload) pinnedTrigger)
          then Some [nodeName pinnedTrigger]
          else startNodes payload
      | None => startNodes payload
      end in
    executionId <-?
      run renv
        {| runDestinationNode := destinationNode payload;
           runExecutionMode := "manual";
           runRunData := runData payload;
           runPinData := pinData payload;
           runSessionId := sessionId;
           runStartNodes := startNodes;
           runWorkflowData := workflowData;
           runUserId := userId user |};
    Ok (ExecutionStarted executionId).

(** ** getMany *)

(** A value of [ListQuery.Options.filter]: [name] is a string, [active]
    a boolean, [tags] an array of strings. *)
Inductive FilterValue : Type :=
| FilterString (s : string)
| FilterBoolean (b : bool)
| FilterStrings (l : list string).

(** A value of the [where] given to the repository. *)
Inductive WhereValue : Type :=
| WhereEquals (v : FilterValue)
| WhereIn (ids : list string)
| WhereLike (pattern : string)
| WhereTagNames (names : list string).

(** A value of a [select]: [true], or the selected properties of a
    relation. *)
Inductive SelectValue : Type :=
| SelectTrue
| SelectNested (properties : list string).

Record ListQueryOptions : Type := {
  optFilter : option (gmap string FilterValue);
  optSelect : option (gmap string SelectValue);
  optSkip : option nat;
  optTake : option nat
}.

(** [FindManyOptions<WorkflowEntity>], with the properties [getMany]
    sets. *)
Record FindManyOptions : Type := {
  findSelect : gmap string SelectValue;
  findWhere : gmap string WhereValue;
  findOrder : option (string * string);
  findRelations : option (list string);
  findSkip : option nat;
  findTake : option nat
}.

Definition defaultSelect : gmap string SelectValue :=
  {[ "name" := SelectTrue; "active" := SelectTrue; "createdAt" := SelectTrue;
     "updatedAt" := SelectTrue; "versionId" := SelectTrue;
     "shared" := SelectNested ["userId"; "roleId"] ]}.

(** Lines 133-193: the options [getMany] hands to [findAndCount]. *)
Definition findManyOptions (sharedWorkflowIds : list string)
    (options : option ListQueryOptions) : FindManyOptions :=
  let filter_ : gmap string FilterValue := default ∅ (options ≫= optFilter) in
  let where_ : gmap string WhereValue :=
    <["id" := WhereIn sharedWorkflowIds]> (WhereEquals <$> filter_) in
  let where_ :=
    match filter_ !! "tags" with
    | Some (FilterStrings reqTags) => <["tags" := WhereTagNames reqTags]> where_
    | _ => where_
    end in
  let select : gmap string SelectValue :=
    base.delete "ownedBy" (default defaultSelect (options ≫= optSelect)) in
  let areTagsEnabled := negb (workflowTagsDisabled env) in
  let isDefaultSelect :=
    match options ≫= optSelect with None => true | Some _ => false end in
  let selects (key : string) :=
    match (options ≫= optSelect) ≫= (fun select : gmap string SelectValue => select !! key) with
    | Some SelectTrue => true
    | _ => false
    end in
  let areTagsRequested := isDefaultSelect || selects "tags" in
  let isOwnedByIncluded := isDefaultSelect || selects "ownedBy" in
  let relations := if areTagsEnabled && areTagsRequested then ["tags"] else [] in
  let select :=
    if areTagsEnabled && areTagsRequested
    then <["tags" := SelectNested ["id"; "name"]]> select
    else select in
  let relations :=
    if isOwnedByIncluded
    then (relations ++ ["shared"; "shared.role"; "shared.user"])%list
    else relations in
  let where_ :=
    match where_ !! "name" with
    | Some (WhereEquals (FilterString name)) =>
        if negb (String.eqb name "")
        then <["name" := WhereLike ("%" +:+ name +:+ "%")]> where_
        else where_
    | _ => where_
    end in
  let paged :=
    match options ≫= optTake with
    | Some (S _) => true
    | _ => false
    end in
  {| findSelect := <["id" := SelectTrue]> select;
     findWhere := where_;
     findOrder :=
       if isDefaultSelect || selects "updatedAt" then Some ("updatedAt", "ASC") else None;
     findRelations := match relations with [] => None | _ => Some relations end;
     findSkip := if paged then options ≫= optSkip else None;
     findTake := if paged then options ≫= optTake else None |}.


End Service.

End WorkflowService.

(* ===================================================================== *)
(** * Terms used to state the properties *)
(* ===================================================================== *)

Module Terms.
Import Js N8n WorkflowService.

(** [pieces] are what lies between the separators in [s]: joined by the
    separator they give [s], and none holds the separator. *)
Definition separated (sep : ascii) (s : string) (pieces : list string) : Prop :=
  s = String.concat (String sep "") pieces
  ∧ Forall (fun piece => includes piece (String sep "") = false) pieces
  ∧ pieces ≠ [].

(** A string made of white space only. *)
Inductive blank : string → Prop :=
| blank_nil : blank ""
| blank_cons w s : w ∈ whiteSpace → blank s → blank (w +:+ s).

(** A string made of pieces that [white] accepts. *)
Inductive stripped (white : string → bool) : string → Prop :=
| stripped_nil : stripped white ""
| stripped_cons w s : white w = true → stripped white s → stripped white (w +:+ s).

(** [name] is [piece] without the white space at its two ends: what is
    taken off is white space, and [name] neither begins nor ends with
    any. *)
Definition trimmed (piece name : string) : Prop :=
  ∃ before after,
    piece = before +:+ name +:+ after
    ∧ blank before ∧ blank after
    ∧ (∀ w rest, w ∈ whiteSpace → name ≠ w +:+ rest)
    ∧ (∀ w rest, w ∈ whiteSpace → name ≠ rest +:+ w).

(** [names] are the field names that a parameter lists: its pieces
    between the commas, each trimmed. *)
Definition fieldNames (parameter : string) (names : list string) : Prop :=
  ∃ pieces, separated "," parameter pieces ∧ Forall2 trimmed pieces names.

(** A table prefix with which the names of the migration's statements
    are read as they are spelled: it is made of ASCII letters, digits,
    underscores, dollar signs and bytes above the ASCII range, begins with
    neither a digit nor a dollar sign, and does not make the table's name
    begin with [sqlite_]. *)
Definition plainPrefix (tablePrefix : string) : bool :=
  forallb Migration.identifierPart (Migration.codes tablePrefix)
  && match Migration.codes tablePrefix with
     | [] => true
     | first :: _ => Migration.identifierStart first
     end
  && negb (String.prefix "sqlite_"
             (Migration.folded (tablePrefix +:+ "execution_metadata"))).

(** The outcome is a return, as a boolean. *)
Definition returned {A} (r : result A) : bool :=
  match r with
  | Ok _ => true
  | Throw _ => false
  end.

(** The computation returns. *)
Definition succeeds {A} (r : result A) : Prop := ∃ a, r = Ok a.

(** What the filter of [findPinnedTrigger] lets through: a node that is
    not disabled, under whose name [pinData] holds something, be it an
    entry of its own or what every object inherits, and whose type name
    in lower case contains "trigger" or "webhook". *)
Definition eligible (env : Env) (pinData : IPinData) (node : INode) : Prop :=
  nodeDisabled node ≠ Some true
  ∧ (is_Some (pinData !! nodeName node) ∨ nodeName node ∈ inheritedNames)
  ∧ (includes (toLowerCase (engine env) (nodeType node)) "trigger" = true
     ∨ includes (toLowerCase (engine env) (nodeType node)) "webhook" = true).

(** The steps of [update] that the ordering property speaks of, as
    calls on collaborators. *)
Inductive Step : Type :=
| PermissionLookup
| RegistryRemoval
| Persistence
| RegistryAddition
| Broadcast.

Definition step_of (ev : Event) : option Step :=
  match ev with
  | SharedWorkflowFindOne _ _ => Some PermissionLookup
  | ActiveRemove _ => Some RegistryRemoval
  | WorkflowRepoUpdate _ _ => Some Persistence
  | ActiveAdd _ _ => Some RegistryAddition
  | MultiMainBroadcast _ _ _ _ => Some Broadcast
  | _ => None
  end.

Definition steps (evs : list Event) : list Step := omap step_of evs.

(** The steps of a call of [update] that returns. *)
Definition plan (storedActive updatedActive multiMain : bool) : list Step :=
  ([PermissionLookup]
   ++ (if storedActive then [RegistryRemoval] else [])
   ++ [Persistence]
   ++ (if updatedActive then [RegistryAddition] else [])
   ++ (if multiMain then [Broadcast] else []))%list.

(** The steps of a call of [update] whose re-activation failed: the write
    that follows the attempt is the one of the catch block. *)
Definition rolledBack (storedActive : bool) (attempted : list Step) : list Step :=
  ([PermissionLookup]
   ++ (if storedActive then [RegistryRemoval] else [])
   ++ [Persistence]
   ++ attempted
   ++ [Persistence])%list.

(** The calls that concern the version: the generation of a new
    [versionId] and the saving of a history version. *)
Definition versioning (evs : list Event) : list Event :=
  List.filter
    (fun ev =>
       match ev with
       | UuidV4 _ | HistorySaveVersion _ _ _ => true
       | _ => false
       end) evs.

(** Lines 332-395 of [update], which follow the write of the workflow. *)
Definition afterSave (env : Env) (workflowId : string) (tagIds : option (list string))
    (stored : WorkflowEntity) : M WorkflowEntity :=
  bind (refetch env workflowId tagIds) (fun refetched =>
  bind (reactivate env workflowId stored refetched) (fun _ =>
  bind (broadcast env workflowId stored) (fun _ =>
  bind (gets updatedWorkflow) (fun updatedWorkflow =>
  ret (default refetched updatedWorkflow))))).

(** Lines 321-395 of [update], which follow the write of the workflow. *)
Definition afterWrite (env : Env) (user : User) (workflow : WorkflowEntity)
    (workflowId : string) (tagIds : option (list string)) (stored : WorkflowEntity)
    : M WorkflowEntity :=
  bind (tagsAndHistory env user workflow workflowId tagIds stored) (fun _ =>
  afterSave env workflowId tagIds stored).

(** A computation that makes no call concerning the version, whatever
    its outcome. *)
Definition quiet {A} (m : M A) : Prop :=
  ∀ w, ∃ evs, trace (m w).2 = (trace w ++ evs)%list ∧ versioning evs = [].

(** The [active] property of an entity after a patch: the patch's if it
    has one, else the entity's. *)
Definition activeAfter (patch entity : WorkflowEntity) : option field :=
  match patch !! "active" with
  | Some a => Some a
  | None => entity !! "active"
  end.

(** The tables and the entity object that the properties of [update]
    follow through the call. *)
Definition stores (w : World)
    : gmap string WorkflowEntity * list (string * string) * gmap string TagEntity
      * option WorkflowEntity :=
  (workflowRepository w, workflowTagMappingRepository w, tagRepository w, updatedWorkflow w).

(** The incoming workflow after lines 250-261, [n] uuids having been
    generated before. *)
Definition versioned (env : Env) (n : nat) (workflow : WorkflowEntity) : WorkflowEntity :=
  if changesVersion workflow
  then <["versionId" := FValue (VStr (uuid env n))]> workflow
  else workflow.

(** Lines 281-305 on a workflow: settings cleaned, [updatedAt] set when
    it has a name. *)
Definition finalised (env : Env) (workflow : WorkflowEntity) : WorkflowEntity :=
  let cleaned := withCleanSettings env workflow in
  if truthy (cleaned !! "name") then <["updatedAt" := FDate (now env)]> cleaned else cleaned.

(** The workflow as it is written and handed to the history: credentials
    and node ids fixed, then finalised. *)
Definition prepared (env : Env) (workflow : WorkflowEntity) : WorkflowEntity :=
  finalised env (onNodes (addNodeIds env) (onNodes (replaceInvalidCredentials env) workflow)).

(** The error that stops lines 281-319, if any: the one of the validation
    of a named workflow, else the one of the repository write. *)
Definition saveError (env : Env) (workflowId : string) (workflow : WorkflowEntity)
    : option error :=
  match (if truthy (withCleanSettings env workflow !! "name")
         then validateEntityThrows env (finalised env workflow) else None) with
  | Some e => Some e
  | None => repositoryUpdateThrows env workflowId (pick (finalised env workflow) persistedKeys)
  end.

(** The error that stops lines 321-326, if any: the one of the deletion
    of the workflow's tag mappings, else the one of the insertion of the
    new ones. *)
Definition tagsError (env : Env) (workflowId : string) (tagIds : option (list string))
    : option error :=
  match tagIds with
  | Some tagIds =>
      if workflowTagsDisabled env then None
      else
        match rejects env (TagMappingDelete workflowId) with
        | Some e => Some e
        | None => rejects env (TagMappingInsert workflowId tagIds)
        end
  | None => None
  end.

(** The error thrown by the saving of the history version, if any. *)
Definition historyError (env : Env) (user : User) (workflow : WorkflowEntity)
    (workflowId : string) (stored : WorkflowEntity) : option error :=
  if strictNe (workflow !! "versionId") (stored !! "versionId")
  then rejects env (HistorySaveVersion user workflow workflowId)
  else None.

(** The tag mappings once those of the workflow have been replaced by
    the given tag ids. *)
Definition retagged (workflowId : string) (tagIds : list string)
    (mappings : list (string * string)) : list (string * string) :=
  (List.filter (fun m : string * string => negb (String.eqb m.2 workflowId)) mappings
   ++ map (fun tagId => (tagId, workflowId)) tagIds)%list.

(** The relations of the re-fetch. *)
Definition refetchRelations (env : Env) : list string :=
  if workflowTagsDisabled env then [] else ["tags"].

(** The error that makes the re-activation fail, if any: the one thrown
    by the [workflow.activate] hook, else the one thrown by
    [activeWorkflowRunner.add]. *)
Definition activationError (env : Env) (workflowId : string) (stored : WorkflowEntity)
    : option error :=
  match externalHookThrows env "workflow.activate" with
  | Some e => Some e
  | None =>
      activeAddThrows env workflowId
        (if truthy (stored !! "active") then "update" else "activate")
  end.

(** Unfold the calls on collaborators and the monad, and compute the
    projections of the worlds they build. *)
Ltac run_calls :=
  unfold sharedWorkflowRepository_findOne, externalHooks_run, activeWorkflowRunner_remove,
    activeWorkflowRunner_add, validateEntity, workflowRepository_update,
    workflowRepository_findOne, workflowTagMappingRepository_delete,
    workflowTagMappingRepository_insert, workflowHistoryService_saveVersion, uuid_v4,
    await, try_catch, bind, emit, modify, gets,
    ret, throw;
  cbn [fst snd trace workflowRepository sharedWorkflowRepository
       workflowTagMappingRepository tagRepository executionRepository binaryDataService
       activeWorkflows updatedWorkflow uuidCount set_trace set_workflowRepository
       set_workflowTagMappingRepository set_binaryDataService set_activeWorkflows
       set_updatedWorkflow set_uuidCount stores negb].

Ltac run_calls_in H :=
  unfold sharedWorkflowRepository_findOne, externalHooks_run, activeWorkflowRunner_remove,
    activeWorkflowRunner_add, validateEntity, workflowRepository_update,
    workflowRepository_findOne, workflowTagMappingRepository_delete,
    workflowTagMappingRepository_insert, workflowHistoryService_saveVersion, uuid_v4,
    await, try_catch, bind, emit, modify, gets,
    ret, throw in H;
  cbn [fst snd trace workflowRepository sharedWorkflowRepository
       workflowTagMappingRepository tagRepository executionRepository binaryDataService
       activeWorkflows updatedWorkflow uuidCount set_trace set_workflowRepository
       set_workflowTagMappingRepository set_binaryDataService set_activeWorkflows
       set_updatedWorkflow set_uuidCount stores negb] in H.

(** Close a goal [x ∉ [a; b; ...]] between distinct constructors. *)
Ltac not_listed :=
  let Hin := fresh "Hin" in
  intros Hin;
  repeat (apply elem_of_cons in Hin as [Hin|Hin]; [discriminate Hin|]);
  inversion Hin.

(** Close a goal [trace w ++ e1 ++ ... = trace w ++ ?evs]. *)
Ltac trace_grows := rewrite <- ?app_assoc; reflexivity.

(** ** Sample inputs *)

(** SQLite rejecting every text that it cannot read as the statement
    meant. *)
Definition syntaxError : error := Error "QueryFailedError" "SQLITE_ERROR: syntax error" None None.

Definition rejected (st : Migration.Statement) (db : Migration.Database)
    : result Migration.Database :=
  Throw syntaxError.

Definition emptyDatabase : Migration.Database :=
  {| Migration.schema := []; Migration.migrationLog := [] |}.

(** A stand-in for the engine's [toLowerCase]: it lowers the ASCII
    letters, as the engine does, and leaves every other byte alone. *)
Definition lowerAscii (s : string) : string :=
  bytes (map (fun n => if ((65 <=? n) && (n <=? 90))%nat then n + 32 else n)
           (map nat_of_ascii (list_ascii_of_string s))).

Definition asciiEngine : Engine := {| toLowerCase := lowerAscii |}.

(** One input item with a text file, a zip archive and a gzip file
    attached. *)
Definition sampleItem : INodeExecutionData :=
  {| json := {["id" := VNum 1]};
     binary :=
       Some (<["data" := {| data := [Byte.x68; Byte.x69]; mimeType := "text/plain";
                            fileName := Some "report.final.txt";
                            fileExtension := Some "txt" |}]>
            (<["bundle" := {| data := [Byte.x50; Byte.x4b]; mimeType := "application/zip";
                              fileName := Some "bundle.zip";
                              fileExtension := Some "ZIP" |}]>
               {["archive" := {| data := [Byte.x1f; Byte.x8b; Byte.x6f; Byte.x6b];
                                 mimeType := "application/gzip";
                                 fileName := Some "notes.txt.gz";
                                 fileExtension := Some "GZ" |}]}));
     pairedItem := None |}.

Definition missingField (name : string) : error :=
  Error "NodeOperationError" ("This operation expects the node's input data to contain a binary file '" +:+ name +:+ "', but none was found") None None.

(** Helpers that read the binary fields off the input items. *)
Definition sampleNode (operation outputFormat binaryPropertyName : string)
    : Compression.IExecuteFunctions :=
  let field (i : nat) (name : string) : option IBinaryData :=
    match [sampleItem] !! i with
    | Some item =>
        match binary item with
        | Some fields => fields !! name
        | None => None
        end
    | None => None
    end in
  {| Compression.getInputData := [sampleItem];
     Compression.getNodeParameter := fun parameter _ =>
       if String.eqb parameter "operation" then operation
       else if String.eqb parameter "binaryPropertyName" then binaryPropertyName
       else if String.eqb parameter "outputFormat" then outputFormat
       else if String.eqb parameter "outputPrefix" then "file_"
       else "";
     Compression.assertBinaryData := fun i name =>
       match field i name with
       | Some b => Ok b
       | None => Throw (missingField name)
       end;
     Compression.getBinaryDataBuffer := fun i name =>
       match field i name with
       | Some b => Ok (data b)
       | None => Throw (missingField name)
       end;
     Compression.prepareBinaryData := fun buffer filePath =>
       Ok {| data := buffer; mimeType := "application/octet-stream";
             fileName := filePath; fileExtension := None |};
     Compression.continueOnFail := false |}.

(** Stand-ins for the codecs: "gzip" puts the two magic bytes in front. *)
Definition sampleLibraries : Compression.Libraries :=
  {| Compression.engine := asciiEngine;
     Compression.gzip := fun b => Ok (Byte.x1f :: Byte.x8b :: b);
     Compression.gunzip := fun b =>
       match b with
       | Byte.x1f :: Byte.x8b :: rest => Ok rest
       | _ => Throw (Error "Error" "invalid gzip data" None None)
       end;
     Compression.unzip := fun _ =>
       Ok [ ("a.txt", [Byte.x61]); ("__MACOSX/._a.txt", []); ("b.txt", [Byte.x62]) ];
     Compression.zip := fun _ => Ok [];
     Compression.mime_extension := fun _ => Some "bin" |}.

(** An environment in which nothing throws: sharing rows are selected by
    workflow id and by user unless the user holds the global scope. *)
Definition quietEnv : Env :=
  {| engine := asciiEngine;
     whereClause := fun user globalScope entityId roles row =>
       String.eqb (rowWorkflowId row) entityId
       && (existsb (String.eqb globalScope) (globalScopes user)
           || (String.eqb (rowUserId row) (userId user)
               && match roles with
                  | Some (r :: rs) => existsb (String.eqb (rowRole row)) (r :: rs)
                  | _ => true
                  end));
     getParentNodes := fun _ _ _ => [];
     replaceInvalidCredentials := fun ns => ns;
     addNodeIds := fun ns => ns;
     sortByRequestOrder := fun tags _ => tags;
     isWorkflowIdValid := fun _ => true;
     uuid := fun n => "uuid-" +:+ pretty n;
     now := 1700000000;
     workflowTagsDisabled := false;
     executionsTimeout := VNum (-1);
     multiMainEnabled := false;
     externalHookThrows := fun _ => None;
     validateEntityThrows := fun _ => None;
     repositoryUpdateThrows := fun _ _ => None;
     activeAddThrows := fun _ _ => None;
     rejects := fun _ => None |}.

Definition withMultiMain (env : Env) : Env :=
  {| engine := engine env;
     whereClause := whereClause env;
     getParentNodes := getParentNodes env;
     replaceInvalidCredentials := replaceInvalidCredentials env;
     addNodeIds := addNodeIds env;
     sortByRequestOrder := sortByRequestOrder env;
     isWorkflowIdValid := isWorkflowIdValid env;
     uuid := uuid env;
     now := now env;
     workflowTagsDisabled := workflowTagsDisabled env;
     executionsTimeout := executionsTimeout env;
     multiMainEnabled := true;
     externalHookThrows := externalHookThrows env;
     validateEntityThrows := validateEntityThrows env;
     repositoryUpdateThrows := repositoryUpdateThrows env;
     activeAddThrows := activeAddThrows env;
     rejects := rejects env |}.

Definition activationFailure : error :=
  Error "NodeApiError" "Request failed" (Some "The trigger could not be registered") None.

(** As [env], but [activeWorkflowRunner.add] throws. *)
Definition withFailingAdd (env : Env) : Env :=
  {| engine := engine env;
     whereClause := whereClause env;
     getParentNodes := getParentNodes env;
     replaceInvalidCredentials := replaceInvalidCredentials env;
     addNodeIds := addNodeIds env;
     sortByRequestOrder := sortByRequestOrder env;
     isWorkflowIdValid := isWorkflowIdValid env;
     uuid := uuid env;
     now := now env;
     workflowTagsDisabled := workflowTagsDisabled env;
     executionsTimeout := executionsTimeout env;
     multiMainEnabled := multiMainEnabled env;
     externalHookThrows := externalHookThrows env;
     validateEntityThrows := validateEntityThrows env;
     repositoryUpdateThrows := repositoryUpdateThrows env;
     activeAddThrows := fun _ _ => Some activationFailure;
     rejects := rejects env |}.

Definition databaseDown : error := Error "QueryFailedError" "database is locked" None None.

(** As [env], but every write to the workflow repository throws. *)
Definition withFailingWrites (env : Env) : Env :=
  {| engine := engine env;
     whereClause := whereClause env;
     getParentNodes := getParentNodes env;
     replaceInvalidCredentials := replaceInvalidCredentials env;
     addNodeIds := addNodeIds env;
     sortByRequestOrder := sortByRequestOrder env;
     isWorkflowIdValid := isWorkflowIdValid env;
     uuid := uuid env;
     now := now env;
     workflowTagsDisabled := workflowTagsDisabled env;
     executionsTimeout := executionsTimeout env;
     multiMainEnabled := multiMainEnabled env;
     externalHookThrows := externalHookThrows env;
     validateEntityThrows := validateEntityThrows env;
     repositoryUpdateThrows := fun _ _ => Some databaseDown;
     activeAddThrows := activeAddThrows env;
     rejects := rejects env |}.

(** As [env], but a write to the workflow repository that carries no
    name throws: such a write is the one of the catch block of
    [update]. *)
Definition withFailingRollback (env : Env) : Env :=
  {| engine := engine env;
     whereClause := whereClause env;
     getParentNodes := getParentNodes env;
     replaceInvalidCredentials := replaceInvalidCredentials env;
     addNodeIds := addNodeIds env;
     sortByRequestOrder := sortByRequestOrder env;
     isWorkflowIdValid := isWorkflowIdValid env;
     uuid := uuid env;
     now := now env;
     workflowTagsDisabled := workflowTagsDisabled env;
     executionsTimeout := executionsTimeout env;
     multiMainEnabled := multiMainEnabled env;
     externalHookThrows := externalHookThrows env;
     validateEntityThrows := validateEntityThrows env;
     repositoryUpdateThrows := fun workflowId patch =>
       match patch !! "name" with
       | None => Some databaseDown
       | Some _ => repositoryUpdateThrows env workflowId patch
       end;
     activeAddThrows := activeAddThrows env;
     rejects := rejects env |}.

(** As [env], but [workflowRepository.delete] throws. *)
Definition withFailingDelete (env : Env) : Env :=
  {| engine := engine env;
     whereClause := whereClause env;
     getParentNodes := getParentNodes env;
     replaceInvalidCredentials := replaceInvalidCredentials env;
     addNodeIds := addNodeIds env;
     sortByRequestOrder := sortByRequestOrder env;
     isWorkflowIdValid := isWorkflowIdValid env;
     uuid := uuid env;
     now := now env;
     workflowTagsDisabled := workflowTagsDisabled env;
     executionsTimeout := executionsTimeout env;
     multiMainEnabled := multiMainEnabled env;
     externalHookThrows := externalHookThrows env;
     validateEntityThrows := validateEntityThrows env;
     repositoryUpdateThrows := repositoryUpdateThrows env;
     activeAddThrows := activeAddThrows env;
     rejects := fun call =>
       match call with
       | WorkflowRepoDelete _ => Some databaseDown
       | _ => rejects env call
       end |}.

(** As [env], but [workflowTagMappingRepository.insert] throws. *)
Definition withFailingInsert (env : Env) : Env :=
  {| engine := engine env;
     whereClause := whereClause env;
     getParentNodes := getParentNodes env;
     replaceInvalidCredentials := replaceInvalidCredentials env;
     addNodeIds := addNodeIds env;
     sortByRequestOrder := sortByRequestOrder env;
     isWorkflowIdValid := isWorkflowIdValid env;
     uuid := uuid env;
     now := now env;
     workflowTagsDisabled := workflowTagsDisabled env;
     executionsTimeout := executionsTimeout env;
     multiMainEnabled := multiMainEnabled env;
     externalHookThrows := externalHookThrows env;
     validateEntityThrows := validateEntityThrows env;
     repositoryUpdateThrows := repositoryUpdateThrows env;
     activeAddThrows := activeAddThrows env;
     rejects := fun call =>
       match call with
       | TagMappingInsert _ _ => Some databaseDown
       | _ => rejects env call
       end |}.

Definition aliceOwnsWf1 : SharedWorkflowRow :=
  {| rowUserId := "alice"; rowWorkflowId := "wf1"; rowRole := "owner" |}.

Definition alice : User := {| userId := "alice"; globalScopes := [] |}.
Definition bob : User := {| userId := "bob"; globalScopes := [] |}.

(** The stored workflow [wf1]: active, at version [v1], owned by alice. *)
Definition storedWorkflow : WorkflowEntity :=
  <["id" := FValue (VStr "wf1")]>
    (<["name" := FValue (VStr "Orders")]>
       (<["active" := FValue (VBool true)]>
          {["versionId" := FValue (VStr "v1")]})).

Definition sampleWorld : World :=
  {| workflowRepository := {["wf1" := storedWorkflow]};
     sharedWorkflowRepository := [aliceOwnsWf1];
     workflowTagMappingRepository := [];
     tagRepository := ∅;
     executionRepository := [("exec1", "wf1")];
     binaryDataService := [("wf1", "exec1")];
     activeWorkflows := {["wf1"]};
     updatedWorkflow := None;
     uuidCount := 0;
     trace := [] |}.

(** An update built on a version that is no longer the stored one. *)
Definition staleUpdate : WorkflowEntity :=
  <["name" := FValue (VStr "Orders (edited)")]> {["versionId" := FValue (VStr "v0")]}.

(** An update built on the stored version. *)
Definition currentUpdate : WorkflowEntity :=
  <["name" := FValue (VStr "Orders (edited)")]> {["versionId" := FValue (VStr "v1")]}.

(** An update built on the stored version that only deactivates the
    workflow. *)
Definition unnamedUpdate : WorkflowEntity :=
  <["active" := FValue (VBool false)]> {["versionId" := FValue (VStr "v1")]}.

(** The sample world with tags on [wf1] and on another workflow. *)
Definition taggedWorld : World :=
  set_workflowTagMappingRepository [("tag1", "wf1"); ("tag9", "wf2")] sampleWorld.

Definition changedStaticData : Workflow :=
  {| id := "wf1";
     staticData := <["__dataChanged" := VBool true]> {["lastId" := VNum 7]} |}.

(** ** Terms for what a call leaves alone *)

(** [R] relates the world before the computation to the world after it,
    whatever the outcome. *)
Definition keeps (R : World → World → Prop) {A} (m : M A) : Prop :=
  ∀ w, R w (m w).2.

(** The calls made between [w] and [w'] all satisfy [P]. *)
Definition callsAll (P : Event → Prop) (w w' : World) : Prop :=
  ∃ evs, trace w' = (trace w ++ evs)%list ∧ Forall P evs.

(** The projection [f] of the world is the same in [w'] as in [w]. *)
Definition sameOn {X} (f : World → X) (w w' : World) : Prop := f w' = f w.

Definition ofOther (workflowId : string) (id : string) : bool :=
  negb (String.eqb id workflowId).

(** What is stored about the workflows other than [workflowId] is the
    same in [w'] as in [w]: their rows, their presence among the active
    workflows, their tag mappings, their shares, their executions and the
    binary data of these; and the tags are the same. *)
Definition othersUntouched (workflowId : string) (w w' : World) : Prop :=
  (∀ other, other ≠ workflowId →
     workflowRepository w' !! other = workflowRepository w !! other)
  ∧ (∀ other, other ≠ workflowId →
       other ∈ activeWorkflows w' ↔ other ∈ activeWorkflows w)
  ∧ List.filter (fun m : string * string => ofOther workflowId m.2)
      (workflowTagMappingRepository w')
    = List.filter (fun m : string * string => ofOther workflowId m.2)
        (workflowTagMappingRepository w)
  ∧ List.filter (fun b : string * string => ofOther workflowId b.1) (binaryDataService w')
    = List.filter (fun b : string * string => ofOther workflowId b.1) (binaryDataService w)
  ∧ List.filter (fun row => ofOther workflowId (rowWorkflowId row))
      (sharedWorkflowRepository w')
    = List.filter (fun row => ofOther workflowId (rowWorkflowId row))
        (sharedWorkflowRepository w)
  ∧ List.filter (fun e : string * string => ofOther workflowId e.2) (executionRepository w')
    = List.filter (fun e : string * string => ofOther workflowId e.2) (executionRepository w)
  ∧ tagRepository w' = tagRepository w.

(** A call that [update] may make for the workflow [workflowId]: it
    names that workflow, a write to the workflow repository carries
    persisted properties only, and it is no deletion of a workflow or of
    binary data, nor a look-up of executions. *)
Definition updateCall (workflowId : string) (ev : Event) : Prop :=
  match ev with
  | SharedWorkflowFindOne _ id | ActiveRemove id | ActiveAdd id _
  | WorkflowRepoFindOne id | TagMappingDelete id | TagMappingInsert id _
  | HistorySaveVersion _ _ id | InternalHook _ id | MultiMainBroadcast id _ _ _ =>
      id = workflowId
  | WorkflowRepoUpdate id patch =>
      id = workflowId ∧ ∀ key, is_Some (patch !! key) → key ∈ persistedKeys
  | WorkflowRepoDelete _ | ExecutionFind _ | BinaryDeleteMany _ => False
  | _ => True
  end.

(** Settings as [update] stores them: none of the keys that allow it
    holds ['DEFAULT'], and the execution timeout is not the configured
    one. *)
Definition cleanedSettings (env : Env) (settings : IDataObject) : Prop :=
  (∀ key, key ∈ keysAllowingDefault → settings !! key ≠ Some (VStr "DEFAULT"))
  ∧ (∀ v, settings !! "executionTimeout" = Some v →
       value_eqb v (executionsTimeout env) = false).

(** A write to the workflow repository carries cleaned settings. *)
Definition writesCleanSettings (env : Env) (ev : Event) : Prop :=
  match ev with
  | WorkflowRepoUpdate _ patch =>
      ∀ settings, patch !! "settings" = Some (FObject settings) →
        cleanedSettings env settings
  | _ => True
  end.

(** No validation of an entity. *)
Definition notValidation (ev : Event) : Prop :=
  match ev with
  | ValidateEntity _ => False
  | _ => True
  end.

(** One round of the loop of [update] over [keysAllowingDefault]. *)
Definition dropDefault (o : IDataObject) (key : string) : IDataObject :=
  if value_eqb (default VUndefined (o !! key)) (VStr "DEFAULT")
  then base.delete key o else o.

#[global] Instance value_eq_dec : EqDecision value.
Proof. solve_decision. Defined.

(** Unfold [update] and [delete] down to the monad. *)
Ltac unfold_service :=
  unfold update, delete, assignVersionId, beforeSave, save, tagsAndHistory, refetch,
    reactivate, broadcast,
    saveStaticData, saveStaticDataById,
    sharedWorkflowRepository_findOne, externalHooks_run, activeWorkflowRunner_remove,
    activeWorkflowRunner_add, validateEntity, workflowRepository_update,
    workflowRepository_findOne, workflowRepository_delete,
    workflowTagMappingRepository_delete, workflowTagMappingRepository_insert,
    executionRepository_find, binaryDataService_deleteMany,
    workflowHistoryService_saveVersion, await, uuid_v4;
  cbv zeta.

(** ** Sample inputs of a manual run *)

Definition webhookNode : INode :=
  {| nodeId := None; nodeName := "On order"; nodeType := "n8n-nodes-base.Webhook";
     nodeDisabled := None; nodeCredentials := ∅ |}.

Definition codeNode : INode :=
  {| nodeId := None; nodeName := "Code"; nodeType := "n8n-nodes-base.code";
     nodeDisabled := None; nodeCredentials := ∅ |}.

Definition orderWorkflow : IWorkflowDb :=
  {| nodes := [codeNode; webhookNode]; connections := ∅; active := true |}.

(** A webhook node that bears the name of a property every object
    inherits, and a workflow made of it. *)
Definition constructorNode : INode :=
  {| nodeId := None; nodeName := "constructor"; nodeType := "n8n-nodes-base.webhook";
     nodeDisabled := None; nodeCredentials := ∅ |}.

Definition constructorWorkflow : IWorkflowDb :=
  {| nodes := [constructorNode]; connections := ∅; active := false |}.

(** A full run of the order workflow with its webhook node pinned. *)
Definition pinnedRun : ManualRunPayload :=
  {| workflowData := orderWorkflow;
     runData := None;
     pinData := Some {[ "On order" := [] ]};
     startNodes := Some [];
     destinationNode := None |}.

(** A run of the order workflow with nothing pinned. *)
Definition plainRun : ManualRunPayload :=
  {| workflowData := orderWorkflow;
     runData := None;
     pinData := None;
     startNodes := None;
     destinationNode := None |}.

(** Collaborators of [runManually] that do not throw; the test webhooks
    answer [needsWebhook]. *)
Definition sampleRunner (needsWebhook : bool) : RunEnv :=
  {| getBase := fun _ => Ok tt;
     needsWebhookData := fun _ _ _ => Ok needsWebhook;
     run := fun _ => Ok "execution-1" |}.

(** As [env], with the parents of every node being [parents]. *)
Definition withParents (parents : list string) (env : Env) : Env :=
  {| engine := engine env;
     whereClause := whereClause env;
     getParentNodes := fun _ _ _ => parents;
     replaceInvalidCredentials := replaceInvalidCredentials env;
     addNodeIds := addNodeIds env;
     sortByRequestOrder := sortByRequestOrder env;
     isWorkflowIdValid := isWorkflowIdValid env;
     uuid := uuid env;
     now := now env;
     workflowTagsDisabled := workflowTagsDisabled env;
     executionsTimeout := executionsTimeout env;
     multiMainEnabled := multiMainEnabled env;
     externalHookThrows := externalHookThrows env;
     validateEntityThrows := validateEntityThrows env;
     repositoryUpdateThrows := repositoryUpdateThrows env;
     activeAddThrows := activeAddThrows env;
     rejects := rejects env |}.

Definition vetoError : error := Error "Error" "Deletion is not allowed" None None.

(** As [env], but the [workflow.delete] hook throws. *)
Definition vetoing (env : Env) : Env :=
  {| engine := engine env;
     whereClause := whereClause env;
     getParentNodes := getParentNodes env;
     replaceInvalidCredentials := replaceInvalidCredentials env;
     addNodeIds := addNodeIds env;
     sortByRequestOrder := sortByRequestOrder env;
     isWorkflowIdValid := isWorkflowIdValid env;
     uuid := uuid env;
     now := now env;
     workflowTagsDisabled := workflowTagsDisabled env;
     executionsTimeout := executionsTimeout env;
     multiMainEnabled := multiMainEnabled env;
     externalHookThrows := fun hookName =>
       if String.eqb hookName "workflow.delete" then Some vetoError
       else externalHookThrows env hookName;
     validateEntityThrows := validateEntityThrows env;
     repositoryUpdateThrows := repositoryUpdateThrows env;
     activeAddThrows := activeAddThrows env;
     rejects := rejects env |}.

(** ** Terms for the Compression node *)

(** The field that gzip mode makes of the input field [name] of item
    [i]: the field is read, its buffer gzipped, and the result prepared
    under the first dot-separated segment of the file name followed by
    ".gzip". *)
Definition gzipField (this : Compression.IExecuteFunctions) (lib : Compression.Libraries)
    (i : nat) (name : string) : result IBinaryData :=
  binaryData <-? Compression.assertBinaryData this i name;
  buffer <-? Compression.getBinaryDataBuffer this i name;
  zipped <-? Compression.gzip lib buffer;
  Compression.prepareBinaryData this zipped
    (Some (template (firstDotSegment (fileName binaryData)) +:+ ".gzip")).

(** The binary fields once the writes [writes] have been made on
    [fields], in order: a later write under a name replaces an earlier
    one. *)
Definition written (writes : list (string * IBinaryData)) (fields : IBinaryKeyData)
    : IBinaryKeyData :=
  fold_left (fun fields (write : string * IBinaryData) => <[write.1 := write.2]> fields)
    writes fields.


Section Decompressed.
Variable this : Compression.IExecuteFunctions.
Variable lib : Compression.Libraries.
Variable i : nat.




End Decompressed.

(** What the loop of [execute] adds to the output for item [i] under
    [continueOnFail]: the items its [try] block pushes, or the item of
    its [catch] block. *)
Definition settled (this : Compression.IExecuteFunctions) (lib : Compression.Libraries)
    (i : nat) (item : INodeExecutionData) : list INodeExecutionData :=
  match Compression.processItem this lib i item with
  | Ok pushed => pushed
  | Throw e => [Compression.errorItem i e]
  end.

(** A list of numbers that goes strictly up. *)
Definition increasing (l : list nat) : Prop :=
  ∀ a b x y, a < b → l !! a = Some x → l !! b = Some y → x < y.

(** The operation and output format are ones that push an item. *)
Definition pushesItem (this : Compression.IExecuteFunctions) : Prop :=
  Compression.getNodeParameter this "operation" 0 = "decompress"
  ∨ (Compression.getNodeParameter this "operation" 0 = "compress"
     ∧ (Compression.getNodeParameter this "outputFormat" 0 = "zip"
        ∨ Compression.getNodeParameter this "outputFormat" 0 = "gzip")).

(** The entry that the zip branch of the compress loop sets for a field:
    under the field's file name, its buffer with the level. *)
Definition zipEntry (binaryData : IBinaryData) (buffer : Buffer)
    : string * (Buffer * nat) :=
  (template (fileName binaryData),
   (buffer,
    match fileExtension binaryData with
    | Some ext => if existsb (String.eqb ext) Compression.ALREADY_COMPRESSED then 0 else 6
    | None => 6
    end)).

(** The entries set for the fields [names] of item [i], in order. *)
Definition zipEntriesOf (this : Compression.IExecuteFunctions) (i : nat)
    (names : list string) (entries : list (string * (Buffer * nat))) : Prop :=
  Forall2
    (fun name entry =>
       ∃ binaryData buffer,
         Compression.assertBinaryData this i name = Ok binaryData
         ∧ Compression.getBinaryDataBuffer this i name = Ok buffer
         ∧ entry = zipEntry binaryData buffer)
    names entries.

(** The [zipData] object once the entries have been assigned, in turn,
    to an object that began empty. *)
Definition zipDataOf (entries : list (string * (Buffer * nat))) : Compression.Zippable :=
  fold_left (fun z (entry : string * (Buffer * nat)) =>
               Compression.zippable_set entry.1 entry.2 z)
    entries {| Compression.ownProperties := []; Compression.prototype := None |}.

(** [value] is what the last of the entries under [key] holds. *)
Definition lastAssigned (entries : list (string * (Buffer * nat))) (key : string)
    (value : Buffer * nat) : Prop :=
  ∃ k, entries !! k = Some (key, value)
       ∧ ∀ k' later, k < k' → entries !! k' = Some later → later.1 ≠ key.

(** What an archive object holds of the entries assigned to it: one
    property per key other than ["__proto__"], with the value of the last
    entry under that key; and as its prototype the value of the last
    entry under ["__proto__"], if there is one. *)
Definition archived (entries : list (string * (Buffer * nat))) (z : Compression.Zippable)
    : Prop :=
  NoDup (Compression.ownProperties z).*1
  ∧ (∀ key value,
       (key, value) ∈ Compression.ownProperties z
       ↔ key ≠ "__proto__" ∧ lastAssigned entries key value)
  ∧ (∀ value,
       Compression.prototype z = Some value ↔ lastAssigned entries "__proto__" value).

(** As [this], under [continueOnFail]. *)
Definition continuing (this : Compression.IExecuteFunctions) : Compression.IExecuteFunctions :=
  {| Compression.getInputData := Compression.getInputData this;
     Compression.getNodeParameter := Compression.getNodeParameter this;
     Compression.assertBinaryData := Compression.assertBinaryData this;
     Compression.getBinaryDataBuffer := Compression.getBinaryDataBuffer this;
     Compression.prepareBinaryData := Compression.prepareBinaryData this;
     Compression.continueOnFail := true |}.

End Terms.

(* ===================================================================== *)
(** * Facts about the string functions *)
(* ===================================================================== *)

Module StringFacts.
Import Js Terms.

Lemma app_cons c a b : String c a +:+ b = String c (a +:+ b).
Proof. done. Qed.

Lemma app_nil_l s : "" +:+ s = s.
Proof. done. Qed.

Lemma app_nil_r s : s +:+ "" = s.
Proof. induction s as [|c s IH]; [done|]. by rewrite app_cons, IH. Qed.

Lemma app_assoc a b c : (a +:+ b) +:+ c = a +:+ b +:+ c.
Proof. induction a as [|x a IH]; [done|]. by rewrite !app_cons, IH. Qed.

Lemma length_app a b : String.length (a +:+ b) = String.length a + String.length b.
Proof. induction a as [|x a IH]; [done|]. rewrite app_cons. cbn. by rewrite IH. Qed.

Lemma prefix_app sub s : String.prefix sub s = true ↔ ∃ after, s = sub +:+ after.
Proof.
  revert s. induction sub as [|c sub IH]; intros [|d s]; cbn.
  - split; [intros _; by exists ""|done].
  - split; [intros _; by exists (String d s)|done].
  - split; [done|by intros [after Heq]].
  - destruct (ascii_dec c d) as [->|Hne].
    + rewrite IH. split; intros [after Heq]; exists after.
      * by rewrite Heq.
      * change (String d sub +:+ after) with (String d (sub +:+ after)) in Heq. congruence.
    + split; [done|]. intros [after Heq].
      change (String c sub +:+ after) with (String c (sub +:+ after)) in Heq. congruence.
Qed.

(** [includes] is containment as a contiguous substring. *)
Lemma includes_app s sub :
  includes s sub = true ↔ ∃ before after, s = before +:+ sub +:+ after.
Proof.
  induction s as [|c s IH]; cbn [includes]; rewrite orb_true_iff, prefix_app.
  - split.
    + intros [[after Heq]|Hno]; [by exists "", after|done].
    + intros (before & after & Heq). left. exists after.
      destruct before; [done|discriminate].
  - rewrite IH. split.
    + intros [[after Heq]|(before & after & Heq)].
      * by exists "", after.
      * exists (String c before), after. by rewrite Heq.
    + intros (before & after & Heq). destruct before as [|d before].
      * left. by exists after.
      * right. exists before, after.
        change (String d before +:+ sub +:+ after)
          with (String d (before +:+ sub +:+ after)) in Heq.
        congruence.
Qed.

(** ** reverse *)

Lemma reverse_app a b : reverse (a +:+ b) = reverse b +:+ reverse a.
Proof.
  induction a as [|c a IH]; cbn [reverse].
  - by rewrite app_nil_r.
  - rewrite app_cons. cbn [reverse]. by rewrite IH, app_assoc.
Qed.

Lemma reverse_involutive s : reverse (reverse s) = s.
Proof.
  induction s as [|c s IH]; [done|]. cbn [reverse]. by rewrite reverse_app, IH.
Qed.

Lemma length_reverse s : String.length (reverse s) = String.length s.
Proof.
  induction s as [|c s IH]; [done|]. cbn [reverse]. rewrite length_app, IH. cbn. lia.
Qed.

(** ** split *)

Lemma split_not_nil sep s : split sep s ≠ [].
Proof.
  destruct s as [|c s]; cbn; [done|].
  destruct (Ascii.eqb c sep); [done|]. by destruct (split sep s).
Qed.

Lemma concat_cons sep (piece : string) (pieces : list string) :
  pieces ≠ [] →
  String.concat sep (piece :: pieces) = piece +:+ sep +:+ String.concat sep pieces.
Proof. by destruct pieces. Qed.

(** The pieces of [split], joined by the separator, give the string
    back, and no piece holds the separator. *)
Lemma split_separated sep s : separated sep s (split sep s).
Proof.
  unfold separated. induction s as [|c s (Hjoin & Hpieces & Hne)]; cbn [split].
  - split; [done|]. split; [|done]. by repeat constructor.
  - destruct (Ascii.eqb_spec c sep) as [->|Hc].
    + split; [|split; [|done]].
      * rewrite concat_cons by done. by rewrite <- Hjoin.
      * by constructor.
    + destruct (split sep s) as [|h t] eqn:Hsplit; [done|].
      split; [|split; [|done]].
      * destruct t as [|h' t].
        -- cbn in *. by rewrite <- Hjoin.
        -- rewrite concat_cons in * by done. rewrite app_cons. by rewrite <- Hjoin.
      * apply Forall_cons in Hpieces as [Hh Ht]. constructor; [|done].
        cbn [includes String.prefix]. rewrite Hh, orb_false_r.
        destruct (ascii_dec sep c) as [->|]; [done|done].
Qed.

(** ** trim *)

Lemma whiteSpace_length w :
  isWhiteSpace w = true → (1 ≤ String.length w ≤ 3)%nat.
Proof.
  unfold isWhiteSpace. intros (x & Hx & Heq)%existsb_exists.
  apply String.eqb_eq in Heq as <-. apply list_elem_of_In in Hx.
  revert w Hx. apply Forall_forall.
  repeat (constructor; [cbn; lia|]). constructor.
Qed.

Lemma isWhiteSpace_elem w : isWhiteSpace w = true ↔ w ∈ whiteSpace.
Proof.
  unfold isWhiteSpace. rewrite existsb_exists. split.
  - intros (x & Hx & Heq). apply String.eqb_eq in Heq as <-. by apply list_elem_of_In.
  - intros Hw. exists w. split; [by apply list_elem_of_In|apply String.eqb_refl].
Qed.

Section Strip.
Variable white : string → bool.
Hypothesis white_length : ∀ w, white w = true → (1 ≤ String.length w ≤ 3)%nat.

Lemma stripped_app a b : stripped white a → stripped white b → stripped white (a +:+ b).
Proof.
  induction 1 as [|w s Hw Hs IH]; [done|]. intros Hb.
  rewrite app_assoc. constructor; auto.
Qed.

Lemma stripStart_spec s :
  ∃ before,
    s = before +:+ stripStart white s
    ∧ stripped white before
    ∧ ∀ w rest, white w = true → stripStart white s ≠ w +:+ rest.
Proof.
  remember (String.length s) as n eqn:Hn. revert s Hn.
  induction (lt_wf n) as [n _ IH]. intros s ->.
  assert (∀ r w, String.length r < String.length s → white w = true → s = w +:+ r →
            stripStart white s = stripStart white r →
            ∃ before,
              s = before +:+ stripStart white s
              ∧ stripped white before
              ∧ ∀ w rest, white w = true → stripStart white s ≠ w +:+ rest) as Hstep.
  { intros r w Hlen Hw Hs Heq.
    destruct (IH (String.length r) Hlen r eq_refl) as (before & Hr & Hbefore & Hnone).
    exists (w +:+ before). rewrite Heq. split; [|split; [by constructor|done]].
    by rewrite app_assoc, <- Hr. }
  assert (∀ w rest, white w = true → s = w +:+ rest →
            ∃ a r1, s = String a r1
              ∧ (w = String a ""
                 ∨ ∃ b r2, r1 = String b r2
                     ∧ (w = String a (String b "")
                        ∨ ∃ c r3, r2 = String c r3 ∧ w = String a (String b (String c "")))))
    as Hshape.
  { intros w rest Hw ->. pose proof (white_length w Hw) as Hlen.
    destruct w as [|a [|b [|c [|d w]]]]; cbn in Hlen; try lia.
    - exists a, rest. split; [done|]. by left.
    - exists a, (String b rest). split; [done|]. right. exists b, rest. split; [done|by left].
    - exists a, (String b (String c rest)). split; [done|]. right.
      exists b, (String c rest). split; [done|]. right. by exists c, rest. }
  destruct s as [|a r1].
  { exists "". split; [done|]. split; [constructor|].
    intros w rest Hw Heq. pose proof (white_length w Hw). destruct w; cbn in *; [lia|done]. }
  destruct (white (String a "")) eqn:H1.
  { apply (Hstep r1 (String a "")); [cbn; lia|done|done|]. cbn [stripStart]. by rewrite H1. }
  destruct r1 as [|b r2].
  { assert (stripStart white (String a "") = String a "") as ->
      by (cbn [stripStart]; by rewrite H1).
    exists "". split; [done|]. split; [constructor|].
    intros w rest Hw Heq. destruct (Hshape w rest Hw Heq) as (a' & r1 & [= <- <-] & Hcase).
    destruct Hcase as [->|(b & r2 & [=] & _)]. congruence. }
  destruct (white (String a (String b ""))) eqn:H2.
  { apply (Hstep r2 (String a (String b ""))); [cbn; lia|done|done|].
    cbn [stripStart]. by rewrite H1, H2. }
  destruct r2 as [|c r3].
  { assert (stripStart white (String a (String b "")) = String a (String b "")) as ->
      by (cbn [stripStart]; by rewrite H1, H2).
    exists "". split; [done|]. split; [constructor|].
    intros w rest Hw Heq. destruct (Hshape w rest Hw Heq) as (a' & r1 & [= <- <-] & Hcase).
    destruct Hcase as [->|(b' & r2 & [= <- <-] & [->|(c & r3 & [=] & _)])]; congruence. }
  destruct (white (String a (String b (String c "")))) eqn:H3.
  { apply (Hstep r3 (String a (String b (String c "")))); [cbn; lia|done|done|].
    cbn [stripStart]. by rewrite H1, H2, H3. }
  assert (stripStart white (String a (String b (String c r3)))
          = String a (String b (String c r3))) as ->
    by (cbn [stripStart]; by rewrite H1, H2, H3).
  exists "". split; [done|]. split; [constructor|].
  intros w rest Hw Heq. destruct (Hshape w rest Hw Heq) as (a' & r1 & [= <- <-] & Hcase).
  destruct Hcase as [->|(b' & r2 & [= <- <-] & [->|(c' & r3' & [= <- <-] & ->)])]; congruence.
Qed.

End Strip.

Lemma blank_stripped s : stripped isWhiteSpace s → blank s.
Proof.
  induction 1 as [|w s Hw _ IH]; [constructor|].
  constructor; [by apply isWhiteSpace_elem|done].
Qed.

Lemma blank_app a b : blank a → blank b → blank (a +:+ b).
Proof.
  induction 1 as [|w s Hw Hs IH]; [done|]. intros Hb.
  rewrite app_assoc. constructor; auto.
Qed.

Lemma blank_reversed s :
  stripped (fun w => isWhiteSpace (reverse w)) s → blank (reverse s).
Proof.
  induction 1 as [|w s Hw _ IH]; [constructor|].
  rewrite reverse_app. apply blank_app; [done|].
  rewrite <- (app_nil_r (reverse w)). constructor; [by apply isWhiteSpace_elem|constructor].
Qed.

(** [trim] takes the white space off both ends, and all of it. *)
Lemma trim_trimmed s : trimmed s (trim s).
Proof.
  unfold trimmed, trim, trimEnd, trimStart.
  destruct (stripStart_spec isWhiteSpace whiteSpace_length s) as (before & Hs & Hbefore & Hstart).
  set (t := stripStart isWhiteSpace s) in *.
  destruct (stripStart_spec (fun w => isWhiteSpace (reverse w))
              ltac:(intros w Hw; rewrite <- length_reverse; by apply whiteSpace_length)
              (reverse t)) as (after & Ht & Hafter & Hend).
  set (u := stripStart _ (reverse t)) in *.
  assert (t = reverse u +:+ reverse after) as Htu.
  { by rewrite <- reverse_app, <- Ht, reverse_involutive. }
  exists before, (reverse after). split; [by rewrite <- Htu|].
  split; [by apply blank_stripped|]. split; [by apply blank_reversed|]. split.
  - intros w rest Hw Heq. apply (Hstart w (rest +:+ reverse after)).
    + by apply isWhiteSpace_elem.
    + by rewrite Htu, Heq, app_assoc.
  - intros w rest Hw Heq. apply (Hend (reverse w) (reverse rest)).
    + rewrite reverse_involutive. by apply isWhiteSpace_elem.
    + by rewrite <- reverse_app, <- Heq, reverse_involutive.
Qed.

(** The field names of the node are the pieces of the parameter between
    the commas, trimmed. *)
Lemma fieldNames_spec (parameter : string) :
  fieldNames parameter (map trim (split "," parameter)).
Proof.
  exists (split "," parameter). split; [apply split_separated|].
  induction (split "," parameter) as [|piece pieces IH]; constructor; [|done].
  apply trim_trimmed.
Qed.

End StringFacts.

(* ===================================================================== *)
(** * The Compression node: the loop over the items *)
(* ===================================================================== *)

Module CompressionLoop.
Import Js N8n Compression Terms.

Section Node.
Variable this : IExecuteFunctions.
Variable lib : Libraries.

(** ** What an item pushes *)

Lemma processItem_pushed i item pushed :
  processItem this lib i item = Ok pushed →
  pushed = []
  ∨ ∃ fields, pushed = [ {| json := json item; binary := Some fields; pairedItem := Some i |} ].
Proof.
  unfold processItem.
  destruct (String.eqb (getNodeParameter this "operation" 0) "decompress") eqn:Hdecompress.
  - apply String.eqb_eq in Hdecompress. rewrite Hdecompress.
    destruct (decompressFields _ _ _ _ _ _) as [st|]; [|discriminate].
    cbn. intros [= <-]. right. by eexists.
  - cbn [rbind].
    destruct (String.eqb (getNodeParameter this "operation" 0) "compress"); [|by left; congruence].
    destruct (compressFields _ _ _ _ _ _) as [st|]; [|discriminate]. cbn [rbind].
    destruct (String.eqb (getNodeParameter this "outputFormat" 0) "zip") eqn:Hzip.
    + apply String.eqb_eq in Hzip. rewrite Hzip.
      destruct (zip lib st.1) as [buffer|]; [|discriminate]. cbn [rbind].
      destruct (prepareBinaryData this _ _) as [data|]; [|discriminate].
      cbn. intros [= <-]. right. by eexists.
    + destruct (String.eqb (getNodeParameter this "outputFormat" 0) "gzip");
        cbn; intros [= <-]; [right; by eexists|by left].
Qed.

Lemma processItem_pushes i item pushed :
  pushesItem this → processItem this lib i item = Ok pushed →
  ∃ fields, pushed = [ {| json := json item; binary := Some fields; pairedItem := Some i |} ].
Proof.
  unfold processItem. intros [Hop|[Hop Hformat]]; rewrite Hop.
  - destruct (decompressFields _ _ _ _ _ _) as [st|]; [|discriminate].
    cbn. intros [= <-]. by eexists.
  - cbn [String.eqb Ascii.eqb Bool.eqb rbind].
    destruct (compressFields _ _ _ _ _ _) as [st|]; [|discriminate]. cbn [rbind].
    destruct Hformat as [-> | ->]; cbn [String.eqb Ascii.eqb Bool.eqb].
    + destruct (zip lib st.1) as [buffer|]; [|discriminate]. cbn [rbind].
      destruct (prepareBinaryData this _ _) as [data|]; [|discriminate].
      cbn. intros [= <-]. by eexists.
    + cbn. intros [= <-]. by eexists.
Qed.

(** ** The loop *)

Lemma settled_shift i (rest : list INodeExecutionData) :
  imap ((fun k => settled this lib (i + k)) ∘ S) rest
  = imap (fun k => settled this lib (S i + k)) rest.
Proof. apply imap_ext. intros k x _. cbn. by rewrite Nat.add_succ_r. Qed.

Lemma executeLoop_returns items : ∀ i returnData outputs,
  executeLoop this lib i items returnData = Ok outputs →
  outputs = (returnData ++ concat (imap (fun k => settled this lib (i + k)) items))%list
  ∧ ∀ k item, items !! k = Some item →
      continueOnFail this = true ∨ succeeds (processItem this lib (i + k) item).
Proof.
  induction items as [|item rest IH]; intros i returnData outputs; cbn [executeLoop].
  - intros [= <-]. split; [by rewrite app_nil_r|]. intros k item Hk. inversion Hk.
  - cbn [imap concat]. unfold settled at 1. rewrite Nat.add_0_r.
    destruct (processItem this lib i item) as [pushed|e] eqn:Hitem.
    + intros Hrun. apply IH in Hrun as [-> Hrest]. split.
      * by rewrite <- app_assoc, settled_shift.
      * intros [|k] item' Hk.
        -- injection Hk as <-. right. rewrite Nat.add_0_r. by eexists.
        -- replace (i + S k) with (S i + k) by lia. by apply Hrest.
    + destruct (continueOnFail this) eqn:Hcontinue; [|discriminate].
      intros Hrun. apply IH in Hrun as [-> Hrest]. split.
      * by rewrite <- app_assoc, settled_shift.
      * intros k item' Hk. by left.
Qed.

Lemma executeLoop_settles items : ∀ i returnData,
  (∀ k item, items !! k = Some item →
     continueOnFail this = true ∨ succeeds (processItem this lib (i + k) item)) →
  executeLoop this lib i items returnData
  = Ok (returnData ++ concat (imap (fun k => settled this lib (i + k)) items))%list.
Proof.
  induction items as [|item rest IH]; intros i returnData Hall; cbn [executeLoop].
  - by rewrite app_nil_r.
  - cbn [imap concat]. unfold settled at 1. rewrite Nat.add_0_r.
    assert (∀ k item', rest !! k = Some item' →
              continueOnFail this = true ∨ succeeds (processItem this lib (S i + k) item'))
      as Hrest.
    { intros k item' Hk. replace (S i + k) with (i + S k) by lia. by apply Hall. }
    destruct (processItem this lib i item) as [pushed|e] eqn:Hitem.
    + by rewrite (IH _ _ Hrest), settled_shift, <- app_assoc.
    + destruct (Hall 0 item eq_refl) as [Hcontinue|[pushed Hok]].
      * by rewrite Hcontinue, (IH _ _ Hrest), settled_shift, <- app_assoc.
      * rewrite Nat.add_0_r in Hok. congruence.
Qed.

Lemma executeLoop_throws items : ∀ i returnData k item e,
  continueOnFail this = false →
  items !! k = Some item →
  processItem this lib (i + k) item = Throw e →
  (∀ j earlier, j < k → items !! j = Some earlier →
     succeeds (processItem this lib (i + j) earlier)) →
  executeLoop this lib i items returnData = Throw e.
Proof.
  induction items as [|first rest IH]; intros i returnData k item e Hstrict Hk Hitem Hearlier.
  - inversion Hk.
  - cbn [executeLoop]. destruct k as [|k].
    + injection Hk as ->. rewrite Nat.add_0_r in Hitem. by rewrite Hitem, Hstrict.
    + destruct (Hearlier 0 first) as [pushed Hfirst]; [lia|done|].
      rewrite Nat.add_0_r in Hfirst. rewrite Hfirst.
      apply (IH (S i) _ k item e); [done|done| |].
      * by replace (S i + k) with (i + S k) by lia.
      * intros j earlier Hj Hin. replace (S i + j) with (i + S j) by lia.
        apply Hearlier; [lia|done].
Qed.

(** The input items the outputs are paired with. *)
Lemma settled_paired i item :
  ∃ indices,
    pairedItem <$> settled this lib i item = Some <$> indices
    ∧ (indices = [] ∨ indices = [i]).
Proof.
  unfold settled. destruct (processItem this lib i item) as [pushed|e] eqn:Hitem.
  - destruct (processItem_pushed _ _ _ Hitem) as [->|[fields ->]].
    + exists []. split; [done|by left].
    + exists [i]. split; [done|by right].
  - exists [i]. split; [done|by right].
Qed.

Lemma increasing_cons n (l : list nat) :
  Forall (fun m => n < m) l → increasing l → increasing (n :: l).
Proof.
  intros Hall Hl [|a] [|b] x y Hab Ha Hb; try lia.
  - injection Ha as <-. rewrite Forall_forall in Hall. apply Hall.
    cbn in Hb. by apply list_elem_of_lookup_2 in Hb.
  - cbn in Ha, Hb. apply (Hl a b); [lia|done|done].
Qed.

Lemma settled_all_paired items : ∀ i,
  ∃ indices,
    pairedItem <$> concat (imap (fun k => settled this lib (i + k)) items) = Some <$> indices
    ∧ increasing indices
    ∧ Forall (fun n => i ≤ n < i + length items) indices.
Proof.
  induction items as [|item rest IH]; intros i.
  - exists []. split; [done|]. split; [|constructor]. intros a b x y _ Ha. inversion Ha.
  - destruct (IH (S i)) as (later & Hlater & Hsorted & Hrange).
    destruct (settled_paired (i + 0) item) as (now_ & Hnow & Hcase).
    exists (now_ ++ later)%list. cbn [imap concat].
    rewrite settled_shift.
    rewrite !fmap_app, Hnow, Hlater. split; [done|].
    assert (Forall (fun n => i ≤ n < i + length (item :: rest)) later) as Hrange'.
    { eapply Forall_impl; [exact Hrange|]. cbn. intros n Hn. lia. }
    destruct Hcase as [-> | ->]; cbn [app]; [by split|].
    rewrite Nat.add_0_r. split.
    + apply increasing_cons; [|done].
      eapply Forall_impl; [exact Hrange|]. cbn. intros n Hn. lia.
    + constructor; [cbn; lia|done].
Qed.

Lemma settled_elem items i output :
  output ∈ concat (imap (fun k => settled this lib (i + k)) items) →
  ∃ k item, items !! k = Some item ∧ output ∈ settled this lib (i + k) item.
Proof.
  intros (pushed & Hpushed & Hin)%list_elem_of_In%in_concat.
  apply list_elem_of_In, elem_of_lookup_imap in Hpushed as (k & item & -> & Hk).
  exists k, item. split; [done|]. by apply list_elem_of_In.
Qed.

Lemma settled_singletons items : ∀ i,
  (∀ k item, items !! k = Some item → ∃ output, settled this lib (i + k) item = [output]) →
  length (concat (imap (fun k => settled this lib (i + k)) items)) = length items
  ∧ ∀ k item, items !! k = Some item →
      concat (imap (fun k => settled this lib (i + k)) items) !! k
      = head (settled this lib (i + k) item).
Proof.
  induction items as [|first rest IH]; intros i Hall.
  - split; [done|]. intros k item Hk. inversion Hk.
  - cbn [imap concat]. rewrite settled_shift.
    destruct (Hall 0 first eq_refl) as [output Hfirst].
    destruct (IH (S i)) as [Hlength Hlookup].
    { intros k item Hk. replace (S i + k) with (i + S k) by lia. by apply Hall. }
    rewrite Hfirst. cbn [app length]. split; [by rewrite Hlength|].
    intros [|k] item Hk.
    + injection Hk as <-. by rewrite Hfirst.
    + cbn. replace (i + S k) with (S i + k) by lia. by apply Hlookup.
Qed.

(** An operation that pushes an item gives one output per input item,
    at its position. *)
Lemma execute_positions returnData :
  pushesItem this →
  execute this lib = Ok [returnData] →
  length returnData = length (getInputData this)
  ∧ ∀ i item, getInputData this !! i = Some item →
      match processItem this lib i item with
      | Ok pushed => pushed = option_list (returnData !! i) ∧ is_Some (returnData !! i)
      | Throw e => continueOnFail this = true ∧ returnData !! i = Some (errorItem i e)
      end.
Proof.
  intros Hpushes. unfold execute.
  destruct (executeLoop this lib 0 (getInputData this) []) as [outputs|] eqn:Hloop;
    [|discriminate].
  cbn [rbind]. intros [= ->].
  apply executeLoop_returns in Hloop as [-> Hall]. cbn [app].
  destruct (settled_singletons (getInputData this) 0) as [Hlength Hlookup].
  { intros k item Hk. unfold settled. cbn [Nat.add].
    destruct (processItem this lib k item) as [pushed|e] eqn:Hitem; [|by eexists].
    destruct (processItem_pushes _ _ _ Hpushes Hitem) as [fields ->]. by eexists. }
  split; [done|]. intros i item Hi. rewrite (Hlookup i item Hi). cbn [Nat.add].
  unfold settled.
  destruct (processItem this lib i item) as [pushed|e] eqn:Hitem.
  - destruct (processItem_pushes _ _ _ Hpushes Hitem) as [fields ->]. cbn. split; [done|by eexists].
  - destruct (Hall i item Hi) as [Hcontinue|[pushed Hok]]; [done|].
    cbn [Nat.add] in Hok. congruence.
Qed.

End Node.

End CompressionLoop.

(* ===================================================================== *)
(** * Properties of findPinnedTrigger *)
(* ===================================================================== *)

Module PinnedTrigger.
Import Js N8n WorkflowService Terms.

Lemma hasTruthy_spec {V} (o : gmap string V) key :
  hasTruthy o key = true ↔ is_Some (o !! key) ∨ key ∈ inheritedNames.
Proof.
  unfold hasTruthy. by rewrite orb_true_iff, !bool_decide_eq_true.
Qed.

Lemma isPinnedTrigger_eligible env pinData node :
  isPinnedTrigger env pinData node = true ↔ eligible env pinData node.
Proof.
  unfold isPinnedTrigger, eligible, isTrigger. cbn [existsb].
  rewrite !andb_true_iff, negb_true_iff, hasTruthy_spec, orb_false_r, orb_true_iff.
  destruct (nodeDisabled node) as [[]|]; cbn; intuition congruence.
Qed.

(** The head of a filtered list is the first element that passes. *)
Lemma filter_head_first {A} (p : A -> bool) (l : list A) x rest :
  List.filter p l = x :: rest →
  ∃ before after, l = (before ++ x :: after)%list
                  ∧ p x = true ∧ ∀ y, y ∈ before → p y = false.
Proof.
  induction l as [|a l IH]; cbn; [discriminate|].
  destruct (p a) eqn:Ha.
  - intros [= -> _]. exists [], l. split; [done|]. split; [done|].
    intros y Hy. inversion Hy.
  - intros Hf. destruct (IH Hf) as (before & after & -> & Hx & Hb).
    exists (a :: before), after. split; [done|]. split; [done|].
    intros y [->|Hy]%elem_of_cons; auto.
Qed.

Lemma filter_nil_none {A} (p : A -> bool) (l : list A) :
  List.filter p l = [] → ∀ y, y ∈ l → p y = false.
Proof.
  induction l as [|a l IH]; cbn.
  - intros _ y Hy. inversion Hy.
  - destruct (p a) eqn:Ha; [discriminate|].
    intros Hf y [->|Hy]%elem_of_cons; auto.
Qed.

Lemma find_in_filter {A} (q p : A -> bool) (l : list A) x :
  List.find q (List.filter p l) = Some x → x ∈ l ∧ p x = true.
Proof.
  intros Hf. apply find_some in Hf as [Hin _].
  apply filter_In in Hin as [Hin Hp]. split; [|done].
  by apply list_elem_of_In.
Qed.

(** The node returned, if any, is one of the workflow's nodes that the
    filter lets through. *)
Lemma findPinnedTrigger_sound env workflow startNodes pinData node :
  findPinnedTrigger env workflow startNodes pinData = Some node →
  ∃ p, pinData = Some p ∧ node ∈ nodes workflow ∧ isPinnedTrigger env p node = true.
Proof.
  unfold findPinnedTrigger.
  destruct pinData as [p|]; [|discriminate].
  destruct startNodes as [startNodes|]; [|discriminate].
  destruct (List.filter (isPinnedTrigger env p) (nodes workflow)) as [|firstPinned rest] eqn:Hf;
    [discriminate|].
  intros Hret. exists p. split; [done|].
  destruct startNodes as [|startNodeName others].
  - injection Hret as <-.
    assert (In firstPinned (List.filter (isPinnedTrigger env p) (nodes workflow))) as Hin
      by (rewrite Hf; left; done).
    apply filter_In in Hin as [Hin Hp]. split; [by apply list_elem_of_In|done].
  - rewrite <- Hf in Hret.
    destruct (match getParentNodes env (nodes workflow) (connections workflow) startNodeName with
              | [] => Some startNodeName
              | _ :: _ =>
                  List.find (fun pn => String.eqb pn (nodeName firstPinned))
                    (getParentNodes env (nodes workflow) (connections workflow) startNodeName)
              end) as [checkNodeName|]; [|discriminate].
    by apply find_in_filter in Hret.
Qed.

(** What [findPinnedTrigger] does, the filter taken as it is written:
    it returns [null] whenever [pinData] or [startNodes] is undefined; a
    node it returns is a node of the workflow that is not disabled, under
    whose name [pinData] holds an entry of its own or an inherited
    property, and whose type name in lower case contains "trigger" or
    "webhook"; and with an empty [startNodes] it returns the first such
    node in the workflow's node order ([null] if there is none). *)
Lemma findPinnedTrigger_filtered env (workflow : IWorkflowDb)
    (startNodes : option (list string)) (pinData : option IPinData) :
  (pinData = None ∨ startNodes = None →
     findPinnedTrigger env workflow startNodes pinData = None)
  ∧ (∀ node, findPinnedTrigger env workflow startNodes pinData = Some node →
       ∃ p, pinData = Some p ∧ node ∈ nodes workflow ∧ eligible env p node)
  ∧ (∀ p, pinData = Some p → startNodes = Some [] →
       match findPinnedTrigger env workflow startNodes pinData with
       | Some node =>
           ∃ before after, nodes workflow = (before ++ node :: after)%list
             ∧ eligible env p node ∧ ∀ earlier, earlier ∈ before → ¬ eligible env p earlier
       | None => ∀ other, other ∈ nodes workflow → ¬ eligible env p other
       end).
Proof.
  split; [|split].
  - intros [-> | ->]; unfold findPinnedTrigger; [done|by destruct pinData].
  - intros node Hret.
    destruct (findPinnedTrigger_sound _ _ _ _ _ Hret) as (p & -> & Hin & Hp).
    exists p. by rewrite <- isPinnedTrigger_eligible.
  - intros p -> ->. unfold findPinnedTrigger.
    destruct (List.filter (isPinnedTrigger env p) (nodes workflow))
      as [|firstPinned rest] eqn:Hf.
    + intros other Hin Hel. apply isPinnedTrigger_eligible in Hel.
      by rewrite (filter_nil_none _ _ Hf other Hin) in Hel.
    + destruct (filter_head_first _ _ _ _ Hf) as (before & after & Hnodes & Hp & Hb).
      exists before, after. split; [done|]. split; [by apply isPinnedTrigger_eligible|].
      intros earlier Hin Hel. apply isPinnedTrigger_eligible in Hel.
      by rewrite (Hb earlier Hin) in Hel.
Qed.

(** C8. The code at an input where it departs from the claim: a workflow
    whose one node, an enabled webhook node, is named "constructor", run
    with an empty [startNodes] and a [pinData] that has no entry at all.
    [findPinnedTrigger] returns that node, although [pinData] has no
    entry under its name: the test [pinData[node.name]] of the filter
    finds the [constructor] that every object inherits. This is so for
    every engine whose [toLowerCase] leaves the node's type name, which is
    in lower case, as it is. *)
Theorem findPinnedTrigger_inherited_name env :
  toLowerCase (engine env) (nodeType constructorNode) = nodeType constructorNode →
  findPinnedTrigger env constructorWorkflow (Some []) (Some ∅) = Some constructorNode
  ∧ (∅ : IPinData) !! nodeName constructorNode = None
  ∧ nodeDisabled constructorNode = None.
Proof.
  intros Hlower. split; [|done].
  unfold findPinnedTrigger, constructorWorkflow, nodes. cbn [List.filter].
  unfold isPinnedTrigger, isTrigger. cbn [existsb]. rewrite Hlower.
  vm_compute. reflexivity.
Qed.

Lemma findPinnedTrigger_inherited_name_witness :
  findPinnedTrigger quietEnv constructorWorkflow (Some []) (Some ∅) = Some constructorNode.
Proof.
  refine (proj1 (findPinnedTrigger_inherited_name quietEnv _)).
  vm_compute. reflexivity.
Defined.

(** A webhook node pinned under its name is found; disabled, it is not. *)
Example findPinnedTrigger_sample :
  let webhook disabled :=
    {| nodeId := None; nodeName := "On order"; nodeType := "n8n-nodes-base.Webhook";
       nodeDisabled := disabled; nodeCredentials := ∅ |} in
  let code :=
    {| nodeId := None; nodeName := "Code"; nodeType := "n8n-nodes-base.code";
       nodeDisabled := None; nodeCredentials := ∅ |} in
  let pinData : IPinData := <["On order" := []]> {["Code" := []]} in
  let workflow disabled :=
    {| nodes := [code; webhook disabled]; connections := ∅; active := false |} in
  findPinnedTrigger quietEnv (workflow None) (Some []) (Some pinData) = Some (webhook None)
  ∧ findPinnedTrigger quietEnv (workflow (Some true)) (Some []) (Some pinData) = None
  ∧ findPinnedTrigger quietEnv (workflow None) None (Some pinData) = None.
Proof. intros webhook code pinData workflow. repeat split; vm_compute; reflexivity. Qed.

End PinnedTrigger.

(* ===================================================================== *)
(** * Properties of the migration *)
(* ===================================================================== *)

Module MigrationProofs.
Import Js Migration Terms.

Lemma bytes_app l1 l2 : bytes (l1 ++ l2) = bytes l1 +:+ bytes l2.
Proof.
  induction l1 as [|n l1 IH]; [done|].
  change (bytes ((n :: l1) ++ l2)) with (String (ascii_of_nat n) (bytes (l1 ++ l2))).
  by rewrite IH.
Qed.

Lemma codes_app a b : codes (a +:+ b) = (codes a ++ codes b)%list.
Proof.
  unfold codes. induction a as [|c a IH]; [done|].
  rewrite StringFacts.app_cons. cbn [list_ascii_of_string map app]. by rewrite IH.
Qed.

Lemma folded_app a b : folded (a +:+ b) = folded a +:+ folded b.
Proof. unfold folded. by rewrite codes_app, map_app, bytes_app. Qed.

Lemma identifierPart_no_quote n : identifierPart n = true → (n =? 34)%nat = false.
Proof.
  intros Hn. destruct (Nat.eqb_spec n 34) as [->|]; [|done]. by vm_compute in Hn.
Qed.

(** A prefix made of identifier characters, put before the rest of an
    identifier that ends as no keyword does, gives an identifier. *)
Lemma isIdentifier_app prefix rest :
  forallb identifierPart (codes prefix) = true →
  match codes prefix with [] => true | first :: _ => identifierStart first end = true →
  isIdentifier rest = true →
  forallb (fun keyword =>
             negb (String.prefix (reverse (folded rest)) (reverse keyword))) keywords
  = true →
  isIdentifier (prefix +:+ rest) = true.
Proof.
  intros Hparts Hstart Hrest Hkeywords. unfold isIdentifier in *.
  apply andb_true_iff in Hrest as [Hshape _]. apply andb_true_iff. split.
  - rewrite codes_app. destruct (codes prefix) as [|first others].
    + exact Hshape.
    + cbn [app]. cbn [forallb] in Hparts. apply andb_true_iff in Hparts as [_ Hothers].
      rewrite Hstart, forallb_app, Hothers. cbn [andb].
      destruct (codes rest) as [|n ns]; [done|].
      apply andb_true_iff in Hshape as [Hn Hns]. cbn [forallb].
      rewrite Hns, andb_true_r. unfold identifierPart. by rewrite Hn.
  - apply negb_true_iff, not_true_iff_false. intros (keyword & Hin & Heq)%existsb_exists.
    apply String.eqb_eq in Heq. rewrite forallb_forall in Hkeywords.
    specialize (Hkeywords keyword Hin). apply negb_true_iff in Hkeywords.
    rewrite <- Heq, folded_app, StringFacts.reverse_app in Hkeywords.
    assert (String.prefix (reverse (folded rest))
              (reverse (folded rest) +:+ reverse (folded prefix)) = true) as Hprefix
      by (apply StringFacts.prefix_app; by eexists).
    congruence.
Qed.

(** With a plain prefix the statements of the migration say what they
    are meant to say. *)
Lemma up_statement_plain tablePrefix :
  plainPrefix tablePrefix = true →
  plain (CREATE_TABLE (Quoted (tablePrefix +:+ "execution_metadata"))
           (execution_metadata tablePrefix)) = true
  ∧ plain (DROP_TABLE (Quoted (tablePrefix +:+ "execution_metadata"))) = true.
Proof.
  unfold plainPrefix. rewrite !andb_true_iff. intros [[Hparts Hstart] Hreserved].
  assert (plainName (Quoted (tablePrefix +:+ "execution_metadata")) = true) as Hquoted.
  { cbn [plainName]. rewrite codes_app, forallb_app. apply andb_true_iff. split; [|done].
    apply forallb_forall. intros n Hn. rewrite forallb_forall in Hparts.
    by rewrite (identifierPart_no_quote n (Hparts n Hn)). }
  split; [|exact Hquoted].
  cbn [plain spelling]. rewrite Hquoted, Hreserved. cbn [andb].
  unfold execution_metadata. cbn [columns foreignKeys forallb constraintName fkColumn
    referencedTable referencedColumn columnName plainName].
  rewrite (isIdentifier_app tablePrefix "execution_metadata_entity_FK") by done.
  rewrite (isIdentifier_app tablePrefix "execution_entity") by done.
  vm_compute. reflexivity.
Qed.

Section QueryRunner.
Variable misread : Statement → Database → result Database.

Lemma up_fresh tablePrefix db :
  plainPrefix tablePrefix = true →
  existsb (named (tablePrefix +:+ "execution_metadata")) (schema db) = false →
  up misread tablePrefix db
  = Ok {| schema := (schema db ++ [(tablePrefix +:+ "execution_metadata",
                                    execution_metadata tablePrefix)])%list;
          migrationLog := (migrationLog db ++ [MigrationStart name; MigrationEnd name])%list |}.
Proof.
  intros [Hplain _]%up_statement_plain Hfresh.
  unfold up, up_statements, queries, query. rewrite Hplain.
  unfold logMigrationStart, logMigrationEnd. cbn [schema migrationLog spelling rbind].
  rewrite Hfresh. cbn [rbind schema migrationLog]. by rewrite <- app_assoc.
Qed.

Lemma up_taken tablePrefix db :
  plainPrefix tablePrefix = true →
  existsb (named (tablePrefix +:+ "execution_metadata")) (schema db) = true →
  ∃ e, up misread tablePrefix db = Throw e.
Proof.
  intros [Hplain _]%up_statement_plain Htaken.
  unfold up, up_statements, queries, query. rewrite Hplain.
  unfold logMigrationStart. cbn [schema migrationLog spelling rbind].
  rewrite Htaken. cbn [rbind]. eauto.
Qed.

Lemma down_spec tablePrefix db :
  plainPrefix tablePrefix = true →
  down misread tablePrefix db
  = if existsb (named (tablePrefix +:+ "execution_metadata")) (schema db) then
      Ok {| schema :=
              List.filter
                (fun entry => negb (named (tablePrefix +:+ "execution_metadata") entry))
                (schema db);
            migrationLog := migrationLog db |}
    else
      Throw (Error "QueryFailedError"
               ("no such table: " +:+ tablePrefix +:+ "execution_metadata") None None).
Proof.
  intros [_ Hplain]%up_statement_plain.
  unfold down, down_statements, queries, query. rewrite Hplain. cbn [spelling].
  by destruct (existsb _ (schema db)).
Qed.

Lemma named_refl name entry : named name (name, entry) = true.
Proof. unfold named. apply String.eqb_refl. Qed.

Lemma filter_unnamed name (tables : list (string * Table)) :
  existsb (named name) tables = false →
  List.filter (fun entry => negb (named name entry)) tables = tables.
Proof.
  induction tables as [|entry tables IH]; [done|]. cbn [existsb List.filter].
  intros [Hentry Hrest]%orb_false_iff. by rewrite Hentry, IH.
Qed.

(** C6, for the table prefixes with which SQLite reads the statement of
    [up] as it is meant. [up] sends one statement, which creates the table
    named [tablePrefix + 'execution_metadata'] with the columns [id]
    (integer primary key autoincrement), [executionId] (integer, not
    null), [key] (text) and [value] (text) and a foreign key from
    [executionId] to [id] of the prefixed [execution_entity] table with
    ON DELETE CASCADE; [down] sends one statement, which drops that table.
    With a prefix made of letters, digits, underscores, dollar signs and
    non-ASCII characters that begins with neither a digit nor a dollar
    sign, and a table name that does not begin with [sqlite_], on a
    database that has no table of that name [up] adds exactly this table
    and leaves every other table as it was, and [down] run after it gives
    back the schema from before [up]. *)
Theorem migration_up_down tablePrefix db
    (Hprefix : plainPrefix tablePrefix = true)
    (Hfresh : existsb (named (tablePrefix +:+ "execution_metadata")) (schema db) = false) :
  let created := tablePrefix +:+ "execution_metadata" in
  (∃ t, up_statements tablePrefix = [CREATE_TABLE (Quoted created) t]
        ∧ columns t =
            [ {| columnName := Bare "id"; columnType := INTEGER; primaryKey := true;
                 autoincrement := true; notNull := false |};
              {| columnName := Bare "executionId"; columnType := INTEGER;
                 primaryKey := false; autoincrement := false; notNull := true |};
              {| columnName := Quoted "key"; columnType := TEXT; primaryKey := false;
                 autoincrement := false; notNull := false |};
              {| columnName := Bare "value"; columnType := TEXT; primaryKey := false;
                 autoincrement := false; notNull := false |} ]
        ∧ (∃ fkName,
             foreignKeys t =
               [ {| constraintName := fkName; fkColumn := Bare "executionId";
                    referencedTable := Bare (tablePrefix +:+ "execution_entity");
                    referencedColumn := Bare "id"; onDelete := CASCADE |} ])
        ∧ ∃ db', up misread tablePrefix db = Ok db'
                 ∧ schema db' = (schema db ++ [(created, t)])%list
                 ∧ ∃ db'', down misread tablePrefix db' = Ok db'' ∧ schema db'' = schema db)
  ∧ down_statements tablePrefix = [DROP_TABLE (Quoted created)].
Proof.
  intros created. split; [|done].
  exists (execution_metadata tablePrefix). split; [done|]. split; [done|].
  split; [by eexists|].
  eexists. split; [by apply up_fresh|]. cbn [schema]. split; [done|].
  rewrite down_spec by done. cbn [schema migrationLog].
  rewrite existsb_app. cbn [existsb]. rewrite named_refl, orb_true_r.
  eexists. split; [done|]. cbn [schema].
  rewrite List.filter_app, filter_unnamed by done.
  cbn [List.filter]. rewrite named_refl. cbn [negb]. by rewrite app_nil_r.
Qed.

End QueryRunner.

(** The property at the empty schema with the prefix [n8n_]. *)
Lemma migration_up_down_witness :
  ∃ db', up rejected "n8n_" emptyDatabase = Ok db'
         ∧ ∃ db'', down rejected "n8n_" db' = Ok db'' ∧ schema db'' = schema emptyDatabase.
Proof.
  destruct (migration_up_down rejected "n8n_" emptyDatabase eq_refl eq_refl)
    as [(t & _ & _ & _ & H) _].
  destruct H as (db' & Hup & _ & Hdown). exists db'. split; [exact Hup|exact Hdown].
Defined.

(** C6 as it is stated does not hold for every table prefix, nor on
    every database. The prefix goes into the constraint's name and into
    the name of the referenced table without quotes, so that with the
    prefix [n8n-] the text is no statement that creates a table: SQLite
    rejecting it, [up] throws on the empty database, where no table is in
    the way, and creates nothing. And with the prefix [n8n_], on a
    database that has the table already, [up] throws and creates
    nothing. *)
Lemma migration_up_down_counterexample :
  existsb (named ("n8n-" +:+ "execution_metadata")) (schema emptyDatabase) = false
  ∧ Forall (fun st => plain st = false) (up_statements "n8n-")
  ∧ up rejected "n8n-" emptyDatabase = Throw syntaxError
  ∧ plainPrefix "n8n_" = true
  ∧ up rejected "n8n_"
      {| schema := [("n8n_execution_metadata", execution_metadata "n8n_")];
         migrationLog := [] |}
    = Throw (Error "QueryFailedError" "table n8n_execution_metadata already exists"
               None None).
Proof.
  split; [reflexivity|]. split; [repeat constructor|].
  split; [vm_compute; reflexivity|]. split; vm_compute; reflexivity.
Qed.

End MigrationProofs.

(* ===================================================================== *)
(** * Properties of the workflow service *)
(* ===================================================================== *)

Module ServiceProofs.
Import Js N8n WorkflowService Terms.

(** ** saveStaticData *)

(** C7. [saveStaticData] sends the static data to the workflow
    repository exactly when [staticData.__dataChanged] is strictly [true]
    and the workflow id is valid. When that write succeeds the flag
    [__dataChanged] is set to [false]; when it throws, the error is
    reported and logged, nothing is thrown to the caller and the
    workflow object, with its flag, is left as it was. In every other
    case nothing happens at all. *)
Theorem saveStaticData_spec env (workflow : Workflow) (w : World) :
  let changed := strictlyTrue (default VUndefined (staticData workflow !! "__dataChanged")) in
  let written := {[ "staticData" := FObject (staticData workflow) ]} : WorkflowEntity in
  if changed && isWorkflowIdValid env (id workflow) then
    match repositoryUpdateThrows env (id workflow) written with
    | None =>
        saveStaticData env workflow w
        = (Ok {| id := id workflow;
                 staticData := <["__dataChanged" := VBool false]> (staticData workflow) |},
           set_workflowRepository
             (alter (fun stored => written ∪ stored) (id workflow) (workflowRepository w))
             (set_trace (trace w ++ [WorkflowRepoUpdate (id workflow) written]) w))
    | Some e =>
        ∃ message,
          saveStaticData env workflow w
          = (Ok workflow,
             set_trace
               (trace w ++ [ WorkflowRepoUpdate (id workflow) written;
                             ErrorReporterError e; LoggerError message ]) w)
          ∧ staticData workflow !! "__dataChanged" = Some (VBool true)
    end
  else saveStaticData env workflow w = (Ok workflow, w).
Proof.
  intros changed written. unfold saveStaticData. fold changed.
  destruct changed eqn:Hchanged; [|done]. cbn [andb].
  destruct (isWorkflowIdValid env (id workflow)); [|done].
  unfold try_catch, saveStaticDataById, workflowRepository_update, bind, emit, modify,
    ret, throw. cbn [fst snd]. fold written.
  destruct (repositoryUpdateThrows env (id workflow) written) as [e|]; [|done].
  eexists. split.
  - cbn. rewrite <- !app_assoc. reflexivity.
  - subst changed.
    destruct (staticData workflow !! "__dataChanged") as [[| |[]| |]|]; done.
Qed.

Example saveStaticData_sample :
  (saveStaticData quietEnv changedStaticData sampleWorld).1
  = Ok {| id := "wf1";
          staticData := <["__dataChanged" := VBool false]> {["lastId" := VNum 7]} |}
  ∧ (workflowRepository (saveStaticData quietEnv changedStaticData sampleWorld).2 !! "wf1")
    ≫= (.!! "staticData")
    = Some (FObject (staticData changedStaticData)).
Proof. split; vm_compute; reflexivity. Qed.

Example saveStaticData_failing_sample :
  (saveStaticData (withFailingWrites quietEnv) changedStaticData sampleWorld).1
  = Ok changedStaticData
  ∧ workflowRepository
      (saveStaticData (withFailingWrites quietEnv) changedStaticData sampleWorld).2
    = workflowRepository sampleWorld
  ∧ (trace (saveStaticData (withFailingWrites quietEnv) changedStaticData sampleWorld).2)
    !! 1 = Some (ErrorReporterError databaseDown).
Proof. repeat split; vm_compute; reflexivity. Qed.

(** ** delete *)

Lemma find_none_of_all_false {A} (p : A -> bool) (l : list A) :
  (∀ x, x ∈ l → p x = false) → List.find p l = None.
Proof.
  induction l as [|a l IH]; cbn; [done|].
  intros Hall. rewrite (Hall a) by by left.
  apply IH. intros x Hx. apply Hall. by right.
Qed.

(** C9, for a pre-hook that does not throw. When the [workflow.delete]
    pre-hook has run without throwing and no row of the shared-workflow
    table gives the user delete access to the workflow, [delete] returns
    [undefined] and does not throw; the workflow repository, the stored
    binary data, the executions, the tag mappings and the active workflows
    are as before, and the only calls made are the pre-hook and the
    look-up of the shared workflow. *)
Theorem delete_without_access env (user : User) (workflowId : string) (w : World)
    (Hhook : externalHookThrows env "workflow.delete" = None)
    (Hnone : ∀ row, row ∈ sharedWorkflowRepository w →
               whereClause env user "workflow:delete" workflowId (Some ["owner"]) row = false) :
  WorkflowService.delete env user workflowId w
  = (Ok None,
     set_trace (trace w ++ [ ExternalHook "workflow.delete";
                             SharedWorkflowFindOne "workflow:delete" workflowId ]) w).
Proof.
  unfold WorkflowService.delete, externalHooks_run, sharedWorkflowRepository_findOne,
    bind, emit, modify, gets, ret.
  cbn [fst snd]. rewrite Hhook. cbn.
  rewrite (find_none_of_all_false _ _ Hnone). rewrite <- app_assoc. reflexivity.
Qed.

(** The property for bob, who has no share in [wf1]. *)
Lemma delete_without_access_witness :
  WorkflowService.delete quietEnv bob "wf1" sampleWorld
  = (Ok None,
     set_trace [ ExternalHook "workflow.delete";
                 SharedWorkflowFindOne "workflow:delete" "wf1" ] sampleWorld).
Proof.
  apply (delete_without_access quietEnv bob "wf1" sampleWorld); [reflexivity|].
  intros row Hrow. apply list_elem_of_singleton in Hrow. subst row. reflexivity.
Defined.

(** C9 as it is stated does not hold: bob has no share in [wf1], and
    with a [workflow.delete] hook that throws, his call of [delete] throws
    the hook's error instead of returning [undefined]. *)
Lemma delete_without_access_counterexample :
  List.find (whereClause (vetoing quietEnv) bob "workflow:delete" "wf1" (Some ["owner"]))
    (sharedWorkflowRepository sampleWorld) = None
  ∧ (WorkflowService.delete (vetoing quietEnv) bob "wf1" sampleWorld).1 = Throw vetoError
  ∧ (WorkflowService.delete (vetoing quietEnv) bob "wf1" sampleWorld).1 ≠ Ok None.
Proof.
  split; [reflexivity|].
  assert ((WorkflowService.delete (vetoing quietEnv) bob "wf1" sampleWorld).1
          = Throw vetoError) as Hthrown by reflexivity.
  split; [done|]. rewrite Hthrown. discriminate.
Qed.

(** ** update: the two checks *)

Lemma findOne_found scope workflowId where_ (w : World) row stored :
  List.find where_ (sharedWorkflowRepository w) = Some row →
  workflowRepository w !! rowWorkflowId row = Some stored →
  sharedWorkflowRepository_findOne scope workflowId where_ w
  = (Ok (Some {| sharedRow := row; sharedWorkflow_workflow := stored |}),
     set_trace (trace w ++ [SharedWorkflowFindOne scope workflowId]) w).
Proof.
  intros Hrow Hstored.
  unfold sharedWorkflowRepository_findOne, bind, emit, modify, gets. cbn.
  by rewrite Hrow, Hstored.
Qed.

Lemma findOne_missing scope workflowId where_ (w : World) :
  (∀ row, row ∈ sharedWorkflowRepository w → where_ row = false) →
  sharedWorkflowRepository_findOne scope workflowId where_ w
  = (Ok None, set_trace (trace w ++ [SharedWorkflowFindOne scope workflowId]) w).
Proof.
  intros Hnone.
  unfold sharedWorkflowRepository_findOne, bind, emit, modify, gets. cbn.
  by rewrite (find_none_of_all_false _ _ Hnone).
Qed.

(** A non-empty incoming [versionId] other than the stored one is a
    conflict unless the save is forced. *)
Lemma versionConflict_stale forceSave (workflow stored : WorkflowEntity) v :
  forceSave ≠ Some true →
  workflow !! "versionId" = Some (FValue (VStr v)) →
  v ≠ "" →
  stored !! "versionId" ≠ Some (FValue (VStr v)) →
  versionConflict forceSave workflow stored = true.
Proof.
  intros Hforce Hv Hne Hstored. unfold versionConflict. rewrite Hv.
  assert (default false forceSave = false) as -> by by destruct forceSave as [[]|].
  cbn [negb andb strictNe value_eqb].
  apply String.eqb_neq in Hne. rewrite Hne. cbn [negb andb].
  destruct (stored !! "versionId") as [[[]| | | | | |]|]; try done.
  cbn. apply negb_true_iff, String.eqb_neq. congruence.
Qed.

(** ** update: the blocks after the checks *)

Section Blocks.
Variable env : Env.

Lemma assignVersionId_spec user (workflow : WorkflowEntity) workflowId (w : World) :
  ∃ evs,
    trace (assignVersionId env user workflow workflowId w).2 = (trace w ++ evs)%list
    ∧ (assignVersionId env user workflow workflowId w).1
      = Ok (versioned env (uuidCount w) workflow)
    ∧ steps evs = []
    ∧ versioning evs
      = (if changesVersion workflow then [UuidV4 (uuid env (uuidCount w))] else [])
    ∧ stores (assignVersionId env user workflow workflowId w).2 = stores w.
Proof.
  unfold assignVersionId, versioned. destruct (changesVersion workflow); run_calls.
  - eexists. split; [trace_grows|]. done.
  - exists []. by rewrite app_nil_r.
Qed.

Lemma beforeSave_spec (workflow : WorkflowEntity) workflowId (stored : WorkflowEntity)
    (w : World) :
  ∃ evs,
    trace (beforeSave env workflow workflowId stored w).2 = (trace w ++ evs)%list
    ∧ versioning evs = []
    ∧ stores (beforeSave env workflow workflowId stored w).2 = stores w
    ∧ match externalHookThrows env "workflow.update" with
      | Some e => (beforeSave env workflow workflowId stored w).1 = Throw e ∧ steps evs = []
      | None =>
          (beforeSave env workflow workflowId stored w).1
          = Ok (onNodes (addNodeIds env) (onNodes (replaceInvalidCredentials env) workflow))
          ∧ steps evs = (if truthy (stored !! "active") then [RegistryRemoval] else [])
      end.
Proof.
  unfold beforeSave. run_calls.
  destruct (externalHookThrows env "workflow.update"); run_calls.
  - eexists. split; [trace_grows|]. done.
  - destruct (truthy (stored !! "active")); run_calls;
      (eexists; split; [trace_grows|]; done).
Qed.

Lemma save_spec (workflow : WorkflowEntity) workflowId (w : World) :
  ∃ evs,
    trace (save env workflow workflowId w).2 = (trace w ++ evs)%list
    ∧ versioning evs = []
    ∧ workflowTagMappingRepository (save env workflow workflowId w).2
      = workflowTagMappingRepository w
    ∧ tagRepository (save env workflow workflowId w).2 = tagRepository w
    ∧ updatedWorkflow (save env workflow workflowId w).2 = updatedWorkflow w
    ∧ match saveError env workflowId workflow with
      | Some e =>
          (save env workflow workflowId w).1 = Throw e
          ∧ steps evs `prefix_of` [Persistence]
          ∧ workflowRepository (save env workflow workflowId w).2 = workflowRepository w
      | None =>
          (save env workflow workflowId w).1 = Ok (finalised env workflow)
          ∧ steps evs = [Persistence]
          ∧ workflowRepository (save env workflow workflowId w).2
            = alter (fun entity => pick (finalised env workflow) persistedKeys ∪ entity)
                workflowId (workflowRepository w)
          ∧ WorkflowRepoUpdate workflowId (pick (finalised env workflow) persistedKeys) ∈ evs
      end.
Proof.
  unfold save, saveError, finalised.
  destruct (truthy (withCleanSettings env workflow !! "name")); run_calls.
  - destruct (validateEntityThrows env _); run_calls.
    { eexists. split; [trace_grows|]. do 4 (split; [done|]).
      split; [done|]. split; [by exists [Persistence]|done]. }
    destruct (repositoryUpdateThrows env workflowId _); run_calls.
    { eexists. split; [trace_grows|]. do 4 (split; [done|]).
      split; [done|]. split; [by exists []|done]. }
    eexists. split; [trace_grows|]. repeat (split; [done|]).
    cbn [app]. rewrite !elem_of_cons. auto.
  - destruct (repositoryUpdateThrows env workflowId _); run_calls.
    { eexists. split; [trace_grows|]. do 4 (split; [done|]).
      split; [done|]. split; [by exists []|done]. }
    eexists. split; [trace_grows|]. repeat (split; [done|]).
    cbn [app]. rewrite !elem_of_cons. auto.
Qed.

Lemma tagsAndHistory_spec user (workflow : WorkflowEntity) workflowId tagIds
    (stored : WorkflowEntity) (w : World) :
  ∃ evs,
    trace (tagsAndHistory env user workflow workflowId tagIds stored w).2
    = (trace w ++ evs)%list
    ∧ steps evs = []
    ∧ workflowRepository (tagsAndHistory env user workflow workflowId tagIds stored w).2
      = workflowRepository w
    ∧ tagRepository (tagsAndHistory env user workflow workflowId tagIds stored w).2
      = tagRepository w
    ∧ updatedWorkflow (tagsAndHistory env user workflow workflowId tagIds stored w).2
      = updatedWorkflow w
    ∧ match tagsError env workflowId tagIds with
      | Some e =>
          (tagsAndHistory env user workflow workflowId tagIds stored w).1 = Throw e
          ∧ versioning evs = []
      | None =>
          workflowTagMappingRepository
            (tagsAndHistory env user workflow workflowId tagIds stored w).2
          = match tagIds with
            | Some tagIds =>
                if workflowTagsDisabled env then workflowTagMappingRepository w
                else retagged workflowId tagIds (workflowTagMappingRepository w)
            | None => workflowTagMappingRepository w
            end
          ∧ versioning evs
            = (if strictNe (workflow !! "versionId") (stored !! "versionId")
               then [HistorySaveVersion user workflow workflowId] else [])
          ∧ (tagsAndHistory env user workflow workflowId tagIds stored w).1
            = match historyError env user workflow workflowId stored with
              | Some e => Throw e
              | None => Ok tt
              end
      end.
Proof.
  unfold tagsAndHistory, tagsError, historyError, retagged.
  destruct tagIds as [tagIds|]; [destruct (workflowTagsDisabled env)|]; run_calls.
  2: { destruct (rejects env (TagMappingDelete workflowId)); run_calls.
       { eexists. split; [trace_grows|]. done. }
       destruct (rejects env (TagMappingInsert workflowId tagIds)); run_calls.
       { eexists. split; [trace_grows|]. done. }
       destruct (strictNe _ _); run_calls;
         [destruct (rejects env (HistorySaveVersion _ _ _)); run_calls|];
         (eexists; split; [trace_grows|]; done). }
  all: destruct (strictNe _ _); run_calls;
    [destruct (rejects env (HistorySaveVersion _ _ _)); run_calls|];
    (eexists; split; [trace_grows|]; done) || (exists []; by rewrite app_nil_r).
Qed.

Lemma refetch_spec workflowId tagIds (w : World) :
  ∃ evs,
    trace (refetch env workflowId tagIds w).2 = (trace w ++ evs)%list
    ∧ steps evs = []
    ∧ versioning evs = []
    ∧ workflowRepository (refetch env workflowId tagIds w).2 = workflowRepository w
    ∧ workflowTagMappingRepository (refetch env workflowId tagIds w).2
      = workflowTagMappingRepository w
    ∧ tagRepository (refetch env workflowId tagIds w).2 = tagRepository w
    ∧ match loadWorkflow workflowId (refetchRelations env) w with
      | None =>
          ∃ message, (refetch env workflowId tagIds w).1
                     = Throw (BadRequestError message None)
      | Some raw =>
          updatedWorkflow (refetch env workflowId tagIds w).2
          = Some (sortedTags env tagIds raw)
          ∧ match externalHookThrows env "workflow.afterUpdate" with
            | Some e => (refetch env workflowId tagIds w).1 = Throw e
            | None => (refetch env workflowId tagIds w).1 = Ok (sortedTags env tagIds raw)
            end
      end.
Proof.
  unfold refetch, refetchRelations. run_calls.
  change (loadWorkflow workflowId ?r (set_trace _ w)) with (loadWorkflow workflowId r w).
  destruct (loadWorkflow workflowId _ w) as [raw|]; run_calls.
  - destruct (externalHookThrows env "workflow.afterUpdate"); run_calls;
      (eexists; split; [trace_grows|]; done).
  - eexists. split; [trace_grows|]. repeat (split; [done|]). by eexists.
Qed.

Lemma reactivate_spec workflowId (stored refetched : WorkflowEntity) (w : World) :
  ∃ evs,
    trace (reactivate env workflowId stored refetched w).2 = (trace w ++ evs)%list
    ∧ versioning evs = []
    ∧ workflowTagMappingRepository (reactivate env workflowId stored refetched w).2
      = workflowTagMappingRepository w
    ∧ tagRepository (reactivate env workflowId stored refetched w).2 = tagRepository w
    ∧ if truthy (refetched !! "active") then
        match activationError env workflowId stored with
        | None =>
            (reactivate env workflowId stored refetched w).1 = Ok tt
            ∧ steps evs = [RegistryAddition]
            ∧ workflowRepository (reactivate env workflowId stored refetched w).2
              = workflowRepository w
            ∧ updatedWorkflow (reactivate env workflowId stored refetched w).2
              = updatedWorkflow w
        | Some e =>
            (∃ before, evs = (before ++ [WorkflowRepoUpdate workflowId (rollbackPatch stored)])%list
                       ∧ steps before `prefix_of` [RegistryAddition])
            ∧ match repositoryUpdateThrows env workflowId (rollbackPatch stored) with
              | Some failure =>
                  (reactivate env workflowId stored refetched w).1 = Throw failure
                  ∧ workflowRepository (reactivate env workflowId stored refetched w).2
                    = workflowRepository w
                  ∧ updatedWorkflow (reactivate env workflowId stored refetched w).2
                    = updatedWorkflow w
              | None =>
                  (reactivate env workflowId stored refetched w).1
                  = Throw (BadRequestError (activationMessage e) None)
                  ∧ workflowRepository (reactivate env workflowId stored refetched w).2
                    = alter (fun entity => rollbackPatch stored ∪ entity) workflowId
                        (workflowRepository w)
                  ∧ updatedWorkflow (reactivate env workflowId stored refetched w).2
                    = (<["active" := FValue (VBool false)]> <$> updatedWorkflow w)
              end
        end
      else
        (reactivate env workflowId stored refetched w).1 = Ok tt
        ∧ steps evs = []
        ∧ workflowRepository (reactivate env workflowId stored refetched w).2
          = workflowRepository w
        ∧ updatedWorkflow (reactivate env workflowId stored refetched w).2
          = updatedWorkflow w.
Proof.
  unfold reactivate, activationError.
  destruct (truthy (refetched !! "active")); run_calls.
  2: { exists []. by rewrite app_nil_r. }
  destruct (externalHookThrows env "workflow.activate") as [e|]; run_calls.
  - destruct (repositoryUpdateThrows env workflowId (rollbackPatch stored)); run_calls;
      (eexists; split; [trace_grows|]; repeat (split; [done|]);
       split; [|done]; exists [ExternalHook "workflow.activate"]; split; [done|];
       by exists [RegistryAddition]).
  - destruct (activeAddThrows env workflowId _) as [e|]; run_calls.
    + destruct (repositoryUpdateThrows env workflowId (rollbackPatch stored)); run_calls;
        (eexists; split; [trace_grows|]; repeat (split; [done|]);
         split; [|done]; eexists [_; _]; split; [done|]; by exists []).
    + eexists. split; [trace_grows|]. done.
Qed.

Lemma broadcast_spec workflowId (stored : WorkflowEntity) (w : World) :
  ∃ evs,
    trace (broadcast env workflowId stored w).2 = (trace w ++ evs)%list
    ∧ (broadcast env workflowId stored w).1 = Ok tt
    ∧ steps evs = (if multiMainEnabled env then [Broadcast] else [])
    ∧ versioning evs = []
    ∧ stores (broadcast env workflowId stored w).2 = stores w.
Proof.
  unfold broadcast. run_calls.
  destruct (multiMainEnabled env); run_calls; (eexists; split; [trace_grows|]; done).
Qed.

Lemma steps_app evs1 evs2 : steps (evs1 ++ evs2) = (steps evs1 ++ steps evs2)%list.
Proof. apply omap_app. Qed.

Lemma versioning_app evs1 evs2 :
  versioning (evs1 ++ evs2) = (versioning evs1 ++ versioning evs2)%list.
Proof. apply List.filter_app. Qed.

Lemma loadWorkflow_tables workflowId relations (w w' : World) :
  workflowRepository w' = workflowRepository w →
  workflowTagMappingRepository w' = workflowTagMappingRepository w →
  tagRepository w' = tagRepository w →
  loadWorkflow workflowId relations w' = loadWorkflow workflowId relations w.
Proof.
  intros Hr Hm Ht. unfold loadWorkflow, tagsOf. by rewrite Hr, Hm, Ht.
Qed.

Lemma stores_eq (w w' : World) :
  stores w' = stores w →
  workflowRepository w' = workflowRepository w
  ∧ workflowTagMappingRepository w' = workflowTagMappingRepository w
  ∧ tagRepository w' = tagRepository w
  ∧ updatedWorkflow w' = updatedWorkflow w.
Proof. unfold stores. by intros [= -> -> -> ->]. Qed.

(** What a call of [update] that returns has done, block by block. *)
Lemma update_returns user (workflow : WorkflowEntity) workflowId tagIds forceSave roles
    (w : World) result w' :
  update env user workflow workflowId tagIds forceSave roles w = (Ok result, w') →
  ∃ row stored evs raw,
    List.find (whereClause env user "workflow:update" workflowId roles)
      (sharedWorkflowRepository w) = Some row
    ∧ workflowRepository w !! rowWorkflowId row = Some stored
    ∧ versionConflict forceSave workflow stored = false
    ∧ trace w' = (trace w ++ evs)%list
    ∧ steps evs
      = ([PermissionLookup]
         ++ (if truthy (stored !! "active") then [RegistryRemoval] else [])
         ++ [Persistence]
         ++ (if truthy (result !! "active") then [RegistryAddition] else [])
         ++ (if multiMainEnabled env then [Broadcast] else []))%list
    ∧ loadWorkflow workflowId (refetchRelations env) w' = Some raw
    ∧ result = sortedTags env tagIds raw
    ∧ updatedWorkflow w' = Some result.
Proof.
  intros Hrun. unfold update in Hrun. unfold bind at 1 in Hrun.
  unfold sharedWorkflowRepository_findOne in Hrun. run_calls_in Hrun.
  destruct (List.find _ (sharedWorkflowRepository w)) as [row|] eqn:Hrow; [|discriminate].
  destruct (workflowRepository w !! rowWorkflowId row) as [stored|] eqn:Hstored;
    [|discriminate].
  cbn [sharedWorkflow_workflow] in Hrun.
  destruct (versionConflict forceSave workflow stored) eqn:Hconflict; [discriminate|].
  set (w0 := set_trace _ w) in Hrun.
  destruct (assignVersionId_spec user workflow workflowId w0)
    as (evs1 & Ht1 & Hr1 & Hs1 & _ & Hst1).
  destruct (assignVersionId env user workflow workflowId w0) as [r1 w1].
  cbn [fst snd] in *. subst r1.
  destruct (beforeSave_spec (versioned env (uuidCount w0) workflow) workflowId stored w1)
    as (evs2 & Ht2 & _ & Hst2 & Hcase2).
  destruct (beforeSave env _ workflowId stored w1) as [r2 w2].
  cbn [fst snd] in *.
  destruct (externalHookThrows env "workflow.update"); [by destruct Hcase2 as [-> _]|].
  destruct Hcase2 as [-> Hs2].
  match type of Hrun with context [save env ?wf _ _] => set (workflow2 := wf) in * end.
  destruct (save_spec workflow2 workflowId w2) as (evs3 & Ht3 & _ & _ & _ & _ & Hcase3).
  destruct (save env workflow2 workflowId w2) as [r3 w3'].
  cbn [fst snd] in *.
  destruct (saveError env workflowId workflow2); [by destruct Hcase3 as [-> _]|].
  destruct Hcase3 as (-> & Hs3 & _ & _).
  destruct (tagsAndHistory_spec user (finalised env workflow2) workflowId tagIds stored w3')
    as (evs3' & Ht3' & Hs3' & _ & _ & _ & Hcase3').
  destruct (tagsAndHistory env user (finalised env workflow2) workflowId tagIds stored w3')
    as [r3' w3].
  cbn [fst snd] in *.
  destruct (tagsError env workflowId tagIds); [by destruct Hcase3' as [-> _]|].
  destruct Hcase3' as (_ & _ & Hr3').
  destruct (historyError env user (finalised env workflow2) workflowId stored);
    subst r3'; [done|].
  destruct (refetch_spec workflowId tagIds w3)
    as (evs4 & Ht4 & Hs4 & _ & Hrepo4 & Hmap4 & Htag4 & Hcase4).
  destruct (refetch env workflowId tagIds w3) as [r4 w4].
  cbn [fst snd] in *.
  destruct (loadWorkflow workflowId (refetchRelations env) w3) as [raw|] eqn:Hraw;
    [|by destruct Hcase4 as [message ->]].
  destruct Hcase4 as [Hcell4 Hcase4].
  destruct (externalHookThrows env "workflow.afterUpdate"); [by subst r4|]. subst r4.
  destruct (reactivate_spec workflowId stored (sortedTags env tagIds raw) w4)
    as (evs5 & Ht5 & _ & Hmap5 & Htag5 & Hcase5).
  destruct (reactivate env workflowId stored (sortedTags env tagIds raw) w4) as [r5 w5].
  cbn [fst snd] in *.
  assert (r5 = Ok tt
          ∧ steps evs5
            = (if truthy (sortedTags env tagIds raw !! "active") then [RegistryAddition]
               else [])
          ∧ workflowRepository w5 = workflowRepository w4
          ∧ updatedWorkflow w5 = updatedWorkflow w4) as (-> & Hs5 & Hrepo5 & Hcell5).
  { destruct (truthy (sortedTags env tagIds raw !! "active")); [|done].
    destruct (activationError env workflowId stored); [|done].
    destruct Hcase5 as [_ Hcase5].
    destruct (repositoryUpdateThrows env workflowId (rollbackPatch stored));
      by destruct Hcase5 as [-> _]. }
  destruct (broadcast_spec workflowId stored w5) as (evs6 & Ht6 & Hr6 & Hs6 & _ & Hst6).
  destruct (broadcast env workflowId stored w5) as [r6 w6].
  cbn [fst snd] in *. subst r6. run_calls_in Hrun.
  apply stores_eq in Hst6 as (Hrepo6 & Hmap6 & Htag6 & Hcell6).
  rewrite Hcell6, Hcell5, Hcell4 in Hrun. cbn in Hrun. injection Hrun as <- <-.
  exists row, stored,
    ([SharedWorkflowFindOne "workflow:update" workflowId]
     ++ evs1 ++ evs2 ++ evs3 ++ evs3' ++ evs4 ++ evs5 ++ evs6)%list, raw.
  split; [done|]. split; [done|]. split; [done|].
  split.
  { rewrite Ht6, Ht5, Ht4, Ht3', Ht3, Ht2, Ht1. subst w0. cbn [trace set_trace].
    by rewrite <- !app_assoc. }
  split.
  { rewrite !steps_app, Hs1, Hs2, Hs3, Hs3', Hs4, Hs5, Hs6. reflexivity. }
  split.
  { rewrite <- Hraw. apply loadWorkflow_tables; congruence. }
  split; [done|]. congruence.
Qed.

(** The steps of any call of [update], whatever its outcome: a beginning
    of the plan, or the plan cut short by a failed activation and its
    write. *)
Lemma update_steps user (workflow : WorkflowEntity) workflowId tagIds forceSave roles
    (w : World) :
  ∃ evs storedActive updatedActive,
    trace (update env user workflow workflowId tagIds forceSave roles w).2
    = (trace w ++ evs)%list
    ∧ (steps evs `prefix_of` plan storedActive updatedActive (multiMainEnabled env)
       ∨ ∃ e attempted,
           (update env user workflow workflowId tagIds forceSave roles w).1 = Throw e
           ∧ attempted `prefix_of` [RegistryAddition]
           ∧ steps evs = rolledBack storedActive attempted).
Proof.
  unfold update. unfold bind at 1.
  unfold sharedWorkflowRepository_findOne. run_calls.
  set (w0 := set_trace _ w).
  assert (∀ r, ∃ evs storedActive updatedActive,
            trace ((r, w0) : result WorkflowEntity * World).2 = (trace w ++ evs)%list
            ∧ (steps evs `prefix_of` plan storedActive updatedActive (multiMainEnabled env)
               ∨ ∃ e attempted,
                   ((r, w0) : result WorkflowEntity * World).1 = Throw e
                   ∧ attempted `prefix_of` [RegistryAddition]
                   ∧ steps evs = rolledBack storedActive attempted)) as Hchecked.
  { intros r. exists [SharedWorkflowFindOne "workflow:update" workflowId], false, false.
    split; [done|]. left. by eexists. }
  destruct (List.find _ (sharedWorkflowRepository w)) as [row|].
  2: { exists [ SharedWorkflowFindOne "workflow:update" workflowId;
                LoggerVerbose "User attempted to update a workflow without permissions" ],
         false, false.
       subst w0. run_calls. split; [by rewrite <- app_assoc|]. left. by eexists. }
  destruct (workflowRepository w !! rowWorkflowId row) as [stored|].
  2: { exists [ SharedWorkflowFindOne "workflow:update" workflowId;
                LoggerVerbose "User attempted to update a workflow without permissions" ],
         false, false.
       subst w0. run_calls. split; [by rewrite <- app_assoc|]. left. by eexists. }
  cbn [sharedWorkflow_workflow].
  destruct (versionConflict forceSave workflow stored); [apply Hchecked|]. clear Hchecked.
  assert (trace w0 = (trace w ++ [SharedWorkflowFindOne "workflow:update" workflowId])%list)
    as Ht0 by done.
  clearbody w0.
  destruct (assignVersionId_spec user workflow workflowId w0)
    as (evs1 & Ht1 & Hr1 & Hs1 & _ & _).
  destruct (assignVersionId env user workflow workflowId w0) as [r1 w1].
  cbn [fst snd] in *. subst r1.
  destruct (beforeSave_spec (versioned env (uuidCount w0) workflow) workflowId stored w1)
    as (evs2 & Ht2 & _ & _ & Hcase2).
  destruct (beforeSave env _ workflowId stored w1) as [r2 w2].
  cbn [fst snd] in *.
  destruct (externalHookThrows env "workflow.update").
  { destruct Hcase2 as [-> Hs2].
    exists ([SharedWorkflowFindOne "workflow:update" workflowId] ++ evs1 ++ evs2)%list,
      false, false.
    cbn [fst snd]. split; [by rewrite Ht2, Ht1, Ht0, <- ?app_assoc|]. left.
    rewrite !steps_app, Hs1, Hs2. by eexists. }
  destruct Hcase2 as [-> Hs2].
  set (workflow2 := onNodes _ _).
  destruct (save_spec workflow2 workflowId w2) as (evs3 & Ht3 & _ & _ & _ & _ & Hcase3).
  destruct (save env workflow2 workflowId w2) as [r3 w3'].
  cbn [fst snd] in *.
  destruct (saveError env workflowId workflow2).
  { destruct Hcase3 as (-> & [rest Hs3] & _).
    exists ([SharedWorkflowFindOne "workflow:update" workflowId]
            ++ evs1 ++ evs2 ++ evs3)%list, (truthy (stored !! "active")), false.
    cbn [fst snd]. split; [by rewrite Ht3, Ht2, Ht1, Ht0, <- ?app_assoc|]. left.
    rewrite !steps_app, Hs1, Hs2. unfold plan. rewrite Hs3.
    eexists. cbn [app steps omap step_of]. rewrite <- ?app_assoc. reflexivity. }
  destruct Hcase3 as (-> & Hs3 & _).
  destruct (tagsAndHistory_spec user (finalised env workflow2) workflowId tagIds stored w3')
    as (evs3' & Ht3' & Hs3' & _ & _ & _ & Hcase3').
  destruct (tagsAndHistory env user (finalised env workflow2) workflowId tagIds stored w3')
    as [r3' w3].
  cbn [fst snd] in *.
  assert (∀ (e : error) (w4 : World) evs4,
            trace w4 = (trace w3 ++ evs4)%list → steps evs4 = [] →
            ∃ evs storedActive updatedActive,
              trace w4 = (trace w ++ evs)%list
              ∧ (steps evs `prefix_of` plan storedActive updatedActive (multiMainEnabled env)
                 ∨ ∃ e' attempted,
                     (Throw e : result WorkflowEntity) = Throw e'
                     ∧ attempted `prefix_of` [RegistryAddition]
                     ∧ steps evs = rolledBack storedActive attempted)) as Hstopped.
  { intros e w4 evs4 Ht4 Hs4.
    exists ([SharedWorkflowFindOne "workflow:update" workflowId]
            ++ evs1 ++ evs2 ++ evs3 ++ evs3' ++ evs4)%list, (truthy (stored !! "active")), false.
    split; [by rewrite Ht4, Ht3', Ht3, Ht2, Ht1, Ht0, <- ?app_assoc|]. left.
    rewrite !steps_app, Hs1, Hs2, Hs3, Hs3', Hs4. unfold plan.
    eexists. cbn [app steps omap step_of]. rewrite <- ?app_assoc. reflexivity. }
  assert (r3' = Ok tt ∨ ∃ e, r3' = Throw e) as [->|[e ->]].
  { destruct (tagsError env workflowId tagIds); [right; destruct Hcase3' as [-> _]; eauto|].
    destruct Hcase3' as (_ & _ & ->). destruct (historyError env _ _ _ _); eauto. }
  2: { apply (Hstopped e w3 []); [by rewrite app_nil_r|done]. }
  destruct (refetch_spec workflowId tagIds w3) as (evs4 & Ht4 & Hs4 & _ & _ & _ & _ & Hcase4).
  destruct (refetch env workflowId tagIds w3) as [r4 w4].
  cbn [fst snd] in *.
  specialize (fun e => Hstopped e w4 evs4 Ht4 Hs4).
  destruct (loadWorkflow workflowId (refetchRelations env) w3) as [raw|].
  2: { destruct Hcase4 as [message ->]. apply Hstopped. }
  destruct Hcase4 as [_ Hr4].
  destruct (externalHookThrows env "workflow.afterUpdate"); subst r4;
    [apply Hstopped|]. clear Hstopped.
  destruct (reactivate_spec workflowId stored (sortedTags env tagIds raw) w4)
    as (evs5 & Ht5 & _ & _ & _ & Hcase5).
  destruct (reactivate env workflowId stored (sortedTags env tagIds raw) w4) as [r5 w5].
  cbn [fst snd] in *.
  assert ((∃ e, r5 = Throw e
                ∧ ∃ attempted, attempted `prefix_of` [RegistryAddition]
                               ∧ steps evs5 = (attempted ++ [Persistence])%list)
          ∨ (r5 = Ok tt
             ∧ steps evs5
               = (if truthy (sortedTags env tagIds raw !! "active") then [RegistryAddition]
                  else []))) as [(e & -> & attempted & Hattempted & Hs5)|[-> Hs5]].
  { destruct (truthy (sortedTags env tagIds raw !! "active"));
      [|right; by destruct Hcase5 as (-> & -> & _)].
    destruct (activationError env workflowId stored);
      [|right; by destruct Hcase5 as (-> & -> & _)].
    destruct Hcase5 as [(before & -> & Hbefore) Hcase5]. left.
    destruct (repositoryUpdateThrows env workflowId (rollbackPatch stored)) as [failure|].
    - destruct Hcase5 as (-> & _). exists failure. split; [done|].
      exists (steps before). split; [done|]. by rewrite steps_app.
    - destruct Hcase5 as (-> & _). eexists. split; [done|]. exists (steps before).
      split; [done|]. by rewrite steps_app. }
  { exists ([SharedWorkflowFindOne "workflow:update" workflowId]
            ++ evs1 ++ evs2 ++ evs3 ++ evs3' ++ evs4 ++ evs5)%list,
      (truthy (stored !! "active")), false.
    cbn [fst snd]. split; [by rewrite Ht5, Ht4, Ht3', Ht3, Ht2, Ht1, Ht0, <- ?app_assoc|].
    right. exists e, attempted. split; [done|]. split; [done|].
    rewrite !steps_app, Hs1, Hs2, Hs3, Hs3', Hs4, Hs5. reflexivity. }
  destruct (broadcast_spec workflowId stored w5) as (evs6 & Ht6 & Hr6 & Hs6 & _ & _).
  destruct (broadcast env workflowId stored w5) as [r6 w6].
  cbn [fst snd] in *. subst r6. run_calls.
  exists ([SharedWorkflowFindOne "workflow:update" workflowId]
          ++ evs1 ++ evs2 ++ evs3 ++ evs3' ++ evs4 ++ evs5 ++ evs6)%list,
    (truthy (stored !! "active")), (truthy (sortedTags env tagIds raw !! "active")).
  split; [by rewrite Ht6, Ht5, Ht4, Ht3', Ht3, Ht2, Ht1, Ht0, <- ?app_assoc|]. left.
  rewrite !steps_app, Hs1, Hs2, Hs3, Hs3', Hs4, Hs5, Hs6. exists []. by rewrite app_nil_r.
Qed.

(** ** update: the version *)

Lemma quiet_ret {A} (a : A) : quiet (ret a).
Proof. intros w. exists []. by rewrite app_nil_r. Qed.

Lemma quiet_gets {A} (f : World → A) : quiet (gets f).
Proof. intros w. exists []. by rewrite app_nil_r. Qed.

Lemma quiet_bind {A B} (m : M A) (k : A → M B) :
  quiet m → (∀ a, quiet (k a)) → quiet (bind m k).
Proof.
  intros Hm Hk w. destruct (Hm w) as (evs1 & Ht1 & Hv1). unfold bind.
  destruct (m w) as [[a|e] w1]; cbn [fst snd] in *.
  - destruct (Hk a w1) as (evs2 & Ht2 & Hv2). exists (evs1 ++ evs2)%list.
    by rewrite Ht2, Ht1, app_assoc, versioning_app, Hv1, Hv2.
  - by exists evs1.
Qed.

Lemma quiet_refetch workflowId tagIds : quiet (refetch env workflowId tagIds).
Proof.
  intros w. destruct (refetch_spec workflowId tagIds w) as (evs & Ht & _ & Hv & _).
  by exists evs.
Qed.

Lemma quiet_reactivate workflowId stored refetched :
  quiet (reactivate env workflowId stored refetched).
Proof.
  intros w. destruct (reactivate_spec workflowId stored refetched w) as (evs & Ht & Hv & _).
  by exists evs.
Qed.

Lemma quiet_broadcast workflowId stored : quiet (broadcast env workflowId stored).
Proof.
  intros w. destruct (broadcast_spec workflowId stored w) as (evs & Ht & _ & _ & Hv & _).
  by exists evs.
Qed.

Lemma onNodes_lookup f (workflow : WorkflowEntity) key :
  key ≠ "nodes" → onNodes f workflow !! key = workflow !! key.
Proof.
  intros Hne. unfold onNodes.
  destruct (workflow !! "nodes") as [[]|]; try done. by rewrite lookup_insert_ne.
Qed.

Lemma finalised_lookup (workflow : WorkflowEntity) key :
  key ≠ "settings" → key ≠ "updatedAt" →
  finalised env workflow !! key = workflow !! key.
Proof.
  intros Hs Hu. unfold finalised.
  assert (withCleanSettings env workflow !! key = workflow !! key) as Hclean.
  { unfold withCleanSettings.
    destruct (workflow !! "settings") as [[]|]; try done. by rewrite lookup_insert_ne. }
  destruct (truthy _); [by rewrite lookup_insert_ne|done].
Qed.

Lemma prepared_lookup (workflow : WorkflowEntity) key :
  key ≠ "nodes" → key ≠ "settings" → key ≠ "updatedAt" →
  prepared env workflow !! key = workflow !! key.
Proof.
  intros Hn Hs Hu. unfold prepared.
  by rewrite finalised_lookup, !onNodes_lookup.
Qed.


(** A call that passes the two checks and is stopped neither by the
    [workflow.update] hook nor by the validation or the write: the state it
    reaches after line 319. *)
Lemma update_written user (workflow : WorkflowEntity) workflowId tagIds forceSave roles
    (w : World) row stored :
  List.find (whereClause env user "workflow:update" workflowId roles)
    (sharedWorkflowRepository w) = Some row →
  workflowRepository w !! rowWorkflowId row = Some stored →
  versionConflict forceSave workflow stored = false →
  externalHookThrows env "workflow.update" = None →
  saveError env workflowId
    (onNodes (addNodeIds env)
       (onNodes (replaceInvalidCredentials env) (versioned env (uuidCount w) workflow)))
  = None →
  let saved := prepared env (versioned env (uuidCount w) workflow) in
  ∃ w3 evs,
    update env user workflow workflowId tagIds forceSave roles w
    = afterWrite env user saved workflowId tagIds stored w3
    ∧ trace w3 = (trace w ++ evs)%list
    ∧ steps evs
      = ([PermissionLookup]
         ++ (if truthy (stored !! "active") then [RegistryRemoval] else [])
         ++ [Persistence])%list
    ∧ versioning evs
      = (if changesVersion workflow then [UuidV4 (uuid env (uuidCount w))] else [])
    ∧ WorkflowRepoUpdate workflowId (pick saved persistedKeys) ∈ evs
    ∧ workflowRepository w3
      = alter (fun entity => pick saved persistedKeys ∪ entity) workflowId
          (workflowRepository w)
    ∧ workflowTagMappingRepository w3 = workflowTagMappingRepository w
    ∧ tagRepository w3 = tagRepository w
    ∧ updatedWorkflow w3 = updatedWorkflow w.
Proof.
  intros Hrow Hstored Hconflict Hhook Hsave saved.
  unfold update. unfold bind at 1.
  rewrite (findOne_found _ _ _ _ _ _ Hrow Hstored). cbn [sharedWorkflow_workflow].
  rewrite Hconflict.
  set (w0 := set_trace _ w).
  change (uuidCount w) with (uuidCount w0) in *.
  destruct (assignVersionId_spec user workflow workflowId w0)
    as (evs1 & Ht1 & Hr1 & Hs1 & Hv1 & Hst1).
  unfold bind at 1.
  destruct (assignVersionId env user workflow workflowId w0) as [r1 w1].
  cbn [fst snd] in *. subst r1.
  destruct (beforeSave_spec (versioned env (uuidCount w0) workflow) workflowId stored w1)
    as (evs2 & Ht2 & Hv2 & Hst2 & Hcase2).
  unfold bind at 1.
  destruct (beforeSave env _ workflowId stored w1) as [r2 w2].
  cbn [fst snd] in *. rewrite Hhook in Hcase2. destruct Hcase2 as [-> Hs2].
  set (workflow2 := onNodes _ _) in *.
  destruct (save_spec workflow2 workflowId w2)
    as (evs3 & Ht3 & Hv3 & Hmap3 & Htag3 & Hup3 & Hcase3).
  unfold bind at 1.
  destruct (save env workflow2 workflowId w2) as [r3 w3].
  cbn [fst snd] in *. rewrite Hsave in Hcase3.
  destruct Hcase3 as (-> & Hs3 & Hrepo3 & Hwrite3).
  apply stores_eq in Hst1 as (Hrepo1 & Hmap1 & Htag1 & Hcell1).
  apply stores_eq in Hst2 as (Hrepo2 & Hmap2 & Htag2 & Hcell2).
  exists w3, ([SharedWorkflowFindOne "workflow:update" workflowId]
              ++ evs1 ++ evs2 ++ evs3)%list.
  split; [reflexivity|]. split.
  { rewrite Ht3, Ht2, Ht1. subst w0. cbn [trace set_trace]. by rewrite <- !app_assoc. }
  split.
  { rewrite !steps_app, Hs1, Hs2, Hs3. reflexivity. }
  split.
  { rewrite !versioning_app, Hv1, Hv2, Hv3. cbn [versioning List.filter app].
    by rewrite !app_nil_r. }
  split.
  { rewrite !elem_of_app. auto. }
  split; [by rewrite Hrepo3, Hrepo2, Hrepo1|].
  split; [by rewrite Hmap3, Hmap2, Hmap1|].
  split; [by rewrite Htag3, Htag2, Htag1|].
  by rewrite Hup3, Hcell2, Hcell1.
Qed.

(** Such a call that is stopped neither by the writes of the tag
    mappings nor by the saving of the history version: the state it
    reaches after line 330. *)
Lemma update_saved user (workflow : WorkflowEntity) workflowId tagIds forceSave roles
    (w : World) row stored :
  List.find (whereClause env user "workflow:update" workflowId roles)
    (sharedWorkflowRepository w) = Some row →
  workflowRepository w !! rowWorkflowId row = Some stored →
  versionConflict forceSave workflow stored = false →
  externalHookThrows env "workflow.update" = None →
  saveError env workflowId
    (onNodes (addNodeIds env)
       (onNodes (replaceInvalidCredentials env) (versioned env (uuidCount w) workflow)))
  = None →
  let saved := prepared env (versioned env (uuidCount w) workflow) in
  tagsError env workflowId tagIds = None →
  historyError env user saved workflowId stored = None →
  ∃ w3 evs,
    update env user workflow workflowId tagIds forceSave roles w
    = afterSave env workflowId tagIds stored w3
    ∧ trace w3 = (trace w ++ evs)%list
    ∧ steps evs
      = ([PermissionLookup]
         ++ (if truthy (stored !! "active") then [RegistryRemoval] else [])
         ++ [Persistence])%list
    ∧ versioning evs
      = ((if changesVersion workflow then [UuidV4 (uuid env (uuidCount w))] else [])
         ++ (if strictNe (saved !! "versionId") (stored !! "versionId")
             then [HistorySaveVersion user saved workflowId] else []))%list
    ∧ WorkflowRepoUpdate workflowId (pick saved persistedKeys) ∈ evs
    ∧ workflowRepository w3
      = alter (fun entity => pick saved persistedKeys ∪ entity) workflowId
          (workflowRepository w)
    ∧ workflowTagMappingRepository w3
      = match tagIds with
        | Some tagIds =>
            if workflowTagsDisabled env then workflowTagMappingRepository w
            else retagged workflowId tagIds (workflowTagMappingRepository w)
        | None => workflowTagMappingRepository w
        end
    ∧ tagRepository w3 = tagRepository w
    ∧ updatedWorkflow w3 = updatedWorkflow w.
Proof.
  intros Hrow Hstored Hconflict Hhook Hsave saved Htags Hhistory.
  destruct (update_written user workflow workflowId tagIds forceSave roles w row stored
              Hrow Hstored Hconflict Hhook Hsave)
    as (w3 & evs & Hrun & Ht & Hs & Hv & Hwrite & Hrepo & Hmap & Htag & Hcell).
  fold saved in Hrun, Hwrite, Hrepo.
  destruct (tagsAndHistory_spec user saved workflowId tagIds stored w3)
    as (evs' & Ht' & Hs' & Hrepo' & Htag' & Hcell' & Hcase').
  rewrite Htags, Hhistory in Hcase'. destruct Hcase' as (Hmap' & Hv' & Hr').
  unfold afterWrite in Hrun. unfold bind at 1 in Hrun.
  destruct (tagsAndHistory env user saved workflowId tagIds stored w3) as [r' w4].
  cbn [fst snd] in *. subst r'.
  exists w4, (evs ++ evs')%list.
  split; [done|]. split; [by rewrite Ht', Ht, app_assoc|].
  split; [by rewrite steps_app, Hs, Hs', app_nil_r|].
  split; [by rewrite versioning_app, Hv, Hv'|].
  split; [apply elem_of_app; by left|].
  split; [by rewrite Hrepo'|].
  split; [by rewrite Hmap', Hmap|].
  split; [by rewrite Htag'|]. by rewrite Hcell'.
Qed.


Lemma quiet_afterSave workflowId tagIds stored :
  quiet (afterSave env workflowId tagIds stored).
Proof.
  unfold afterSave.
  apply quiet_bind; [apply quiet_refetch|]. intros refetched.
  apply quiet_bind; [apply quiet_reactivate|]. intros _.
  apply quiet_bind; [apply quiet_broadcast|]. intros _.
  apply quiet_bind; [apply quiet_gets|]. intros cell. apply quiet_ret.
Qed.


Lemma pick_lookup (o : WorkflowEntity) keys key :
  key ∈ keys → pick o keys !! key = o !! key.
Proof.
  intros Hkey. unfold pick. destruct (o !! key) as [v|] eqn:Ho.
  - by apply map_lookup_filter_Some.
  - apply map_lookup_filter_None. left. done.
Qed.

Lemma sortedTags_lookup tagIds (entity : WorkflowEntity) key :
  key ≠ "tags" → sortedTags env tagIds entity !! key = entity !! key.
Proof.
  intros Hne. unfold sortedTags.
  destruct (entity !! "tags") as [[| | | | | |[|t ts]]|]; try done.
  destruct tagIds as [[|tagId rest]|]; try done. by rewrite lookup_insert_ne.
Qed.

Lemma loadWorkflow_lookup workflowId relations (w : World) entity raw key :
  workflowRepository w !! workflowId = Some entity →
  loadWorkflow workflowId relations w = Some raw →
  key ≠ "tags" → raw !! key = entity !! key.
Proof.
  intros Hentity Hraw Hne. unfold loadWorkflow in Hraw. rewrite Hentity in Hraw.
  destruct (existsb _ relations); injection Hraw as <-; [by rewrite lookup_insert_ne|done].
Qed.

(** A call that passes the two checks goes on to run the
    [workflow.update] hook, whatever comes of it. *)
Lemma update_past_check user (workflow : WorkflowEntity) workflowId tagIds forceSave roles
    (w : World) row stored :
  List.find (whereClause env user "workflow:update" workflowId roles)
    (sharedWorkflowRepository w) = Some row →
  workflowRepository w !! rowWorkflowId row = Some stored →
  versionConflict forceSave workflow stored = false →
  ∃ evs,
    trace (update env user workflow workflowId tagIds forceSave roles w).2
    = (trace w ++ SharedWorkflowFindOne "workflow:update" workflowId :: evs)%list
    ∧ ExternalHook "workflow.update" ∈ evs.
Proof.
  intros Hrow Hstored Hconflict.
  unfold update. unfold bind at 1.
  rewrite (findOne_found _ _ _ _ _ _ Hrow Hstored). cbn [sharedWorkflow_workflow].
  rewrite Hconflict.
  set (w0 := set_trace _ w).
  destruct (assignVersionId_spec user workflow workflowId w0) as (evs1 & Ht1 & Hr1 & _).
  unfold bind at 1.
  destruct (assignVersionId env user workflow workflowId w0) as [r1 w1].
  cbn [fst snd] in *. subst r1.
  set (workflow1 := versioned env (uuidCount w0) workflow).
  assert (∃ evs2, trace (beforeSave env workflow1 workflowId stored w1).2
                  = (trace w1 ++ ExternalHook "workflow.update" :: evs2)%list)
    as [evs2 Ht2].
  { unfold beforeSave. run_calls.
    destruct (externalHookThrows env "workflow.update"); run_calls; [by exists []|].
    destruct (truthy (stored !! "active")); run_calls; eexists; trace_grows. }
  assert (∀ final w',
            trace w' = (trace w1 ++ ExternalHook "workflow.update" :: evs2)%list →
            ∀ evs', trace final = (trace w' ++ evs')%list →
            ∃ evs,
              trace final
              = (trace w ++ SharedWorkflowFindOne "workflow:update" workflowId :: evs)%list
              ∧ ExternalHook "workflow.update" ∈ evs) as Hdone.
  { intros final w' Hw' evs' ->. rewrite Hw', Ht1. subst w0. cbn [trace set_trace].
    exists (evs1 ++ ExternalHook "workflow.update" :: evs2 ++ evs')%list.
    split; [by rewrite <- !app_assoc|].
    apply elem_of_app. right. by left. }
  unfold bind at 1.
  destruct (beforeSave env workflow1 workflowId stored w1) as [[workflow2|e] w2];
    cbn [fst snd] in *.
  2: { apply (Hdone w2 w2 Ht2 []). by rewrite app_nil_r. }
  destruct (save_spec workflow2 workflowId w2) as (evs3 & Ht3 & _).
  unfold bind at 1.
  destruct (save env workflow2 workflowId w2) as [[workflow3|e] w3]; cbn [fst snd] in *.
  2: { by apply (Hdone w3 w2 Ht2 evs3). }
  destruct (tagsAndHistory_spec user workflow3 workflowId tagIds stored w3)
    as (evs4 & Ht4 & _).
  unfold bind at 1.
  destruct (tagsAndHistory env user workflow3 workflowId tagIds stored w3) as [[[]|e] w4];
    cbn [fst snd] in *.
  2: { apply (Hdone w4 w2 Ht2 (evs3 ++ evs4)%list). by rewrite Ht4, Ht3, app_assoc. }
  destruct (quiet_afterSave workflowId tagIds stored w4) as (evs5 & Ht5 & _).
  apply (Hdone _ w2 Ht2 (evs3 ++ evs4 ++ evs5)%list).
  unfold afterSave in Ht5. rewrite Ht5, Ht4, Ht3. by rewrite <- !app_assoc.
Qed.

End Blocks.

(** ** update: the version conflict *)

(** C1, with the condition it needs. In a call of [update] by a user for
    whom a shared-workflow row is found: where [forceSave] is not set, the
    incoming [versionId] is a non-empty string and the stored workflow's
    [versionId] is another one, the call throws the BadRequestError with
    code 100 and has made no call but the look-up of the shared workflow:
    the workflow repository and every other store are as before. When
    [forceSave] is [true] the check is skipped: whatever the two versions
    are, the call does not stop at the look-up but goes on to what follows
    the check, and runs the [workflow.update] hook. *)
Theorem update_version_conflict env (user : User) (workflow : WorkflowEntity)
    (workflowId : string) (tagIds : option (list string)) (forceSave : option bool)
    (roles : option (list string)) (w : World) row stored
    (Haccess : List.find (whereClause env user "workflow:update" workflowId roles)
                 (sharedWorkflowRepository w) = Some row)
    (Hstored : workflowRepository w !! rowWorkflowId row = Some stored) :
  (∀ v, forceSave ≠ Some true →
        workflow !! "versionId" = Some (FValue (VStr v)) →
        v ≠ "" →
        stored !! "versionId" ≠ Some (FValue (VStr v)) →
        update env user workflow workflowId tagIds forceSave roles w
        = (Throw (BadRequestError conflictMessage (Some 100%Z)),
           set_trace (trace w ++ [SharedWorkflowFindOne "workflow:update" workflowId]) w))
  ∧ (forceSave = Some true →
     ∃ evs,
       trace (update env user workflow workflowId tagIds forceSave roles w).2
       = (trace w ++ SharedWorkflowFindOne "workflow:update" workflowId :: evs)%list
       ∧ ExternalHook "workflow.update" ∈ evs).
Proof.
  split.
  - intros v Hforce Hversion Hnonempty Hdiffers.
    unfold update, bind. rewrite (findOne_found _ _ _ _ _ _ Haccess Hstored).
    cbn [sharedWorkflow_workflow].
    by rewrite (versionConflict_stale _ _ _ _ Hforce Hversion Hnonempty Hdiffers).
  - intros ->. by apply update_past_check with (row := row) (stored := stored).
Qed.

(** The property for alice, who owns [wf1], sending the stale update:
    not forced, it is refused; forced, it gets to the hook. *)
Lemma update_version_conflict_witness :
  update quietEnv alice staleUpdate "wf1" None None None sampleWorld
  = (Throw (BadRequestError conflictMessage (Some 100%Z)),
     set_trace [SharedWorkflowFindOne "workflow:update" "wf1"] sampleWorld)
  ∧ ExternalHook "workflow.update"
    ∈ trace (update quietEnv alice staleUpdate "wf1" None (Some true) None sampleWorld).2.
Proof.
  split.
  - refine (proj1 (update_version_conflict quietEnv alice staleUpdate "wf1" None None None
                     sampleWorld aliceOwnsWf1 storedWorkflow _ _) "v0" _ _ _ _);
      [reflexivity | reflexivity | discriminate | reflexivity | discriminate | discriminate].
  - destruct (proj2 (update_version_conflict quietEnv alice staleUpdate "wf1" None
                       (Some true) None sampleWorld aliceOwnsWf1 storedWorkflow
                       eq_refl eq_refl) eq_refl) as (evs & -> & Hhook).
    apply elem_of_app. right. by apply elem_of_cons; right.
Defined.

(** With [forceSave] the same stale update goes through. *)
Example update_forced_sample :
  returned (update quietEnv alice staleUpdate "wf1" None (Some true) None sampleWorld).1
  = true
  ∧ (workflowRepository
       (update quietEnv alice staleUpdate "wf1" None (Some true) None sampleWorld).2
     !! "wf1") ≫= (.!! "name")
    = Some (FValue (VStr "Orders (edited)")).
Proof. split; vm_compute; reflexivity. Qed.

(** C1 as it is stated does not hold: bob has no share in [wf1]; his
    update is not forced and carries the non-empty version [v0] while the
    stored workflow is at [v1], and the call throws the NotFoundError of
    the permission check, not the BadRequestError of the conflict. *)
Lemma update_version_conflict_counterexample :
  workflowRepository sampleWorld !! "wf1" = Some storedWorkflow
  ∧ storedWorkflow !! "versionId" = Some (FValue (VStr "v1"))
  ∧ staleUpdate !! "versionId" = Some (FValue (VStr "v0"))
  ∧ (update quietEnv bob staleUpdate "wf1" None None None sampleWorld).1
    = Throw (NotFoundError noPermissionMessage)
  ∧ (update quietEnv bob staleUpdate "wf1" None None None sampleWorld).1
    ≠ Throw (BadRequestError conflictMessage (Some 100%Z)).
Proof.
  assert ((update quietEnv bob staleUpdate "wf1" None None None sampleWorld).1
          = Throw (NotFoundError noPermissionMessage)) as Hthrown by reflexivity.
  repeat split; try reflexivity. rewrite Hthrown. discriminate.
Qed.





(** C4, with what the write of the catch block decides. When a call of
    [update] gets as far as re-activating the updated workflow, which is
    active, and the [workflow.activate] hook or [activeWorkflowRunner.add]
    throws an error [e], the last call made is the write of [active =
    false] with the [versionId] the workflow had before the update. When
    this write does not throw, the call throws a BadRequestError whose
    message is the description of [e] if [e] is a NodeApiError with one
    and the message of [e] otherwise; the workflow repository holds the
    workflow as inactive and with the [versionId] it had before the
    update; and the entity object built for the caller is marked
    inactive. When this write throws, the call throws its error, and the
    workflow repository is as the update has written it. Nothing is tried
    again. *)
Theorem update_activation_rollback env (user : User) (workflow : WorkflowEntity)
    (workflowId : string) (tagIds : option (list string)) (forceSave : option bool)
    (roles : option (list string)) (w : World) row stored current e
    (Haccess : List.find (whereClause env user "workflow:update" workflowId roles)
                 (sharedWorkflowRepository w) = Some row)
    (Hstored : workflowRepository w !! rowWorkflowId row = Some stored)
    (Hconflict : versionConflict forceSave workflow stored = false)
    (Hhook : externalHookThrows env "workflow.update" = None)
    (Hsave : saveError env workflowId
               (onNodes (addNodeIds env)
                  (onNodes (replaceInvalidCredentials env)
                     (versioned env (uuidCount w) workflow))) = None)
    (Htags : tagsError env workflowId tagIds = None)
    (Hhistory : historyError env user (prepared env (versioned env (uuidCount w) workflow))
                  workflowId stored = None)
    (Hcurrent : workflowRepository w !! workflowId = Some current)
    (Hafter : externalHookThrows env "workflow.afterUpdate" = None)
    (Hactive : truthy (activeAfter workflow current) = true)
    (Hfails : activationError env workflowId stored = Some e) :
  let saved := prepared env (versioned env (uuidCount w) workflow) in
  ∃ w',
    (update env user workflow workflowId tagIds forceSave roles w).2 = w'
    ∧ (∃ before attempted,
         trace w' = (trace w ++ before
                     ++ [WorkflowRepoUpdate workflowId (rollbackPatch stored)])%list
         ∧ attempted `prefix_of` [RegistryAddition]
         ∧ steps before
           = ([PermissionLookup]
              ++ (if truthy (stored !! "active") then [RegistryRemoval] else [])
              ++ [Persistence]
              ++ attempted)%list)
    ∧ match repositoryUpdateThrows env workflowId (rollbackPatch stored) with
      | None =>
          (update env user workflow workflowId tagIds forceSave roles w).1
          = Throw (BadRequestError (activationMessage e) None)
          ∧ (∃ entity,
               workflowRepository w' !! workflowId = Some entity
               ∧ entity !! "active" = Some (FValue (VBool false))
               ∧ ∀ v, stored !! "versionId" = Some v → entity !! "versionId" = Some v)
          ∧ (∃ returned,
               updatedWorkflow w' = Some returned
               ∧ returned !! "active" = Some (FValue (VBool false)))
      | Some failure =>
          (update env user workflow workflowId tagIds forceSave roles w).1 = Throw failure
          ∧ workflowRepository w' !! workflowId
            = Some (pick saved persistedKeys ∪ current)
      end
    ∧ (err_class e ≠ "NodeApiError" → activationMessage e = err_message e)
    ∧ (err_class e = "NodeApiError" →
       activationMessage e = default (err_message e) (err_description e)).
Proof.
  intros saved.
  destruct (update_saved env user workflow workflowId tagIds forceSave roles w row stored
              Haccess Hstored Hconflict Hhook Hsave Htags Hhistory)
    as (w3 & evs & Hrun & Htrace & Hsteps & _ & _ & Hrepo3 & _ & _ & _).
  fold saved in Hrepo3.
  assert (workflowRepository w3 !! workflowId
          = Some (pick saved persistedKeys ∪ current)) as Hentity3
    by (by rewrite Hrepo3, lookup_alter_eq, Hcurrent).
  rewrite Hrun. unfold afterSave, bind.
  destruct (refetch_spec env workflowId tagIds w3)
    as (evs4 & Ht4 & Hsteps4 & _ & Hrepo4 & _ & _ & Hcase4).
  destruct (loadWorkflow workflowId (refetchRelations env) w3) as [raw|] eqn:Hraw.
  2: { unfold loadWorkflow in Hraw. rewrite Hentity3 in Hraw. by destruct (existsb _ _). }
  destruct Hcase4 as [Hcell4 Hr4]. rewrite Hafter in Hr4.
  destruct (refetch env workflowId tagIds w3) as [r4 w4]. cbn [fst snd] in *. subst r4.
  assert (sortedTags env tagIds raw !! "active" = activeAfter workflow current) as Hstate.
  { rewrite sortedTags_lookup by done.
    rewrite (loadWorkflow_lookup _ _ _ _ _ _ Hentity3 Hraw) by done.
    unfold activeAfter.
    assert (pick saved persistedKeys !! "active" = workflow !! "active") as Hpicked.
    { rewrite pick_lookup by (unfold persistedKeys; rewrite !elem_of_cons; auto).
      subst saved. rewrite prepared_lookup by done. unfold versioned.
      destruct (changesVersion workflow); [by rewrite lookup_insert_ne|done]. }
    destruct (workflow !! "active") as [a|] eqn:Ha.
    - rewrite lookup_union_l' by (rewrite Hpicked; eauto). done.
    - by rewrite lookup_union_r. }
  destruct (reactivate_spec env workflowId stored (sortedTags env tagIds raw) w4)
    as (evs5 & Ht5 & _ & _ & _ & Hcase5).
  rewrite Hstate, Hactive, Hfails in Hcase5.
  destruct Hcase5 as ((before & -> & Hattempts) & Hcase5).
  destruct (reactivate env workflowId stored (sortedTags env tagIds raw) w4) as [r5 w5].
  cbn [fst snd] in *.
  assert (∃ failure, r5 = Throw failure) as [failure Hr5].
  { destruct (repositoryUpdateThrows env workflowId (rollbackPatch stored));
      destruct Hcase5 as [-> _]; by eexists. }
  subst r5. cbn [fst snd]. exists w5. split; [done|]. split.
  { exists (evs ++ evs4 ++ before)%list, (steps before). rewrite Ht5, Ht4, Htrace.
    split; [by rewrite <- !app_assoc|]. split; [done|].
    by rewrite !steps_app, Hsteps, Hsteps4, <- !app_assoc. }
  split.
  2: { unfold activationMessage. split.
       - intros Hclass. apply String.eqb_neq in Hclass. by rewrite Hclass.
       - intros Hclass. apply String.eqb_eq in Hclass. by rewrite Hclass. }
  destruct (repositoryUpdateThrows env workflowId (rollbackPatch stored)) as [failed|].
  - destruct Hcase5 as ([= ->] & Hrepo5 & _). split; [done|].
    by rewrite Hrepo5, Hrepo4.
  - destruct Hcase5 as ([= ->] & Hrepo5 & Hcell5). split; [done|]. split.
    + exists (rollbackPatch stored ∪ (pick saved persistedKeys ∪ current)).
      split; [by rewrite Hrepo5, lookup_alter_eq, Hrepo4, Hentity3|].
      split.
      * rewrite lookup_union_l'; unfold rollbackPatch; rewrite lookup_insert_eq; eauto.
      * intros v Hv. unfold rollbackPatch. rewrite Hv.
        rewrite lookup_union_l'; rewrite lookup_insert_ne, lookup_singleton_eq by done; eauto.
    + exists (<["active" := FValue (VBool false)]> (sortedTags env tagIds raw)).
      rewrite Hcell5, Hcell4. split; [done|]. by rewrite lookup_insert_eq.
Qed.

(** The property for alice's update of the active [wf1] when
    [activeWorkflowRunner.add] throws a NodeApiError. *)
Lemma update_activation_rollback_witness :
  (update (withFailingAdd quietEnv) alice currentUpdate "wf1" None None None sampleWorld).1
  = Throw (BadRequestError "The trigger could not be registered" None).
Proof.
  pose proof (update_activation_rollback (withFailingAdd quietEnv) alice currentUpdate "wf1"
                None None None sampleWorld aliceOwnsWf1 storedWorkflow storedWorkflow
                activationFailure eq_refl eq_refl eq_refl eq_refl
                ltac:(vm_compute; reflexivity) eq_refl ltac:(vm_compute; reflexivity)
                eq_refl eq_refl eq_refl eq_refl) as Hrollback.
  cbv zeta in Hrollback. destruct Hrollback as (w' & _ & _ & Hcase & _).
  change (repositoryUpdateThrows (withFailingAdd quietEnv) "wf1" (rollbackPatch storedWorkflow))
    with (@None error) in Hcase.
  cbv iota in Hcase. destruct Hcase as [Hthrown _]. rewrite Hthrown. reflexivity.
Defined.

Example update_activation_rollback_sample :
  (workflowRepository
     (update (withFailingAdd quietEnv) alice currentUpdate "wf1" None None None sampleWorld).2
   !! "wf1")
  = Some (<["id" := FValue (VStr "wf1")]>
            (<["name" := FValue (VStr "Orders (edited)")]>
               (<["active" := FValue (VBool false)]>
                  {["versionId" := FValue (VStr "v1")]})))
  ∧ steps (trace (update (withFailingAdd quietEnv) alice currentUpdate "wf1" None None None
                    sampleWorld).2)
    = [PermissionLookup; RegistryRemoval; Persistence; RegistryAddition; Persistence].
Proof. split; vm_compute; reflexivity. Qed.

(** C4 as it is stated does not hold when the write of the catch block
    throws too: [activeWorkflowRunner.add] throwing, and the write of a
    patch that has no name throwing, alice's update of the active [wf1]
    throws the error of that write and not a BadRequestError; the stored
    workflow stays active, with the new [versionId], and the entity
    object built for the caller is not marked inactive. *)
Lemma update_activation_rollback_counterexample :
  activationError (withFailingRollback (withFailingAdd quietEnv)) "wf1" storedWorkflow
  = Some activationFailure
  ∧ (update (withFailingRollback (withFailingAdd quietEnv)) alice currentUpdate "wf1"
       None None None sampleWorld).1
    = Throw databaseDown
  ∧ (workflowRepository
       (update (withFailingRollback (withFailingAdd quietEnv)) alice currentUpdate "wf1"
          None None None sampleWorld).2 !! "wf1") ≫= (.!! "active")
    = Some (FValue (VBool true))
  ∧ (workflowRepository
       (update (withFailingRollback (withFailingAdd quietEnv)) alice currentUpdate "wf1"
          None None None sampleWorld).2 !! "wf1") ≫= (.!! "versionId")
    = Some (FValue (VStr "uuid-0"))
  ∧ updatedWorkflow
      (update (withFailingRollback (withFailingAdd quietEnv)) alice currentUpdate "wf1"
         None None None sampleWorld).2 ≫= (.!! "active")
    = Some (FValue (VBool true)).
Proof. repeat split; vm_compute; reflexivity. Qed.

(** ** update: the order of the steps *)

(** C2, with the broadcast under its condition. [update] first looks up
    the shared workflow: when no row gives the user access it throws the
    NotFoundError, having only made that look-up and logged. Next comes the
    concurrency check: on a conflict it throws the BadRequestError with
    code 100, having only made the look-up. A call that returns has then,
    in this order, removed the workflow from the active workflows if the
    stored workflow was active, written to the workflow repository, added
    the workflow to the active workflows if the updated workflow is
    active, and, if the multi-main setup is enabled, broadcast the change
    of the active state; what it returns is the entity fetched again from
    the repository after the write, its tags in request order. Whatever
    its outcome, a call has made a beginning of these steps in this order,
    followed, when the activation failed, by the write of the catch
    block. *)
Theorem update_order env (user : User) (workflow : WorkflowEntity) (workflowId : string)
    (tagIds : option (list string)) (forceSave : option bool) (roles : option (list string))
    (w : World) :
  ((∀ row, row ∈ sharedWorkflowRepository w →
      whereClause env user "workflow:update" workflowId roles row = false) →
   update env user workflow workflowId tagIds forceSave roles w
   = (Throw (NotFoundError noPermissionMessage),
      set_trace
        (trace w ++ [ SharedWorkflowFindOne "workflow:update" workflowId;
                      LoggerVerbose "User attempted to update a workflow without permissions" ])
        w))
  ∧ (∀ row stored,
       List.find (whereClause env user "workflow:update" workflowId roles)
         (sharedWorkflowRepository w) = Some row →
       workflowRepository w !! rowWorkflowId row = Some stored →
       versionConflict forceSave workflow stored = true →
       update env user workflow workflowId tagIds forceSave roles w
       = (Throw (BadRequestError conflictMessage (Some 100%Z)),
          set_trace (trace w ++ [SharedWorkflowFindOne "workflow:update" workflowId]) w))
  ∧ (∀ result w',
       update env user workflow workflowId tagIds forceSave roles w = (Ok result, w') →
       ∃ row stored evs raw,
         List.find (whereClause env user "workflow:update" workflowId roles)
           (sharedWorkflowRepository w) = Some row
         ∧ workflowRepository w !! rowWorkflowId row = Some stored
         ∧ versionConflict forceSave workflow stored = false
         ∧ trace w' = (trace w ++ evs)%list
         ∧ steps evs
           = ([PermissionLookup]
              ++ (if truthy (stored !! "active") then [RegistryRemoval] else [])
              ++ [Persistence]
              ++ (if truthy (result !! "active") then [RegistryAddition] else [])
              ++ (if multiMainEnabled env then [Broadcast] else []))%list
         ∧ loadWorkflow workflowId (refetchRelations env) w' = Some raw
         ∧ result = sortedTags env tagIds raw
         ∧ updatedWorkflow w' = Some result)
  ∧ (∃ evs (storedActive updatedActive : bool),
       trace (update env user workflow workflowId tagIds forceSave roles w).2
       = (trace w ++ evs)%list
       ∧ (steps evs
          `prefix_of` ([PermissionLookup]
                       ++ (if storedActive then [RegistryRemoval] else [])
                       ++ [Persistence]
                       ++ (if updatedActive then [RegistryAddition] else [])
                       ++ (if multiMainEnabled env then [Broadcast] else []))%list
          ∨ ∃ e attempted,
              (update env user workflow workflowId tagIds forceSave roles w).1 = Throw e
              ∧ attempted `prefix_of` [RegistryAddition]
              ∧ steps evs
                = ([PermissionLookup]
                   ++ (if storedActive then [RegistryRemoval] else [])
                   ++ [Persistence]
                   ++ attempted
                   ++ [Persistence])%list)).
Proof.
  split; [|split; [|split]].
  - intros Hnone. unfold update. unfold bind at 1.
    rewrite (findOne_missing _ _ _ _ Hnone). run_calls. by rewrite <- app_assoc.
  - intros row stored Hrow Hstored Hconflict. unfold update. unfold bind at 1.
    rewrite (findOne_found _ _ _ _ _ _ Hrow Hstored). cbn [sharedWorkflow_workflow].
    by rewrite Hconflict.
  - apply update_returns.
  - apply update_steps.
Qed.

(** C2 as it is stated does not hold: with the multi-main setup disabled,
    alice's update of [wf1] returns, and the steps it has made are the
    look-up, the removal, the write and the addition; nothing was
    broadcast. *)
Lemma update_order_counterexample :
  multiMainEnabled quietEnv = false
  ∧ returned (update quietEnv alice currentUpdate "wf1" None None None sampleWorld).1 = true
  ∧ steps (trace (update quietEnv alice currentUpdate "wf1" None None None sampleWorld).2)
    = [PermissionLookup; RegistryRemoval; Persistence; RegistryAddition]
  ∧ Broadcast
    ∉ steps (trace (update quietEnv alice currentUpdate "wf1" None None None sampleWorld).2).
Proof.
  split; [reflexivity|].
  split; [vm_compute; reflexivity|].
  split; [vm_compute; reflexivity|].
  vm_compute. not_listed.
Qed.

(** With the multi-main setup enabled the same call ends with the
    broadcast. *)
Example update_order_sample :
  steps (trace (update (withMultiMain quietEnv) alice currentUpdate "wf1" None None None
                  sampleWorld).2)
  = [PermissionLookup; RegistryRemoval; Persistence; RegistryAddition; Broadcast].
Proof. vm_compute. reflexivity. Qed.

End ServiceProofs.

(* ===================================================================== *)
(** * Properties of the Compression node *)
(* ===================================================================== *)

Module CompressionProofs.
Import Js N8n Compression Terms.

Section Node.
Variable this : IExecuteFunctions.
Variable lib : Libraries.

Lemma outputKey_inj n m : outputKey this n = outputKey this m → n = m.
Proof.
  unfold outputKey. intros H. apply (inj (String.app _)) in H. by apply (inj pretty) in H.
Qed.

(** ** compress to gzip *)

Lemma gzipField_spec i name field :
  gzipField this lib i name = Ok field
  ↔ ∃ binaryData buffer zipped,
      assertBinaryData this i name = Ok binaryData
      ∧ getBinaryDataBuffer this i name = Ok buffer
      ∧ gzip lib buffer = Ok zipped
      ∧ prepareBinaryData this zipped
          (Some (template (firstDotSegment (fileName binaryData)) +:+ ".gzip"))
        = Ok field.
Proof.
  unfold gzipField. split.
  - destruct (assertBinaryData this i name) as [binaryData|]; [|discriminate].
    destruct (getBinaryDataBuffer this i name) as [buffer|]; [|discriminate].
    cbn [rbind]. destruct (gzip lib buffer) as [zipped|] eqn:Hzipped; [|discriminate].
    cbn [rbind]. intros Hfield. by exists binaryData, buffer, zipped.
  - intros (binaryData & buffer & zipped & -> & -> & Hzipped & Hfield).
    cbn [rbind]. by rewrite Hzipped.
Qed.

Section Gzip.
Hypothesis Hformat : getNodeParameter this "outputFormat" 0 = "gzip".

Lemma compressField_gzip i index name st :
  compressField this lib i index name st
  = (field <-? gzipField this lib i name;
     Ok (st.1, <[outputKey this index := field]> st.2)).
Proof.
  unfold compressField, gzipField. rewrite Hformat.
  destruct (assertBinaryData this i name) as [binaryData|]; [|done].
  destruct (getBinaryDataBuffer this i name) as [buffer|]; [|done].
  cbn [rbind String.eqb Ascii.eqb Bool.eqb].
  by destruct (gzip lib buffer) as [zipped|].
Qed.

Lemma compressFields_gzip i names : ∀ index st st',
  compressFields this lib i index names st = Ok st' →
  st'.1 = st.1
  ∧ (∀ k name, names !! k = Some name →
       ∃ field, gzipField this lib i name = Ok field
                ∧ st'.2 !! outputKey this (index + k) = Some field)
  ∧ (∀ key, (∀ k, k < length names → key ≠ outputKey this (index + k)) →
       st'.2 !! key = st.2 !! key).
Proof.
  induction names as [|name rest IH]; intros index st st'; cbn [compressFields].
  - intros [= <-]. split; [done|]. split; [|done]. intros k name Hk. inversion Hk.
  - rewrite compressField_gzip.
    destruct (gzipField this lib i name) as [field|] eqn:Hfield; [|discriminate].
    cbn [rbind]. intros Hrest. apply IH in Hrest as (Hzip & Hhit & Hmiss).
    cbn [fst snd] in *. split; [done|]. split.
    + intros [|k] name' Hk.
      * injection Hk as <-. exists field. split; [done|].
        rewrite Nat.add_0_r, Hmiss; [by rewrite lookup_insert_eq|].
        intros k _ Heq. apply outputKey_inj in Heq. lia.
      * replace (index + S k) with (S index + k) by lia. by apply Hhit.
    + intros key Hkey. rewrite Hmiss.
      * rewrite lookup_insert_ne; [done|]. intros Heq. apply (Hkey 0); [cbn; lia|].
        by rewrite Nat.add_0_r.
      * intros k Hk. replace (S index + k) with (index + S k) by lia.
        apply Hkey. cbn. lia.
Qed.

Lemma compressFields_gzip_returns i names : ∀ index st,
  succeeds (compressFields this lib i index names st)
  ↔ ∀ name, name ∈ names → succeeds (gzipField this lib i name).
Proof.
  induction names as [|name rest IH]; intros index st; cbn [compressFields].
  - split; [|by eexists]. intros _ name Hname. inversion Hname.
  - rewrite compressField_gzip.
    destruct (gzipField this lib i name) as [field|] eqn:Hfield; cbn [rbind].
    + rewrite IH. split.
      * intros Hrest name' [->|Hin]%elem_of_cons; [by eexists|by apply Hrest].
      * intros Hall name' Hin. apply Hall. by right.
    + split; [by intros [st' Hst']|]. intros Hall.
      destruct (Hall name) as [field Hok]; [by left|congruence].
Qed.

Lemma processItem_gzip i item :
  getNodeParameter this "operation" 0 = "compress" →
  processItem this lib i item
  = (st <-? compressFields this lib i 0 (binaryPropertyNames this)
              ({| ownProperties := []; prototype := None |}, ∅);
     Ok [ {| json := json item; binary := Some st.2; pairedItem := Some i |} ]).
Proof.
  intros Hop. unfold processItem. rewrite Hop, Hformat.
  cbn [String.eqb Ascii.eqb Bool.eqb rbind].
  by destruct (compressFields _ _ _ _ _ _).
Qed.

End Gzip.

(** C5. With operation "compress" and output format "gzip", the field
    names being the pieces of the parameter between the commas, each
    without the white space at its two ends. For every input item whose
    block does not throw, one output item is pushed; it carries the input
    item's [json] unchanged, and for the field name at position [k] its
    binary data has, under the output prefix followed by [k], the data
    prepared from the gzip of that input field's buffer under the file
    name made of the first dot-separated segment of the input file name
    and ".gzip"; it has no other field; and in a run of [execute] that
    returns, this item is the output at the position of the input item.
    The block of an input item throws only when one of its named fields
    cannot be read, gzipped or prepared. *)
Theorem compress_gzip
    (Hoperation : getNodeParameter this "operation" 0 = "compress")
    (Hformat : getNodeParameter this "outputFormat" 0 = "gzip") :
  ∃ names,
    fieldNames (getNodeParameter this "binaryPropertyName" 0) names
    ∧ ∀ i item, getInputData this !! i = Some item →
        (∀ pushed, processItem this lib i item = Ok pushed →
           ∃ fields,
             pushed = [ {| json := json item; binary := Some fields; pairedItem := Some i |} ]
             ∧ (∀ k name, names !! k = Some name →
                  ∃ binaryData buffer zipped field gzipName,
                    assertBinaryData this i name = Ok binaryData
                    ∧ getBinaryDataBuffer this i name = Ok buffer
                    ∧ gzip lib buffer = Ok zipped
                    ∧ prepareBinaryData this zipped (Some gzipName) = Ok field
                    ∧ fields !! (getNodeParameter this "outputPrefix" 0 +:+ pretty k)
                      = Some field
                    ∧ gzipName = template (firstDotSegment (fileName binaryData)) +:+ ".gzip"
                    ∧ ∀ inputName, fileName binaryData = Some inputName →
                        gzipName = hd "" (split "." inputName) +:+ ".gzip")
             ∧ (∀ key, is_Some (fields !! key) →
                  ∃ k, k < length names
                       ∧ key = getNodeParameter this "outputPrefix" 0 +:+ pretty k)
             ∧ ∀ returnData, execute this lib = Ok [returnData] →
                 returnData !! i
                 = Some {| json := json item; binary := Some fields; pairedItem := Some i |})
        ∧ (succeeds (processItem this lib i item)
           ↔ ∀ name, name ∈ names →
               ∃ binaryData buffer zipped field,
                 assertBinaryData this i name = Ok binaryData
                 ∧ getBinaryDataBuffer this i name = Ok buffer
                 ∧ gzip lib buffer = Ok zipped
                 ∧ prepareBinaryData this zipped
                     (Some (template (firstDotSegment (fileName binaryData)) +:+ ".gzip"))
                   = Ok field).
Proof.
  exists (binaryPropertyNames this). split; [apply StringFacts.fieldNames_spec|].
  intros i item Hitem. rewrite (processItem_gzip Hformat i item Hoperation). split.
  - intros pushed Hpushed.
    destruct (compressFields this lib i 0 (binaryPropertyNames this) _) as [st|] eqn:Hfields;
      [|discriminate].
    injection Hpushed as <-.
    destruct (compressFields_gzip Hformat _ _ _ _ _ Hfields) as (_ & Hhit & Hmiss).
    cbn [fst snd] in *. exists st.2. split; [done|]. split; [|split].
    + intros k name Hk. destruct (Hhit k name Hk) as (field & Hfield & Hkey).
      apply gzipField_spec in Hfield as (binaryData & buffer & zipped & Ha & Hb & Hz & Hp).
      exists binaryData, buffer, zipped, field,
        (template (firstDotSegment (fileName binaryData)) +:+ ".gzip").
      repeat (split; [done|]). by intros inputName ->.
    + intros key Hkey.
      destruct (decide (Exists (fun k => key = outputKey this k)
                          (seq 0 (length (binaryPropertyNames this))))) as [Hex|Hnot].
      * apply Exists_exists in Hex as (k & Hk & ->). apply elem_of_seq in Hk.
        exists k. split; [lia|done].
      * rewrite Hmiss, lookup_empty in Hkey; [by destruct Hkey|].
        intros k Hk Heq. apply Hnot, Exists_exists. exists k.
        split; [apply elem_of_seq; lia|done].
    + intros returnData Hrun.
      destruct (CompressionLoop.execute_positions this lib returnData) as [_ Hat];
        [right; auto|done|].
      specialize (Hat i item Hitem).
      rewrite (processItem_gzip Hformat i item Hoperation), Hfields in Hat. cbn [rbind] in Hat.
      destruct Hat as [Hat [output Houtput]]. rewrite Houtput in Hat |- *.
      cbn in Hat. by injection Hat as <-.
  - assert (succeeds
              (st <-? compressFields this lib i 0 (binaryPropertyNames this)
                        ({| ownProperties := []; prototype := None |}, ∅);
               Ok [ {| json := json item; binary := Some st.2; pairedItem := Some i |} ])
            ↔ succeeds (compressFields this lib i 0 (binaryPropertyNames this)
                          ({| ownProperties := []; prototype := None |}, ∅))) as ->.
    { destruct (compressFields _ _ _ _ _ _); cbn [rbind]; split; intros [? ?]; try done;
        by eexists. }
    rewrite (compressFields_gzip_returns Hformat).
    split; intros Hall name Hname; specialize (Hall name Hname).
    + destruct Hall as [field Hfield]. apply gzipField_spec in Hfield.
      destruct Hfield as (binaryData & buffer & zipped & H). by exists binaryData, buffer, zipped, field.
    + destruct Hall as (binaryData & buffer & zipped & field & H). exists field.
      apply gzipField_spec. by exists binaryData, buffer, zipped.
Qed.

(** ** decompress *)





End Node.

(** The property on the sample item, whose fields "data" and "archive"
    are gzipped into "file_0" and "file_1". *)
Lemma compress_gzip_witness :
  ∃ names,
    fieldNames "data, archive" names
    ∧ succeeds (processItem (sampleNode "compress" "gzip" "data, archive") sampleLibraries
                  0 sampleItem).
Proof.
  destruct (compress_gzip (sampleNode "compress" "gzip" "data, archive") sampleLibraries
              eq_refl eq_refl) as (names & Hnames & _).
  exists names. split; [exact Hnames|]. by eexists.
Defined.

Example compress_gzip_sample :
  Compression.execute (sampleNode "compress" "gzip" "data, archive") sampleLibraries
  = Ok [[ {| json := {["id" := VNum 1]};
             binary :=
               Some (<["file_0" := {| data := [Byte.x1f; Byte.x8b; Byte.x68; Byte.x69];
                                      mimeType := "application/octet-stream";
                                      fileName := Some "report.gzip";
                                      fileExtension := None |}]>
                       {["file_1" := {| data := [Byte.x1f; Byte.x8b; Byte.x1f; Byte.x8b;
                                                 Byte.x6f; Byte.x6b];
                                        mimeType := "application/octet-stream";
                                        fileName := Some "notes.gzip";
                                        fileExtension := None |}]});
             pairedItem := Some 0 |} ]].
Proof. vm_compute. reflexivity. Qed.

(** The field names are trimmed of more than the ASCII white space: a
    no-break space and a byte order mark go as well. *)
Example trim_sample :
  trim (bytes [194; 160; 32] +:+ "data" +:+ bytes [9; 239; 187; 191]) = "data".
Proof. vm_compute. reflexivity. Qed.

(** A missing field stops the run, or, under [continueOnFail], yields an
    item that carries the error. *)
Example compress_missing_field_sample :
  Compression.execute (sampleNode "compress" "gzip" "data, absent") sampleLibraries
  = Throw (missingField "absent").
Proof. vm_compute. reflexivity. Qed.

(** C5 as it is stated does not hold of every input item. The sample
    item has no field "absent", so that its block throws; under
    [continueOnFail] the run returns, and the output item of the sample
    item is the one that carries the error: it has no binary data, hence
    no field for the name "data" at position 0, and its [json] is not that
    of the input item. *)
Lemma compress_gzip_counterexample :
  getNodeParameter (continuing (sampleNode "compress" "gzip" "data, absent")) "operation" 0
  = "compress"
  ∧ getNodeParameter (continuing (sampleNode "compress" "gzip" "data, absent"))
      "outputFormat" 0 = "gzip"
  ∧ getInputData (continuing (sampleNode "compress" "gzip" "data, absent")) = [sampleItem]
  ∧ Compression.execute (continuing (sampleNode "compress" "gzip" "data, absent"))
      sampleLibraries
    = Ok [[ {| json := {[ "error" := VStr (err_message (missingField "absent")) ]};
               binary := None;
               pairedItem := Some 0 |} ]]
  ∧ json sampleItem ≠ {[ "error" := VStr (err_message (missingField "absent")) ]}.
Proof.
  split; [reflexivity|]. split; [reflexivity|]. split; [reflexivity|].
  split; [vm_compute; reflexivity|].
  intros Hjson. apply (f_equal (fun o : IDataObject => o !! "id")) in Hjson.
  vm_compute in Hjson. discriminate.
Qed.


(** The text file is passed over, the two entries of the archive that are
    not under "__MACOSX" take the counter values 0 and 1, and the gzip
    file, third of the fields, becomes "file_2". *)
Example decompress_sample :
  Compression.execute (sampleNode "decompress" "" "data, bundle, archive") sampleLibraries
  = Ok [[ {| json := {["id" := VNum 1]};
             binary :=
               Some (<["file_0" := {| data := [Byte.x61];
                                      mimeType := "application/octet-stream";
                                      fileName := Some "a.txt";
                                      fileExtension := None |}]>
                    (<["file_1" := {| data := [Byte.x62];
                                      mimeType := "application/octet-stream";
                                      fileName := Some "b.txt";
                                      fileExtension := None |}]>
                       {["file_2" := {| data := [Byte.x6f; Byte.x6b];
                                        mimeType := "application/octet-stream";
                                        fileName := Some "notes.bin";
                                        fileExtension := Some "bin" |}]}));
             pairedItem := Some 0 |} ]].
Proof. vm_compute. reflexivity. Qed.

End CompressionProofs.

(* ===================================================================== *)
(** * The workflow service: what a call leaves alone *)
(* ===================================================================== *)

Module ServiceFrames.
Import Js N8n WorkflowService Terms.

(** ** Relations kept by every step of a computation *)

Section Keeps.
Context (R : World → World → Prop) `{!PreOrder R}.

Lemma keeps_ret {A} (a : A) : keeps R (ret a).
Proof. intros w. reflexivity. Qed.

Lemma keeps_throw {A} (e : error) : keeps R (throw (A := A) e).
Proof. intros w. reflexivity. Qed.

Lemma keeps_gets {A} (f : World → A) : keeps R (gets f).
Proof. intros w. reflexivity. Qed.

Lemma keeps_modify (f : World → World) : (∀ w, R w (f w)) → keeps R (modify f).
Proof. intros Hf w. apply Hf. Qed.

Lemma keeps_bind_ok {A B} (Q : A → Prop) (m : M A) (k : A → M B) :
  keeps R m → (∀ w a, (m w).1 = Ok a → Q a) → (∀ a, Q a → keeps R (k a)) →
  keeps R (bind m k).
Proof.
  intros Hm HQ Hk w. specialize (Hm w). specialize (HQ w). unfold bind.
  destruct (m w) as [[a|e] w1]; cbn [fst snd] in *; [|done].
  etransitivity; [exact Hm|]. apply Hk. by apply HQ.
Qed.

Lemma keeps_bind {A B} (m : M A) (k : A → M B) :
  keeps R m → (∀ a, keeps R (k a)) → keeps R (bind m k).
Proof.
  intros Hm Hk. apply (keeps_bind_ok (fun _ => True)); auto.
Qed.

Lemma keeps_try_catch {A} (m : M A) (handler : error → M A) :
  keeps R m → (∀ e, keeps R (handler e)) → keeps R (try_catch m handler).
Proof.
  intros Hm Hh w. specialize (Hm w). unfold try_catch.
  destruct (m w) as [[a|e] w1]; cbn [fst snd] in *; [done|].
  etransitivity; [exact Hm|]. apply Hh.
Qed.

End Keeps.

(** Take a computation apart along its binds, branches and handlers;
    [leaf] closes the goals on [emit] and [modify]. *)
Ltac keeps_steps leaf :=
  repeat first
    [ apply keeps_ret; apply _ | apply keeps_throw; apply _ | apply keeps_gets; apply _
    | leaf
    | apply keeps_bind; [apply _| |intros ?]
    | apply keeps_try_catch; [apply _| |intros ?]
    | match goal with
      | |- keeps _ (match ?x with _ => _ end) => destruct x
      end ].

(** ** The calls made *)

#[local] Instance callsAll_preorder (P : Event → Prop) : PreOrder (callsAll P).
Proof.
  split.
  - intros w. exists []. by rewrite app_nil_r.
  - intros w1 w2 w3 (evs1 & Ht1 & HP1) (evs2 & Ht2 & HP2).
    exists (evs1 ++ evs2)%list. rewrite Ht2, Ht1, app_assoc. split; [done|].
    by apply Forall_app.
Qed.

Lemma callsAll_emit (P : Event → Prop) (ev : Event) : P ev → keeps (callsAll P) (emit ev).
Proof. intros HP w. exists [ev]. split; [done|]. by apply Forall_singleton. Qed.

Lemma callsAll_modify (P : Event → Prop) (f : World → World) :
  (∀ w, trace (f w) = trace w) → keeps (callsAll P) (modify f).
Proof. intros Hf w. exists []. cbn. by rewrite Hf, app_nil_r. Qed.

Lemma pick_keys (o : WorkflowEntity) keys key : is_Some (pick o keys !! key) → key ∈ keys.
Proof.
  intros [v Hv]. unfold pick in Hv. by apply map_lookup_filter_Some in Hv as [_ Hkey].
Qed.

Lemma rollbackPatch_keys (stored : WorkflowEntity) key :
  is_Some (rollbackPatch stored !! key) → key ∈ persistedKeys.
Proof.
  unfold rollbackPatch, persistedKeys. intros [v Hv].
  destruct (decide (key = "active")) as [->|Hactive].
  { rewrite !elem_of_cons. auto. }
  rewrite lookup_insert_ne in Hv by done.
  destruct (stored !! "versionId").
  - apply lookup_singleton_Some in Hv as [<- _]. rewrite !elem_of_cons. auto 10.
  - by rewrite lookup_empty in Hv.
Qed.

(** ** The other workflows *)

#[local] Instance othersUntouched_preorder workflowId : PreOrder (othersUntouched workflowId).
Proof.
  split.
  - intros w. unfold othersUntouched. repeat split; done.
  - intros w1 w2 w3 (Hr1 & Ha1 & Hm1 & Hb1 & Hs1 & He1 & Ht1)
      (Hr2 & Ha2 & Hm2 & Hb2 & Hs2 & He2 & Ht2).
    unfold othersUntouched. repeat split.
    + intros other Hne. rewrite Hr2, Hr1; done.
    + intros Hin. apply Ha1, Ha2; done.
    + intros Hin. apply Ha2, Ha1; done.
    + congruence.
    + congruence.
    + congruence.
    + congruence.
    + congruence.
Qed.

#[local] Instance sameOn_preorder {X} (f : World → X) : PreOrder (sameOn f).
Proof.
  split; [by intros w|]. intros w1 w2 w3. unfold sameOn. congruence.
Qed.

Lemma ofOther_true workflowId id : ofOther workflowId id = true ↔ id ≠ workflowId.
Proof.
  unfold ofOther. rewrite negb_true_iff. split.
  - intros Hne ->. by rewrite String.eqb_refl in Hne.
  - intros Hne. by apply String.eqb_neq.
Qed.

Lemma filter_idem {A} (p : A → bool) (l : list A) :
  List.filter p (List.filter p l) = List.filter p l.
Proof.
  induction l as [|x l IH]; [done|]. cbn. destruct (p x) eqn:Hp; [|done].
  cbn. by rewrite Hp, IH.
Qed.

Lemma filter_none {A} (p : A → bool) (l : list A) :
  (∀ x, x ∈ l → p x = false) → List.filter p l = [].
Proof.
  induction l as [|x l IH]; [done|]. intros Hall. cbn.
  rewrite (Hall x) by (rewrite elem_of_cons; auto).
  apply IH. intros y Hy. apply Hall. rewrite elem_of_cons. auto.
Qed.

Lemma filter_filter_keep {A} (p q : A → bool) (l : list A) :
  (∀ x, p x = true → q x = true) →
  List.filter p (List.filter q l) = List.filter p l.
Proof.
  intros Hpq. induction l as [|x l IH]; [done|]. cbn.
  destruct (q x) eqn:Hq; cbn.
  - by rewrite IH.
  - destruct (p x) eqn:Hp; [|done]. apply Hpq in Hp. congruence.
Qed.

(** The leaves of a call for the workflow [workflowId]. *)
Lemma others_emit workflowId ev : keeps (othersUntouched workflowId) (emit ev).
Proof. intros w. unfold othersUntouched. cbn. repeat split; done. Qed.

Lemma others_active workflowId (f : gset string → gset string) :
  (∀ active other, other ≠ workflowId → other ∈ f active ↔ other ∈ active) →
  keeps (othersUntouched workflowId)
    (modify (fun w => set_activeWorkflows (f (activeWorkflows w)) w)).
Proof.
  intros Hf w. unfold othersUntouched. cbn. repeat split; try done; by apply Hf.
Qed.

Lemma others_repository workflowId
    (f : gmap string WorkflowEntity → gmap string WorkflowEntity) :
  (∀ repository other, other ≠ workflowId → f repository !! other = repository !! other) →
  keeps (othersUntouched workflowId)
    (modify (fun w => set_workflowRepository (f (workflowRepository w)) w)).
Proof.
  intros Hf w. unfold othersUntouched. cbn. repeat split; try done; by apply Hf.
Qed.

Lemma others_mappings workflowId (f : list (string * string) → list (string * string)) :
  (∀ mappings,
     List.filter (fun m : string * string => ofOther workflowId m.2) (f mappings)
     = List.filter (fun m : string * string => ofOther workflowId m.2) mappings) →
  keeps (othersUntouched workflowId)
    (modify (fun w =>
       set_workflowTagMappingRepository (f (workflowTagMappingRepository w)) w)).
Proof.
  intros Hf w. unfold othersUntouched. cbn. repeat split; try done; by apply Hf.
Qed.

Lemma others_binary env workflowId (ids : list (string * string)) :
  (∀ b : string * string, b ∈ ids → b.1 = workflowId) →
  keeps (othersUntouched workflowId) (binaryDataService_deleteMany env ids).
Proof.
  intros Hids. unfold binaryDataService_deleteMany, await.
  apply keeps_bind; [apply _| |intros _].
  { apply keeps_bind; [apply _|apply others_emit|intros _].
    destruct (rejects env _); [apply keeps_throw|apply keeps_ret]; apply _. }
  apply keeps_modify. intros w. unfold othersUntouched. cbn.
  repeat split; try done.
  apply filter_filter_keep. intros b Hb. apply ofOther_true in Hb.
  apply bool_decide_eq_true. intros Hin. by apply Hb, Hids.
Qed.

Lemma others_cell workflowId (f : World → option WorkflowEntity) :
  keeps (othersUntouched workflowId) (modify (fun w => set_updatedWorkflow (f w) w)).
Proof. intros w. unfold othersUntouched. cbn. repeat split; done. Qed.

Lemma others_uuid workflowId n :
  keeps (othersUntouched workflowId) (modify (set_uuidCount n)).
Proof. intros w. unfold othersUntouched. cbn. repeat split; done. Qed.

Ltac others_leaf :=
  first
    [ apply others_emit
    | apply others_uuid
    | apply (others_cell _ (fun _ => _))
    | apply (others_cell _ (fun w => _ <$> updatedWorkflow w))
    | apply (others_active _ (fun active => active ∖ _));
      intros active other Hne; rewrite elem_of_difference, elem_of_singleton; tauto
    | apply (others_active _ (fun active => _ ∪ active));
      intros active other Hne; rewrite elem_of_union, elem_of_singleton; tauto
    | apply (others_repository _ (fun repository => alter _ _ repository));
      intros repository other Hne; by rewrite lookup_alter_ne
    | apply (others_repository _ (fun repository => base.delete _ repository));
      intros repository other Hne; by rewrite lookup_delete_ne
    | apply (others_mappings _ (fun mappings => List.filter _ mappings));
      intros mappings; apply filter_idem
    | apply (others_mappings _ (fun mappings => (mappings ++ _)%list));
      intros mappings; rewrite List.filter_app, (filter_none _ (map _ _)), app_nil_r;
      [done|];
      intros m [tagId [<- _]]%list_elem_of_In%in_map_iff; cbn; unfold ofOther;
      by rewrite String.eqb_refl ].

(** X1. Whatever its outcome, a call of [update] for the workflow
    [workflowId] leaves everything that is stored about the other
    workflows as it was: their rows, their presence among the active
    workflows, their tag mappings, their shares, their executions and
    binary data; and it leaves the tags as they were. *)
Theorem update_others_untouched env (user : User) (workflow : WorkflowEntity)
    (workflowId : string) (tagIds : option (list string)) (forceSave : option bool)
    (roles : option (list string)) (w : World) :
  othersUntouched workflowId w
    (update env user workflow workflowId tagIds forceSave roles w).2.
Proof.
  revert w. change (keeps (othersUntouched workflowId)
                      (update env user workflow workflowId tagIds forceSave roles)).
  unfold_service. keeps_steps others_leaf.
Qed.

(** X2. Whatever its outcome, a call of [delete] for the workflow
    [workflowId] leaves everything that is stored about the other
    workflows as it was, and the tags as they were. *)
Theorem delete_others_untouched env (user : User) (workflowId : string) (w : World) :
  othersUntouched workflowId w (delete env user workflowId w).2.
Proof.
  revert w. change (keeps (othersUntouched workflowId) (delete env user workflowId)).
  unfold delete.
  apply keeps_bind; [apply _|unfold_service; keeps_steps others_leaf|intros _].
  apply keeps_bind; [apply _|unfold_service; keeps_steps others_leaf|intros shared].
  destruct shared as [shared|]; [|apply keeps_ret; apply _].
  apply keeps_bind; [apply _|unfold_service; keeps_steps others_leaf|intros _].
  apply keeps_bind_ok
    with (Q := fun ids => ∀ b : string * string, b ∈ ids → b.1 = workflowId);
    [apply _|unfold_service; keeps_steps others_leaf| |].
  { intros w ids Hfound b. unfold executionRepository_find, await in Hfound.
    run_calls_in Hfound. destruct (rejects env _); [discriminate|].
    injection Hfound as <-. by intros [row [<- _]]%list_elem_of_In%in_map_iff. }
  intros ids Hids.
  apply keeps_bind; [apply _|unfold_service; keeps_steps others_leaf|intros _].
  apply keeps_bind; [apply _|by apply others_binary|intros _].
  unfold_service; keeps_steps others_leaf.
Qed.

(** ** The calls of update *)

Ltac calls_leaf solve_call :=
  first
    [ apply callsAll_emit; cbn; solve_call
    | apply callsAll_modify; intros ?; reflexivity ].

Ltac update_call :=
  first
    [ exact I
    | reflexivity
    | split; [reflexivity|]; intros ?; first [apply pick_keys | apply rollbackPatch_keys] ].

(** X3. Whatever its outcome, every call that [update] makes on a
    collaborator for a workflow names the workflow [workflowId] it was
    called for; what it writes to the workflow repository carries only the
    eight persisted properties (so neither the [id] nor [updatedAt] or
    [tags] of the payload); and it never deletes a workflow or binary
    data. *)
Theorem update_calls env (user : User) (workflow : WorkflowEntity)
    (workflowId : string) (tagIds : option (list string)) (forceSave : option bool)
    (roles : option (list string)) (w : World) :
  ∃ evs,
    trace (update env user workflow workflowId tagIds forceSave roles w).2
    = (trace w ++ evs)%list
    ∧ Forall (updateCall workflowId) evs.
Proof.
  revert w. change (keeps (callsAll (updateCall workflowId))
                      (update env user workflow workflowId tagIds forceSave roles)).
  unfold_service. keeps_steps ltac:(calls_leaf update_call).
Qed.

(** ** The settings written *)

Lemma value_eqb_eq (a b : value) : value_eqb a b = true ↔ a = b.
Proof.
  destruct a, b; cbn; try (split; [discriminate|discriminate]); try done.
  - rewrite Bool.eqb_true_iff. split; congruence.
  - rewrite Z.eqb_eq. split; congruence.
  - rewrite String.eqb_eq. split; congruence.
Qed.

Section Settings.
Variable env : Env.

Lemma dropDefault_lookup (o : IDataObject) k key :
  dropDefault o k !! key
  = (if decide (key = k ∧ o !! key = Some (VStr "DEFAULT")) then None else o !! key).
Proof.
  unfold dropDefault.
  destruct (value_eqb (default VUndefined (o !! k)) (VStr "DEFAULT")) eqn:Heq.
  - apply value_eqb_eq in Heq.
    destruct (decide (key = k)) as [->|Hne].
    + rewrite lookup_delete_eq. destruct (o !! k) as [v|]; [|by destruct (decide _)].
      cbn in Heq. subst v. by rewrite decide_True.
    + rewrite lookup_delete_ne by done. rewrite decide_False; [done|]. by intros [? _].
  - rewrite decide_False; [done|]. intros [-> Hk]. rewrite Hk in Heq. cbn in Heq.
    discriminate.
Qed.

Lemma dropDefaults_kept keys (o : IDataObject) key :
  key ∉ keys ∨ o !! key ≠ Some (VStr "DEFAULT") →
  fold_left dropDefault keys o !! key = o !! key.
Proof.
  revert o. induction keys as [|k keys IH]; intros o Hkey; [done|].
  cbn [fold_left]. rewrite IH.
  - rewrite dropDefault_lookup. destruct (decide _) as [[-> Hk]|]; [|done].
    destruct Hkey as [Hkey|Hkey]; [|done]. exfalso. apply Hkey. by left.
  - rewrite dropDefault_lookup. destruct (decide _) as [|Hno]; [by right|].
    destruct Hkey as [Hkey|Hkey]; [left|by right].
    intros Hin. apply Hkey. by right.
Qed.

Lemma dropDefaults_dropped keys (o : IDataObject) key :
  key ∈ keys → o !! key = Some (VStr "DEFAULT") →
  fold_left dropDefault keys o !! key = None.
Proof.
  revert o. induction keys as [|k keys IH]; intros o Hin Hkey; [by apply elem_of_nil in Hin|].
  cbn [fold_left]. destruct (decide (key = k)) as [->|Hne].
  - rewrite dropDefaults_kept; rewrite dropDefault_lookup, decide_True by done; [done|].
    by right.
  - apply elem_of_cons in Hin as [?|Hin]; [done|]. apply IH; [done|].
    rewrite dropDefault_lookup, decide_False; [done|]. by intros [? _].
Qed.

(** Lines 281-300 on the settings: the entries that hold ['DEFAULT']
    under one of the keys that allow it are dropped, as is an execution
    timeout that is the configured one; every other entry is kept. *)
Lemma cleanSettings_lookup (settings : IDataObject) key :
  cleanSettings env settings !! key
  = (if decide (key ∈ keysAllowingDefault ∧ settings !! key = Some (VStr "DEFAULT"))
     then None
     else if decide (key = "executionTimeout"
                     ∧ value_eqb (default VUndefined (settings !! key))
                         (executionsTimeout env) = true)
     then None
     else settings !! key).
Proof.
  unfold cleanSettings. fold dropDefault.
  assert (fold_left dropDefault keysAllowingDefault settings !! "executionTimeout"
          = settings !! "executionTimeout") as Htimeout.
  { apply dropDefaults_kept. left. unfold keysAllowingDefault. not_listed. }
  rewrite Htimeout.
  destruct (decide (key ∈ keysAllowingDefault ∧ _)) as [[Hin Hdefault]|Hkept].
  - assert (fold_left dropDefault keysAllowingDefault settings !! key = None) as Hdropped
      by by apply dropDefaults_dropped.
    destruct (value_eqb (default VUndefined (settings !! "executionTimeout")) _);
      [|exact Hdropped].
    destruct (decide (key = "executionTimeout")) as [->|Hne];
      [by rewrite lookup_delete_eq|by rewrite lookup_delete_ne].
  - assert (fold_left dropDefault keysAllowingDefault settings !! key = settings !! key)
      as Hsame.
    { apply dropDefaults_kept. destruct (decide (key ∈ keysAllowingDefault)); [|by left].
      right. intros Hdefault. by apply Hkept. }
    destruct (value_eqb (default VUndefined (settings !! "executionTimeout")) _) eqn:Heq.
    + destruct (decide (key = "executionTimeout" ∧ _)) as [[-> _]|Hno].
      * by rewrite lookup_delete_eq.
      * rewrite lookup_delete_ne; [done|]. intros <-. by apply Hno.
    + destruct (decide (key = "executionTimeout" ∧ _)) as [[-> Hyes]|Hno]; [|done].
      congruence.
Qed.

Lemma cleanSettings_cleaned (settings : IDataObject) :
  cleanedSettings env (cleanSettings env settings).
Proof.
  split.
  - intros key Hkey. rewrite cleanSettings_lookup.
    destruct (decide (key ∈ keysAllowingDefault ∧ _)) as [|Hno]; [done|].
    destruct (decide (key = "executionTimeout" ∧ _)); [done|].
    intros Hdefault. by apply Hno.
  - intros v. rewrite cleanSettings_lookup.
    destruct (decide ("executionTimeout" ∈ keysAllowingDefault ∧ _)); [done|].
    destruct (decide ("executionTimeout" = "executionTimeout" ∧ _)) as [|Hno]; [done|].
    intros Hv. rewrite Hv in Hno. cbn in Hno.
    destruct (value_eqb v (executionsTimeout env)); [|done]. by destruct Hno.
Qed.

Lemma rollbackPatch_settings (stored : WorkflowEntity) :
  rollbackPatch stored !! "settings" = None.
Proof.
  unfold rollbackPatch. rewrite lookup_insert_ne by done.
  destruct (stored !! "versionId"); [by rewrite lookup_singleton_ne|done].
Qed.

Lemma save_writes_clean (workflow : WorkflowEntity) workflowId :
  keeps (callsAll (writesCleanSettings env)) (save env workflow workflowId).
Proof.
  unfold save. cbv zeta.
  apply keeps_bind_ok
    with (Q := fun saved : WorkflowEntity =>
                 saved !! "settings" = withCleanSettings env workflow !! "settings");
    [apply _| | |].
  - unfold_service. keeps_steps ltac:(calls_leaf ltac:(exact I)).
  - intros w saved. destruct (truthy _); unfold_service; run_calls.
    + destruct (validateEntityThrows env _); run_calls; [discriminate|].
      intros [= <-]. by rewrite lookup_insert_ne.
    + by intros [= <-].
  - intros saved Hsettings.
    apply keeps_bind; [apply _| |intros _].
    + unfold_service. apply keeps_bind; [apply _| |intros _].
      * apply callsAll_emit. cbn. intros settings.
        rewrite ServiceProofs.pick_lookup; [|unfold persistedKeys; rewrite !elem_of_cons; auto 10].
        rewrite Hsettings. unfold withCleanSettings.
        destruct (workflow !! "settings") as [[| | | |o| |]|] eqn:Hw;
          rewrite ?lookup_insert_eq, ?Hw; intros [= <-].
        apply cleanSettings_cleaned.
      * keeps_steps ltac:(calls_leaf ltac:(exact I)).
    + apply keeps_ret. apply _.
Qed.

End Settings.

(** X4. Whatever its outcome, the settings that [update] hands to the
    workflow repository are cleaned: in every write, the settings hold
    ['DEFAULT'] under none of [timezone], [saveDataErrorExecution],
    [saveDataSuccessExecution], [saveManualExecutions] and
    [saveExecutionProgress], and their [executionTimeout], if any, is
    not the configured one. *)
Theorem update_writes_clean_settings env (user : User) (workflow : WorkflowEntity)
    (workflowId : string) (tagIds : option (list string)) (forceSave : option bool)
    (roles : option (list string)) (w : World) :
  ∃ evs,
    trace (update env user workflow workflowId tagIds forceSave roles w).2
    = (trace w ++ evs)%list
    ∧ ∀ id patch settings,
        WorkflowRepoUpdate id patch ∈ evs →
        patch !! "settings" = Some (FObject settings) →
        cleanedSettings env settings.
Proof.
  assert (keeps (callsAll (writesCleanSettings env))
            (update env user workflow workflowId tagIds forceSave roles)) as Hkeeps.
  { unfold update.
    keeps_steps ltac:(first
      [ apply save_writes_clean
      | progress unfold assignVersionId, beforeSave, tagsAndHistory, refetch, reactivate,
          broadcast, sharedWorkflowRepository_findOne, externalHooks_run,
          activeWorkflowRunner_remove, activeWorkflowRunner_add, workflowRepository_update,
          workflowRepository_findOne, workflowTagMappingRepository_delete,
          workflowTagMappingRepository_insert, workflowHistoryService_saveVersion, await,
          uuid_v4
      | apply callsAll_emit; cbn; first [exact I | intros settings Hsettings] ]).
    all: try (apply callsAll_modify; intros ?; reflexivity).
    by rewrite rollbackPatch_settings in Hsettings. }
  destruct (Hkeeps w) as (evs & Htrace & Hall). exists evs. split; [done|].
  intros id patch settings Hin. rewrite Forall_forall in Hall. apply (Hall _ Hin).
Qed.

(** X5. The settings that [update] writes, entry by entry: an entry that
    holds ['DEFAULT'] under one of the keys that allow it is dropped, as
    is an [executionTimeout] that is the configured one; every other entry
    of the incoming settings is written as it came. *)
Theorem cleanSettings_spec env (settings : IDataObject) (key : string) :
  (key ∈ keysAllowingDefault → settings !! key = Some (VStr "DEFAULT") →
   cleanSettings env settings !! key = None)
  ∧ (key = "executionTimeout" →
     value_eqb (default VUndefined (settings !! key)) (executionsTimeout env) = true →
     cleanSettings env settings !! key = None)
  ∧ (¬ (key ∈ keysAllowingDefault ∧ settings !! key = Some (VStr "DEFAULT")) →
     ¬ (key = "executionTimeout"
        ∧ value_eqb (default VUndefined (settings !! key)) (executionsTimeout env) = true) →
     cleanSettings env settings !! key = settings !! key).
Proof.
  rewrite cleanSettings_lookup. repeat split.
  - intros Hin Hdefault. by rewrite decide_True.
  - intros -> Htimeout. destruct (decide _); [done|]. by rewrite decide_True.
  - intros Hkept Hno. by rewrite !decide_False.
Qed.

(** ** The validation *)

Lemma withCleanSettings_lookup env (workflow : WorkflowEntity) key :
  key ≠ "settings" → withCleanSettings env workflow !! key = workflow !! key.
Proof.
  intros Hne. unfold withCleanSettings.
  destruct (workflow !! "settings") as [[]|]; try done. by rewrite lookup_insert_ne.
Qed.

(** X6. A workflow without a name, or with an empty one, is written
    without being validated: whatever the outcome of the call of [update],
    [validateEntity] is not called. *)
Theorem update_unnamed_not_validated env (user : User) (workflow : WorkflowEntity)
    (workflowId : string) (tagIds : option (list string)) (forceSave : option bool)
    (roles : option (list string)) (w : World) :
  truthy (workflow !! "name") = false →
  ∃ evs,
    trace (update env user workflow workflowId tagIds forceSave roles w).2
    = (trace w ++ evs)%list
    ∧ ∀ entity, ValidateEntity entity ∉ evs.
Proof.
  intros Hname.
  assert (keeps (callsAll notValidation)
            (update env user workflow workflowId tagIds forceSave roles)) as Hkeeps.
  { unfold update.
    apply keeps_bind; [apply _| |intros shared].
    { unfold_service. keeps_steps ltac:(calls_leaf ltac:(exact I)). }
    destruct shared as [shared|]; [|keeps_steps ltac:(calls_leaf ltac:(exact I))].
    cbv zeta. destruct (versionConflict _ _ _); [apply keeps_throw; apply _|].
    apply keeps_bind_ok
      with (Q := fun a : WorkflowEntity => a !! "name" = workflow !! "name");
      [apply _| | |].
    { unfold_service. keeps_steps ltac:(calls_leaf ltac:(exact I)). }
    { intros w0 a.
      destruct (ServiceProofs.assignVersionId_spec env user workflow workflowId w0)
        as (evs & _ & -> & _).
      intros [= <-]. unfold versioned.
      destruct (changesVersion workflow); [by rewrite lookup_insert_ne|done]. }
    intros versioned Hversioned.
    apply keeps_bind_ok
      with (Q := fun a : WorkflowEntity => a !! "name" = workflow !! "name");
      [apply _| | |].
    { unfold_service. keeps_steps ltac:(calls_leaf ltac:(exact I)). }
    { intros w0 a.
      destruct (ServiceProofs.beforeSave_spec env versioned workflowId
                  (sharedWorkflow_workflow shared) w0) as (evs & _ & _ & _ & Hcase).
      destruct (externalHookThrows env "workflow.update").
      - destruct Hcase as [-> _]. discriminate.
      - destruct Hcase as [-> _]. intros [= <-].
        by rewrite !ServiceProofs.onNodes_lookup. }
    intros readied Hreadied.
    apply keeps_bind; [apply _| |intros saved].
    { unfold save. cbv zeta.
      rewrite withCleanSettings_lookup, Hreadied, Hname by done.
      unfold_service. keeps_steps ltac:(calls_leaf ltac:(exact I)). }
    unfold_service. keeps_steps ltac:(calls_leaf ltac:(exact I)). }
  destruct (Hkeeps w) as (evs & Htrace & Hall). exists evs. split; [done|].
  intros entity Hin. rewrite Forall_forall in Hall. apply (Hall _ Hin).
Qed.

(** The property for alice's update that only deactivates [wf1]: built
    on the stored version, it passes the version check and is written,
    without a validation. *)
Lemma update_unnamed_not_validated_witness :
  ∃ evs,
    trace (update quietEnv alice unnamedUpdate "wf1" None None None sampleWorld).2 = evs
    ∧ (∀ entity, ValidateEntity entity ∉ evs)
    ∧ steps evs = [PermissionLookup; RegistryRemoval; Persistence].
Proof.
  destruct (update_unnamed_not_validated quietEnv alice unnamedUpdate "wf1" None None None
              sampleWorld eq_refl) as (evs & Htrace & Hnone).
  exists evs. split; [exact Htrace|]. split; [exact Hnone|].
  change (trace sampleWorld ++ evs)%list with evs in Htrace. rewrite <- Htrace.
  vm_compute. reflexivity.
Defined.

(** ** The tag mappings *)

Lemma same_emit {X} (f : World → X) ev :
  (∀ w l, f (set_trace l w) = f w) → keeps (sameOn f) (emit ev).
Proof. intros Hf w. unfold sameOn. cbn. apply Hf. Qed.

Ltac same_leaf :=
  first
    [ apply same_emit; reflexivity
    | apply keeps_modify; intros ?; reflexivity ].

Lemma afterSave_keeps_mappings env workflowId tagIds stored :
  keeps (sameOn workflowTagMappingRepository) (afterSave env workflowId tagIds stored).
Proof.
  unfold afterSave, refetch, reactivate, broadcast. unfold_service. keeps_steps same_leaf.
Qed.

(** X7. Whatever its outcome, a call of [update] that is given no tag ids,
    or that runs with the workflow tags disabled, leaves the tag mappings
    of all workflows as they were. *)
Theorem update_keeps_tags env (user : User) (workflow : WorkflowEntity)
    (workflowId : string) (tagIds : option (list string)) (forceSave : option bool)
    (roles : option (list string)) (w : World) :
  tagIds = None ∨ workflowTagsDisabled env = true →
  workflowTagMappingRepository (update env user workflow workflowId tagIds forceSave roles w).2
  = workflowTagMappingRepository w.
Proof.
  intros Hno. revert w.
  change (keeps (sameOn workflowTagMappingRepository)
            (update env user workflow workflowId tagIds forceSave roles)).
  unfold_service. destruct Hno as [->|Hdisabled].
  - keeps_steps same_leaf.
  - rewrite Hdisabled. cbn [negb]. keeps_steps same_leaf.
Qed.

(** The property for alice's update of [wf1] without tag ids, in a
    world where [wf1] and another workflow have tags. *)
Lemma update_keeps_tags_witness :
  workflowTagMappingRepository
    (update quietEnv alice currentUpdate "wf1" None None None taggedWorld).2
  = [("tag1", "wf1"); ("tag9", "wf2")].
Proof.
  rewrite (update_keeps_tags quietEnv alice currentUpdate "wf1" None None None taggedWorld);
    [reflexivity|]. left. reflexivity.
Defined.

(** X8. A call of [update] with tag ids, the workflow tags being enabled,
    that gets past the write of the workflow (it passes the two checks and
    is stopped neither by the [workflow.update] hook nor by the validation
    or the write) and whose deletion and insertion of tag mappings do not
    throw: whatever happens afterwards, the tag mappings of the workflow
    are then exactly the given tag ids, in the order given and after the
    mappings of the other workflows, which are kept. *)
Theorem update_replaces_tags env (user : User) (workflow : WorkflowEntity)
    (workflowId : string) (tagIds : list string) (forceSave : option bool)
    (roles : option (list string)) (w : World) row stored
    (Haccess : List.find (whereClause env user "workflow:update" workflowId roles)
                 (sharedWorkflowRepository w) = Some row)
    (Hstored : workflowRepository w !! rowWorkflowId row = Some stored)
    (Hcurrent : versionConflict forceSave workflow stored = false)
    (Hhook : externalHookThrows env "workflow.update" = None)
    (Hsave : saveError env workflowId
               (onNodes (addNodeIds env)
                  (onNodes (replaceInvalidCredentials env)
                     (versioned env (uuidCount w) workflow))) = None)
    (Henabled : workflowTagsDisabled env = false)
    (Hdelete : rejects env (TagMappingDelete workflowId) = None)
    (Hinsert : rejects env (TagMappingInsert workflowId tagIds) = None) :
  workflowTagMappingRepository
    (update env user workflow workflowId (Some tagIds) forceSave roles w).2
  = (List.filter (fun m : string * string => ofOther workflowId m.2)
       (workflowTagMappingRepository w)
     ++ map (fun tagId => (tagId, workflowId)) tagIds)%list.
Proof.
  destruct (ServiceProofs.update_written env user workflow workflowId (Some tagIds) forceSave
              roles w row stored Haccess Hstored Hcurrent Hhook Hsave)
    as (w3 & evs & -> & _ & _ & _ & _ & _ & Hmappings & _).
  set (saved := prepared env _).
  destruct (ServiceProofs.tagsAndHistory_spec env user saved workflowId (Some tagIds) stored w3)
    as (evs' & _ & _ & _ & _ & _ & Hcase).
  unfold tagsError in Hcase. rewrite Henabled, Hdelete, Hinsert in Hcase.
  destruct Hcase as (Hmappings' & _ & Houtcome).
  unfold afterWrite, bind.
  destruct (tagsAndHistory env user saved workflowId (Some tagIds) stored w3) as [outcome w4].
  cbn [fst snd] in *.
  destruct (historyError env user saved workflowId stored); subst outcome; cbn [snd].
  - by rewrite Hmappings', Hmappings.
  - rewrite (afterSave_keeps_mappings env workflowId (Some tagIds) stored w4).
    by rewrite Hmappings', Hmappings.
Qed.

(** The property for alice's update of [wf1] with two tag ids, in a
    world where [wf1] and another workflow have tags. *)
Lemma update_replaces_tags_witness :
  workflowTagMappingRepository
    (update quietEnv alice currentUpdate "wf1" (Some ["tag2"; "tag1"]) None None
       taggedWorld).2
  = [("tag9", "wf2"); ("tag2", "wf1"); ("tag1", "wf1")].
Proof.
  rewrite (update_replaces_tags quietEnv alice currentUpdate "wf1" ["tag2"; "tag1"] None
             None taggedWorld aliceOwnsWf1 storedWorkflow eq_refl eq_refl eq_refl eq_refl
             eq_refl eq_refl eq_refl eq_refl).
  reflexivity.
Defined.

(** The insertion of the tag mappings throwing: the call throws its
    error after the deletion, so that [wf1] is left without a tag, and
    written. *)
Example update_replaces_tags_sample :
  let after :=
    update (withFailingInsert quietEnv) alice currentUpdate "wf1" (Some ["tag2"; "tag1"])
      None None taggedWorld in
  after.1 = Throw databaseDown
  ∧ workflowTagMappingRepository after.2 = [("tag9", "wf2")]
  ∧ (workflowRepository after.2 !! "wf1") ≫= (.!! "name")
    = Some (FValue (VStr "Orders (edited)"))
  ∧ steps (trace after.2) = [PermissionLookup; RegistryRemoval; Persistence].
Proof. cbv zeta. repeat split; vm_compute; reflexivity. Qed.

(** ** What a call that returns has stored *)

(** A call of [update] that returns was stopped by nothing, and the
    row of the workflow is, at its end, the row it had with the persisted
    properties of the prepared workflow written over it. *)
Lemma update_returns_stored env user (workflow : WorkflowEntity) workflowId tagIds
    forceSave roles (w : World) result w' :
  update env user workflow workflowId tagIds forceSave roles w = (Ok result, w') →
  workflowRepository w'
  = alter (fun entity =>
             pick (prepared env (versioned env (uuidCount w) workflow)) persistedKeys
             ∪ entity)
      workflowId (workflowRepository w).
Proof.
  intros Hrun. unfold update in Hrun. unfold bind at 1 in Hrun.
  unfold sharedWorkflowRepository_findOne in Hrun. run_calls_in Hrun.
  destruct (List.find _ (sharedWorkflowRepository w)) as [row|] eqn:Hrow; [|discriminate].
  destruct (workflowRepository w !! rowWorkflowId row) as [stored|] eqn:Hstored;
    [|discriminate].
  cbn [sharedWorkflow_workflow] in Hrun.
  destruct (versionConflict forceSave workflow stored) eqn:Hconflict; [discriminate|].
  set (w0 := set_trace _ w) in Hrun.
  change (uuidCount w) with (uuidCount w0).
  change (workflowRepository w) with (workflowRepository w0).
  destruct (ServiceProofs.assignVersionId_spec env user workflow workflowId w0)
    as (evs1 & _ & Hr1 & _ & _ & Hst1).
  destruct (assignVersionId env user workflow workflowId w0) as [r1 w1].
  cbn [fst snd] in *. subst r1.
  destruct (ServiceProofs.beforeSave_spec env (versioned env (uuidCount w0) workflow)
              workflowId stored w1) as (evs2 & _ & _ & Hst2 & Hcase2).
  destruct (beforeSave env _ workflowId stored w1) as [r2 w2].
  cbn [fst snd] in *.
  destruct (externalHookThrows env "workflow.update"); [by destruct Hcase2 as [-> _]|].
  destruct Hcase2 as [-> _].
  match type of Hrun with context [save env ?wf _ _] => set (workflow2 := wf) in * end.
  destruct (ServiceProofs.save_spec env workflow2 workflowId w2)
    as (evs3 & _ & _ & _ & _ & _ & Hcase3).
  destruct (save env workflow2 workflowId w2) as [r3 w3'].
  cbn [fst snd] in *.
  destruct (saveError env workflowId workflow2); [by destruct Hcase3 as [-> _]|].
  destruct Hcase3 as (-> & _ & Hrepo3' & _).
  destruct (ServiceProofs.tagsAndHistory_spec env user (finalised env workflow2) workflowId
              tagIds stored w3') as (evs3' & _ & _ & Hrepo3 & _ & _ & Hcase3').
  destruct (tagsAndHistory env user (finalised env workflow2) workflowId tagIds stored w3')
    as [r3' w3].
  cbn [fst snd] in *.
  destruct (tagsError env workflowId tagIds); [by destruct Hcase3' as [-> _]|].
  destruct Hcase3' as (_ & _ & Hr3').
  destruct (historyError env user (finalised env workflow2) workflowId stored);
    subst r3'; [done|].
  rewrite Hrepo3' in Hrepo3.
  destruct (ServiceProofs.refetch_spec env workflowId tagIds w3)
    as (evs4 & _ & _ & _ & Hrepo4 & _ & _ & Hcase4).
  destruct (refetch env workflowId tagIds w3) as [r4 w4].
  cbn [fst snd] in *.
  destruct (loadWorkflow workflowId (refetchRelations env) w3) as [raw|] eqn:Hraw;
    [|by destruct Hcase4 as [message ->]].
  destruct Hcase4 as [_ Hcase4].
  destruct (externalHookThrows env "workflow.afterUpdate"); [by subst r4|]. subst r4.
  destruct (ServiceProofs.reactivate_spec env workflowId stored (sortedTags env tagIds raw) w4)
    as (evs5 & _ & _ & _ & _ & Hcase5).
  destruct (reactivate env workflowId stored (sortedTags env tagIds raw) w4) as [r5 w5].
  cbn [fst snd] in *.
  assert (r5 = Ok tt ∧ workflowRepository w5 = workflowRepository w4) as (-> & Hrepo5).
  { destruct (truthy (sortedTags env tagIds raw !! "active")); [|by destruct Hcase5 as (? & _ & ? & _)].
    destruct (activationError env workflowId stored); [|by destruct Hcase5 as (? & _ & ? & _)].
    destruct Hcase5 as [_ Hcase5].
    destruct (repositoryUpdateThrows env workflowId (rollbackPatch stored));
      by destruct Hcase5 as [-> _]. }
  destruct (ServiceProofs.broadcast_spec env workflowId stored w5)
    as (evs6 & _ & Hr6 & _ & _ & Hst6).
  destruct (broadcast env workflowId stored w5) as [r6 w6].
  cbn [fst snd] in *. subst r6. run_calls_in Hrun.
  apply ServiceProofs.stores_eq in Hst1 as (Hrepo1 & _).
  apply ServiceProofs.stores_eq in Hst2 as (Hrepo2 & _).
  apply ServiceProofs.stores_eq in Hst6 as (Hrepo6 & _).
  injection Hrun as _ <-.
  rewrite Hrepo6, Hrepo5, Hrepo4, Hrepo3, Hrepo2, Hrepo1. reflexivity.
Qed.

(** X9. A call of [update] that returns gives back what it has stored: for
    each of [name], [active], [connections], [staticData] and [pinData],
    the entity returned and the row of the workflow at the end of the call
    hold the value of the payload if the payload has the property, and the
    value the row had before the call otherwise. *)
Theorem update_round_trip env (user : User) (workflow : WorkflowEntity)
    (workflowId : string) (tagIds : option (list string)) (forceSave : option bool)
    (roles : option (list string)) (w : World) result w' :
  update env user workflow workflowId tagIds forceSave roles w = (Ok result, w') →
  ∃ before after,
    workflowRepository w !! workflowId = Some before
    ∧ workflowRepository w' !! workflowId = Some after
    ∧ ∀ key,
        key ∈ ["name"; "active"; "connections"; "staticData"; "pinData"] →
        result !! key = after !! key
        ∧ after !! key
          = match workflow !! key with
            | Some v => Some v
            | None => before !! key
            end.
Proof.
  intros Hrun.
  pose proof (update_returns_stored _ _ _ _ _ _ _ _ _ _ Hrun) as Hrepo.
  destruct (ServiceProofs.update_returns _ _ _ _ _ _ _ _ _ _ Hrun)
    as (row & stored & evs & raw & _ & _ & _ & _ & _ & Hraw & -> & _).
  pose proof Hraw as Hloaded. unfold loadWorkflow in Hloaded.
  destruct (workflowRepository w' !! workflowId) as [after|] eqn:Hafter; [|discriminate].
  clear Hloaded. rewrite Hrepo, lookup_alter_eq in Hafter.
  destruct (workflowRepository w !! workflowId) as [before|] eqn:Hbefore; [|discriminate].
  injection Hafter as <-. exists before. eexists. split; [done|]. split; [done|].
  intros key Hkey.
  assert (key ≠ "tags" ∧ key ≠ "nodes" ∧ key ≠ "settings" ∧ key ≠ "updatedAt"
          ∧ key ≠ "versionId" ∧ key ∈ persistedKeys) as (Htags & Hn & Hs & Hu & Hv & Hp).
  { unfold persistedKeys. rewrite !elem_of_cons, elem_of_nil in Hkey.
    rewrite !elem_of_cons. intuition (subst; done || auto 10). }
  split.
  - rewrite ServiceProofs.sortedTags_lookup by done.
    eapply ServiceProofs.loadWorkflow_lookup; [|exact Hraw|done].
    by rewrite Hrepo, lookup_alter_eq, Hbefore.
  - rewrite lookup_union, ServiceProofs.pick_lookup by done.
    rewrite ServiceProofs.prepared_lookup by done.
    assert (versioned env (uuidCount w) workflow !! key = workflow !! key) as ->.
    { unfold versioned. destruct (changesVersion workflow); [by rewrite lookup_insert_ne|done]. }
    destruct (workflow !! key), (before !! key); done.
Qed.

Lemma update_round_trip_witness :
  ∃ before after,
    workflowRepository sampleWorld !! "wf1" = Some before
    ∧ workflowRepository
        (update quietEnv alice currentUpdate "wf1" None None None sampleWorld).2 !! "wf1"
      = Some after
    ∧ after !! "name" = Some (FValue (VStr "Orders (edited)"))
    ∧ after !! "active" = before !! "active".
Proof.
  destruct (update_round_trip quietEnv alice currentUpdate "wf1" None None None sampleWorld
              (match (update quietEnv alice currentUpdate "wf1" None None None sampleWorld).1
               with Ok result => result | Throw _ => ∅ end)
              (update quietEnv alice currentUpdate "wf1" None None None sampleWorld).2)
    as (before & after & Hbefore & Hafter & Hkeys).
  { vm_compute. reflexivity. }
  exists before, after. split; [exact Hbefore|]. split; [exact Hafter|].
  split.
  - destruct (Hkeys "name") as [_ ->]; [rewrite !elem_of_cons; auto|]. reflexivity.
  - destruct (Hkeys "active") as [_ ->]; [rewrite !elem_of_cons; auto|]. reflexivity.
Defined.

(** ** The active workflows in memory *)

Lemma keeps_run (R : World → World → Prop) {A} (m : M A) (w : World) r w1 :
  keeps R m → m w = (r, w1) → R w w1.
Proof. intros Hkeeps Hrun. specialize (Hkeeps w). by rewrite Hrun in Hkeeps. Qed.

Lemma beforeSave_registry env (workflow : WorkflowEntity) workflowId stored (w : World) a w1 :
  beforeSave env workflow workflowId stored w = (Ok a, w1) →
  activeWorkflows w1
  = (if truthy (stored !! "active") then activeWorkflows w ∖ {[workflowId]}
     else activeWorkflows w).
Proof.
  unfold beforeSave. run_calls. destruct (externalHookThrows env _); run_calls; [discriminate|].
  destruct (truthy (stored !! "active")); run_calls; by intros [= _ <-].
Qed.

Lemma refetch_cell env workflowId tagIds (w : World) a w1 :
  refetch env workflowId tagIds w = (Ok a, w1) →
  updatedWorkflow w1 = Some a ∧ activeWorkflows w1 = activeWorkflows w.
Proof.
  unfold refetch. run_calls.
  destruct (loadWorkflow workflowId _ _); run_calls; [|discriminate].
  destruct (externalHookThrows env _); run_calls; [discriminate|]. by intros [= <- <-].
Qed.

Lemma reactivate_registry env workflowId stored refetched (w : World) w1 :
  reactivate env workflowId stored refetched w = (Ok tt, w1) →
  updatedWorkflow w1 = updatedWorkflow w
  ∧ activeWorkflows w1
    = (if truthy (refetched !! "active") then {[workflowId]} ∪ activeWorkflows w
       else activeWorkflows w).
Proof.
  unfold reactivate. destruct (truthy (refetched !! "active")); run_calls;
    [|by intros [= <-]].
  destruct (externalHookThrows env _); run_calls.
  { destruct (repositoryUpdateThrows env _ _); run_calls; discriminate. }
  destruct (activeAddThrows env _ _); run_calls; [|by intros [= <-]].
  destruct (repositoryUpdateThrows env _ _); run_calls; discriminate.
Qed.

Lemma sameOn_both (w w' : World) :
  sameOn (fun w => (activeWorkflows w, updatedWorkflow w)) w w' →
  activeWorkflows w' = activeWorkflows w ∧ updatedWorkflow w' = updatedWorkflow w.
Proof. unfold sameOn. by intros [= -> ->]. Qed.

(** X10. After a call of [update] that returns, the active workflows
    in memory agree with what is returned: a workflow returned as active
    is among them; a workflow that was stored as active and is returned as
    not active is not; and for a workflow neither stored nor returned as
    active they are as before the call. *)
Theorem update_registry env (user : User) (workflow : WorkflowEntity)
    (workflowId : string) (tagIds : option (list string)) (forceSave : option bool)
    (roles : option (list string)) (w : World) result w' :
  update env user workflow workflowId tagIds forceSave roles w = (Ok result, w') →
  ∃ row stored,
    List.find (whereClause env user "workflow:update" workflowId roles)
      (sharedWorkflowRepository w) = Some row
    ∧ workflowRepository w !! rowWorkflowId row = Some stored
    ∧ (truthy (result !! "active") = true → workflowId ∈ activeWorkflows w')
    ∧ (truthy (result !! "active") = false → truthy (stored !! "active") = true →
       workflowId ∉ activeWorkflows w')
    ∧ (truthy (result !! "active") = false → truthy (stored !! "active") = false →
       activeWorkflows w' = activeWorkflows w).
Proof.
  intros Hrun. unfold update in Hrun. unfold bind at 1 in Hrun.
  unfold sharedWorkflowRepository_findOne in Hrun. run_calls_in Hrun.
  destruct (List.find _ (sharedWorkflowRepository w)) as [row|] eqn:Hrow; [|discriminate].
  destruct (workflowRepository w !! rowWorkflowId row) as [stored|] eqn:Hstored;
    [|discriminate].
  cbn [sharedWorkflow_workflow] in Hrun.
  destruct (versionConflict forceSave workflow stored); [discriminate|].
  set (w0 := set_trace _ w) in Hrun.
  destruct (assignVersionId env user workflow workflowId w0) as [[a1|e1] w1] eqn:H1;
    [|discriminate].
  destruct (beforeSave env a1 workflowId stored w1) as [[a2|e2] w2] eqn:H2; [|discriminate].
  destruct (save env a2 workflowId w2) as [[a3|e3] w3'] eqn:H3; [|discriminate].
  destruct (tagsAndHistory env user a3 workflowId tagIds stored w3') as [[[]|e3'] w3] eqn:H3';
    [|discriminate].
  destruct (refetch env workflowId tagIds w3) as [[a4|e4] w4] eqn:H4; [|discriminate].
  destruct (reactivate env workflowId stored a4 w4) as [[[]|e5] w5] eqn:H5; [|discriminate].
  destruct (broadcast env workflowId stored w5) as [[[]|e6] w6] eqn:H6; [|discriminate].
  injection Hrun as Hresult <-.
  assert (activeWorkflows w1 = activeWorkflows w) as Hw1.
  { eapply (keeps_run (sameOn activeWorkflows)) in H1; [exact H1|].
    unfold_service. keeps_steps same_leaf. }
  apply beforeSave_registry in H2.
  assert (activeWorkflows w3' = activeWorkflows w2) as Hw3'.
  { eapply (keeps_run (sameOn activeWorkflows)) in H3; [exact H3|].
    unfold_service. keeps_steps same_leaf. }
  assert (activeWorkflows w3 = activeWorkflows w3') as Hw3.
  { eapply (keeps_run (sameOn activeWorkflows)) in H3'; [exact H3'|].
    unfold_service. keeps_steps same_leaf. }
  apply refetch_cell in H4 as [Hcell4 Hw4].
  apply reactivate_registry in H5 as [Hcell5 Hw5].
  assert (activeWorkflows w6 = activeWorkflows w5 ∧ updatedWorkflow w6 = updatedWorkflow w5)
    as [Hw6 Hcell6].
  { apply sameOn_both.
    eapply (keeps_run (sameOn (fun w => (activeWorkflows w, updatedWorkflow w)))) in H6;
      [exact H6|].
    unfold_service. keeps_steps same_leaf. }
  rewrite Hcell6, Hcell5, Hcell4 in Hresult. cbn in Hresult. subst a4.
  exists row, stored. split; [done|]. split; [done|].
  rewrite Hw6, Hw5, Hw4, Hw3, Hw3', H2, Hw1.
  destruct (truthy (result !! "active")), (truthy (stored !! "active"));
    repeat split; try done; intros _; try intros _;
    rewrite ?elem_of_union, ?elem_of_difference, ?elem_of_singleton; tauto.
Qed.

(** The property for alice's update of [wf1], which stays active. *)
Lemma update_registry_witness :
  "wf1" ∈ activeWorkflows
            (update quietEnv alice currentUpdate "wf1" None None None sampleWorld).2.
Proof.
  destruct (update_registry quietEnv alice currentUpdate "wf1" None None None sampleWorld
              (match (update quietEnv alice currentUpdate "wf1" None None None sampleWorld).1
               with Ok result => result | Throw _ => ∅ end)
              (update quietEnv alice currentUpdate "wf1" None None None sampleWorld).2)
    as (row & stored & _ & _ & Hactive & _).
  { vm_compute. reflexivity. }
  apply Hactive. vm_compute. reflexivity.
Defined.

(** ** A call stopped before the write *)

Lemma sameOn_tables (w w' : World) :
  sameOn (fun w => (workflowRepository w, workflowTagMappingRepository w, activeWorkflows w))
    w w' →
  workflowRepository w' = workflowRepository w
  ∧ workflowTagMappingRepository w' = workflowTagMappingRepository w
  ∧ activeWorkflows w' = activeWorkflows w.
Proof. unfold sameOn. by intros [= -> -> ->]. Qed.

Lemma beforeSave_vetoed env (workflow : WorkflowEntity) workflowId stored (w : World) e :
  externalHookThrows env "workflow.update" = Some e →
  (beforeSave env workflow workflowId stored w).1 = Throw e
  ∧ workflowRepository (beforeSave env workflow workflowId stored w).2 = workflowRepository w
  ∧ workflowTagMappingRepository (beforeSave env workflow workflowId stored w).2
    = workflowTagMappingRepository w
  ∧ activeWorkflows (beforeSave env workflow workflowId stored w).2 = activeWorkflows w.
Proof. intros Hhook. unfold beforeSave. run_calls. rewrite Hhook. by run_calls. Qed.

Lemma beforeSave_passed env (workflow : WorkflowEntity) workflowId stored (w : World) :
  externalHookThrows env "workflow.update" = None →
  (beforeSave env workflow workflowId stored w).1
  = Ok (onNodes (addNodeIds env) (onNodes (replaceInvalidCredentials env) workflow))
  ∧ workflowRepository (beforeSave env workflow workflowId stored w).2 = workflowRepository w
  ∧ workflowTagMappingRepository (beforeSave env workflow workflowId stored w).2
    = workflowTagMappingRepository w
  ∧ activeWorkflows (beforeSave env workflow workflowId stored w).2
    = (if truthy (stored !! "active") then activeWorkflows w ∖ {[workflowId]}
       else activeWorkflows w).
Proof.
  intros Hhook. unfold beforeSave. run_calls. rewrite Hhook. run_calls.
  by destruct (truthy (stored !! "active")); run_calls.
Qed.

Lemma save_fails env (workflow : WorkflowEntity) workflowId (w : World) e :
  saveError env workflowId workflow = Some e →
  (save env workflow workflowId w).1 = Throw e
  ∧ workflowRepository (save env workflow workflowId w).2 = workflowRepository w
  ∧ workflowTagMappingRepository (save env workflow workflowId w).2
    = workflowTagMappingRepository w
  ∧ activeWorkflows (save env workflow workflowId w).2 = activeWorkflows w.
Proof.
  unfold saveError, save, finalised.
  destruct (truthy (withCleanSettings env workflow !! "name")); run_calls.
  - destruct (validateEntityThrows env _); run_calls; [by intros [= ->]|].
    intros Hwrite. rewrite Hwrite. by run_calls.
  - intros Hwrite. rewrite Hwrite. by run_calls.
Qed.

(** X29. A call of [update] that passes the two checks and is then
    stopped before it has written the workflow. Stopped by the
    [workflow.update] hook, it throws the hook's error and leaves the
    workflow repository, the tag mappings and the active workflows in
    memory as they were. Stopped by the validation or by the write, it
    throws that error and leaves the workflow repository and the tag
    mappings as they were; but a workflow stored as active has by then
    been taken out of the active workflows in memory, and it is not put
    back. *)
Theorem update_stopped_before_write env (user : User) (workflow : WorkflowEntity)
    (workflowId : string) (tagIds : option (list string)) (forceSave : option bool)
    (roles : option (list string)) (w : World) row stored
    (Haccess : List.find (whereClause env user "workflow:update" workflowId roles)
                 (sharedWorkflowRepository w) = Some row)
    (Hstored : workflowRepository w !! rowWorkflowId row = Some stored)
    (Hcurrent : versionConflict forceSave workflow stored = false) :
  let readied :=
    onNodes (addNodeIds env)
      (onNodes (replaceInvalidCredentials env) (versioned env (uuidCount w) workflow)) in
  let after := update env user workflow workflowId tagIds forceSave roles w in
  match externalHookThrows env "workflow.update", saveError env workflowId readied with
  | Some e, _ =>
      after.1 = Throw e
      ∧ workflowRepository after.2 = workflowRepository w
      ∧ workflowTagMappingRepository after.2 = workflowTagMappingRepository w
      ∧ activeWorkflows after.2 = activeWorkflows w
  | None, Some e =>
      after.1 = Throw e
      ∧ workflowRepository after.2 = workflowRepository w
      ∧ workflowTagMappingRepository after.2 = workflowTagMappingRepository w
      ∧ activeWorkflows after.2
        = (if truthy (stored !! "active") then activeWorkflows w ∖ {[workflowId]}
           else activeWorkflows w)
  | None, None => True
  end.
Proof.
  intros readied after.
  assert (∃ w1,
            after
            = bind (beforeSave env (versioned env (uuidCount w) workflow) workflowId stored)
                (fun workflow =>
                   bind (save env workflow workflowId)
                     (fun workflow =>
                        afterWrite env user workflow workflowId tagIds stored)) w1
            ∧ workflowRepository w1 = workflowRepository w
            ∧ workflowTagMappingRepository w1 = workflowTagMappingRepository w
            ∧ activeWorkflows w1 = activeWorkflows w) as (w1 & -> & Hrepo1 & Hmap1 & Hactive1).
  { subst after. unfold update. unfold bind at 1.
    rewrite (ServiceProofs.findOne_found _ _ _ _ _ _ Haccess Hstored).
    cbn [sharedWorkflow_workflow]. rewrite Hcurrent.
    set (w0 := set_trace _ w). change (uuidCount w) with (uuidCount w0).
    destruct (ServiceProofs.assignVersionId_spec env user workflow workflowId w0)
      as (evs1 & _ & Hvalue1 & _).
    assert (sameOn (fun w => (workflowRepository w, workflowTagMappingRepository w,
                              activeWorkflows w))
              w0 (assignVersionId env user workflow workflowId w0).2) as Hsame.
    { apply (keeps_run _ (assignVersionId env user workflow workflowId) w0
               (assignVersionId env user workflow workflowId w0).1);
        [|by destruct (assignVersionId env user workflow workflowId w0)].
      unfold_service. keeps_steps same_leaf. }
    apply sameOn_tables in Hsame. unfold bind at 1.
    destruct (assignVersionId env user workflow workflowId w0) as [r1 w1].
    cbn [fst snd] in *. subst r1. exists w1. split; [reflexivity|exact Hsame]. }
  fold readied.
  destruct (externalHookThrows env "workflow.update") as [e|] eqn:Hhook.
  - destruct (beforeSave_vetoed env (versioned env (uuidCount w) workflow) workflowId stored
                w1 e Hhook) as (Hvalue2 & Hrepo2 & Hmap2 & Hactive2).
    unfold bind. destruct (beforeSave env _ workflowId stored w1) as [r2 w2].
    cbn [fst snd] in *. subst r2. cbn [fst snd]. repeat split; congruence.
  - destruct (saveError env workflowId readied) as [e|] eqn:Hsave; [|done].
    destruct (beforeSave_passed env (versioned env (uuidCount w) workflow) workflowId stored
                w1 Hhook) as (Hvalue2 & Hrepo2 & Hmap2 & Hactive2).
    unfold bind. destruct (beforeSave env _ workflowId stored w1) as [r2 w2].
    cbn [fst snd] in *. subst r2. fold readied.
    destruct (save_fails env readied workflowId w2 e Hsave)
      as (Hvalue3 & Hrepo3 & Hmap3 & Hactive3).
    destruct (save env readied workflowId w2) as [r3 w3].
    cbn [fst snd] in *. subst r3. cbn [fst snd]. rewrite <- Hactive1.
    repeat split; congruence.
Qed.

(** The property for alice's update of [wf1] when the write fails:
    [wf1] is still stored as active, and no longer among the active
    workflows in memory. *)
Lemma update_stopped_before_write_witness :
  (update (withFailingWrites quietEnv) alice currentUpdate "wf1" None None None sampleWorld).1
  = Throw databaseDown
  ∧ workflowRepository
      (update (withFailingWrites quietEnv) alice currentUpdate "wf1" None None None
         sampleWorld).2
    = workflowRepository sampleWorld
  ∧ "wf1" ∉ activeWorkflows
              (update (withFailingWrites quietEnv) alice currentUpdate "wf1" None None None
                 sampleWorld).2.
Proof.
  pose proof (update_stopped_before_write (withFailingWrites quietEnv) alice currentUpdate
                "wf1" None None None sampleWorld aliceOwnsWf1 storedWorkflow eq_refl eq_refl
                eq_refl) as Hstopped.
  cbv zeta in Hstopped.
  change (saveError (withFailingWrites quietEnv) "wf1" _) with (Some databaseDown)
    in Hstopped.
  change (externalHookThrows (withFailingWrites quietEnv) "workflow.update")
    with (@None error) in Hstopped.
  cbv iota in Hstopped. destruct Hstopped as (Hthrown & Hrepository & _ & Hactive).
  split; [exact Hthrown|]. split; [exact Hrepository|].
  rewrite Hactive. change (truthy (storedWorkflow !! "active")) with true. cbv iota.
  rewrite elem_of_difference, elem_of_singleton. tauto.
Defined.

End ServiceFrames.

(* ===================================================================== *)
(** * The workflow service: deletion, static data, sharing *)
(* ===================================================================== *)

Module ServiceMore.
Import Js N8n WorkflowService Terms.

(** ** delete *)

(** The [{ workflowId, executionId }] pairs that [delete] collects. *)
Lemma idsForDeletion_spec workflowId (executions : list (string * string)) executionId :
  (executionId, workflowId) ∈ executions →
  (workflowId, executionId)
  ∈ map (fun row : string * string => (workflowId, row.1))
      (List.filter (fun row : string * string => String.eqb row.2 workflowId) executions).
Proof.
  intros Hin. apply list_elem_of_In, in_map_iff. exists (executionId, workflowId).
  split; [done|]. apply filter_In. split; [by apply list_elem_of_In|].
  cbn. apply String.eqb_refl.
Qed.

(** X11. [delete] called by a user with delete access. A call that
    returns has returned the stored workflow, and has made these calls,
    in this order: the [workflow.delete] hook, the look-up of the share,
    the removal from the active workflows if the workflow is stored as
    active, the look-up of the workflow's executions, the removal of the
    row, the removal of the binary data of these executions, and the two
    hooks that follow a deletion; the row is then gone, no binary data of
    these executions is left, and a workflow stored as active is no longer
    among the active workflows. A call in which the look-up of the
    executions or the removal of the row throws does not return, and
    leaves the row and the binary data as they were. *)
Theorem delete_removes env (user : User) (workflowId : string) (w : World) row stored
    (Haccess : List.find (whereClause env user "workflow:delete" workflowId (Some ["owner"]))
                 (sharedWorkflowRepository w) = Some row)
    (Hstored : workflowRepository w !! rowWorkflowId row = Some stored) :
  let after := delete env user workflowId w in
  (∀ returned, after.1 = Ok returned →
     returned = Some stored
     ∧ ∃ ids,
         trace after.2
         = (trace w
            ++ [ExternalHook "workflow.delete";
                SharedWorkflowFindOne "workflow:delete" workflowId]
            ++ (if truthy (stored !! "active") then [ActiveRemove workflowId] else [])
            ++ [ ExecutionFind workflowId; WorkflowRepoDelete workflowId;
                 BinaryDeleteMany ids; InternalHook "onWorkflowDeleted" workflowId;
                 ExternalHook "workflow.afterDelete" ])%list
         ∧ (∀ executionId,
              (executionId, workflowId) ∈ executionRepository w →
              (workflowId, executionId) ∈ ids)
         ∧ workflowRepository after.2 = base.delete workflowId (workflowRepository w)
         ∧ (∀ executionId,
              (executionId, workflowId) ∈ executionRepository w →
              (workflowId, executionId) ∉ binaryDataService after.2)
         ∧ (truthy (stored !! "active") = true → workflowId ∉ activeWorkflows after.2))
  ∧ (∀ e,
       rejects env (ExecutionFind workflowId) = Some e
       ∨ rejects env (WorkflowRepoDelete workflowId) = Some e →
       (∀ returned, after.1 ≠ Ok returned)
       ∧ workflowRepository after.2 = workflowRepository w
       ∧ binaryDataService after.2 = binaryDataService w).
Proof.
  intros after. subst after. unfold delete.
  unfold workflowRepository_delete, executionRepository_find, binaryDataService_deleteMany,
    await.
  run_calls.
  destruct (externalHookThrows env "workflow.delete") as [veto|]; run_calls.
  { split; [intros returned [=]|]. intros e _. by split; [intros returned [=]|]. }
  rewrite Haccess, Hstored. cbn [sharedWorkflow_workflow].
  destruct (truthy (stored !! "active")); run_calls;
    (destruct (rejects env (ExecutionFind workflowId)) as [e1|]; run_calls;
     [split; [intros returned [=]|]; intros e _; by split; [intros returned [=]|]|]);
    (destruct (rejects env (WorkflowRepoDelete workflowId)) as [e2|]; run_calls;
     [split; [intros returned [=]|]; intros e _; by split; [intros returned [=]|]|]);
    (split; [|by intros e [|]]);
    (destruct (rejects env (BinaryDeleteMany _)) as [e3|]; run_calls;
     [intros returned [=]|]);
    (destruct (externalHookThrows env "workflow.afterDelete") as [e4|]; run_calls;
     [intros returned [=]|]);
    intros returned [= <-]; (split; [done|]); eexists;
    (split; [trace_grows|]); (split; [intros executionId Hin; by apply idsForDeletion_spec|]);
    (split; [done|]); split.
  all: try (intros executionId Hin [_ Hkept%bool_decide_eq_true]%list_elem_of_In%filter_In;
            by apply Hkept, idsForDeletion_spec).
  all: try (intros _; rewrite elem_of_difference, elem_of_singleton; tauto).
  all: done.
Qed.

(** The property for alice's deletion of [wf1]. *)
Lemma delete_removes_witness :
  workflowRepository (delete quietEnv alice "wf1" sampleWorld).2 = ∅
  ∧ binaryDataService (delete quietEnv alice "wf1" sampleWorld).2 = []
  ∧ "wf1" ∉ activeWorkflows (delete quietEnv alice "wf1" sampleWorld).2.
Proof.
  destruct (delete_removes quietEnv alice "wf1" sampleWorld aliceOwnsWf1 storedWorkflow
              eq_refl eq_refl) as [Hreturns _].
  destruct (Hreturns (Some storedWorkflow) eq_refl)
    as (_ & ids & _ & _ & Hrepository & _ & Hactive).
  split; [rewrite Hrepository; vm_compute; reflexivity|].
  split; [vm_compute; reflexivity|exact (Hactive eq_refl)].
Defined.

(** A removal of the row that throws: [wf1] stays in the repository with
    its binary data, and is no longer among the active workflows. *)
Example delete_removes_sample :
  let after := delete (withFailingDelete quietEnv) alice "wf1" sampleWorld in
  after.1 = Throw databaseDown
  ∧ workflowRepository after.2 = workflowRepository sampleWorld
  ∧ binaryDataService after.2 = binaryDataService sampleWorld
  ∧ activeWorkflows after.2 = ∅
  ∧ trace after.2
    = [ ExternalHook "workflow.delete"; SharedWorkflowFindOne "workflow:delete" "wf1";
        ActiveRemove "wf1"; ExecutionFind "wf1"; WorkflowRepoDelete "wf1" ].
Proof. cbv zeta. repeat split; vm_compute; reflexivity. Qed.

(** X12. A [workflow.delete] hook that throws stops [delete] before anything
    else: the hook's error is thrown, no share is looked up, and nothing
    is removed. *)
Theorem delete_vetoed env (user : User) (workflowId : string) (w : World) e :
  externalHookThrows env "workflow.delete" = Some e →
  delete env user workflowId w
  = (Throw e, set_trace (trace w ++ [ExternalHook "workflow.delete"]) w).
Proof.
  intros Hhook. unfold delete. run_calls. rewrite Hhook. reflexivity.
Qed.

(** The property for a hook that forbids deletions: [wf1] stays. *)
Lemma delete_vetoed_witness :
  delete (vetoing quietEnv) alice "wf1" sampleWorld
  = (Throw vetoError, set_trace [ExternalHook "workflow.delete"] sampleWorld).
Proof. apply (delete_vetoed (vetoing quietEnv) alice "wf1" sampleWorld). reflexivity. Defined.

(** ** saveStaticDataById *)

(** X13. After a write of [saveStaticDataById] that does not throw, the
    workflow read back from the repository has the new static data, and
    every other property as before; for an id that has no row, the call
    returns all the same and no row is created. *)
Theorem saveStaticDataById_round_trip env (workflowId : string) (newStaticData : IDataObject)
    (w : World) :
  repositoryUpdateThrows env workflowId {[ "staticData" := FObject newStaticData ]} = None →
  (saveStaticDataById env workflowId newStaticData w).1 = Ok tt
  ∧ loadWorkflow workflowId [] (saveStaticDataById env workflowId newStaticData w).2
    = (<["staticData" := FObject newStaticData]> <$> loadWorkflow workflowId [] w).
Proof.
  intros Hwrite. unfold saveStaticDataById. run_calls. rewrite Hwrite. run_calls.
  split; [done|]. unfold loadWorkflow.
  cbn [existsb workflowRepository set_workflowRepository set_trace].
  rewrite lookup_alter_eq.
  destruct (workflowRepository w !! workflowId) as [entity|]; [|done].
  cbn. by rewrite insert_union_singleton_l.
Qed.

Lemma saveStaticDataById_round_trip_witness :
  (loadWorkflow "wf1" [] (saveStaticDataById quietEnv "wf1" {[ "lastId" := VNum 8 ]}
                            sampleWorld).2)
  ≫= (.!! "staticData")
  = Some (FObject {[ "lastId" := VNum 8 ]}).
Proof.
  destruct (saveStaticDataById_round_trip quietEnv "wf1" {[ "lastId" := VNum 8 ]}
              sampleWorld eq_refl) as [_ ->].
  vm_compute. reflexivity.
Defined.

(** ** saveStaticData *)

(** X14. [saveStaticData] a second time, on the workflow object as the
    first call left it: after a write that succeeded the second call does
    nothing at all, neither a write nor any other call; after a write that
    failed the flag is still set and the second call sends the same data
    again. *)
Theorem saveStaticData_again env (workflow : Workflow) (w : World) :
  strictlyTrue (default VUndefined (staticData workflow !! "__dataChanged")) = true →
  isWorkflowIdValid env (id workflow) = true →
  ∀ saved w1, saveStaticData env workflow w = (Ok saved, w1) →
  match repositoryUpdateThrows env (id workflow)
          {[ "staticData" := FObject (staticData workflow) ]} with
  | None => saveStaticData env saved w1 = (Ok saved, w1)
  | Some e =>
      saved = workflow
      ∧ ∃ evs,
          trace (saveStaticData env saved w1).2
          = (trace w1
             ++ WorkflowRepoUpdate (id workflow)
                  {[ "staticData" := FObject (staticData workflow) ]} :: evs)%list
  end.
Proof.
  intros Hchanged Hvalid saved w1 Hrun.
  unfold saveStaticData in Hrun. rewrite Hchanged, Hvalid in Hrun.
  unfold saveStaticDataById in Hrun. run_calls_in Hrun.
  destruct (repositoryUpdateThrows env (id workflow) _) as [e|] eqn:Hwrite;
    run_calls_in Hrun; injection Hrun as <- <-.
  - split; [done|].
    unfold saveStaticData. rewrite Hchanged, Hvalid.
    unfold saveStaticDataById. run_calls. rewrite Hwrite. run_calls.
    eexists. trace_grows.
  - unfold saveStaticData. cbn [staticData]. by rewrite lookup_insert_eq.
Qed.

(** The property for the changed static data of [wf1]: saved once, the
    second call leaves the world as the first one made it. *)
Lemma saveStaticData_again_witness :
  saveStaticData quietEnv
    {| id := "wf1";
       staticData := <["__dataChanged" := VBool false]> (staticData changedStaticData) |}
    (saveStaticData quietEnv changedStaticData sampleWorld).2
  = (Ok {| id := "wf1";
           staticData := <["__dataChanged" := VBool false]> (staticData changedStaticData) |},
     (saveStaticData quietEnv changedStaticData sampleWorld).2).
Proof.
  apply (saveStaticData_again quietEnv changedStaticData sampleWorld eq_refl eq_refl).
  vm_compute. reflexivity.
Defined.

(** ** getSharing *)

(** X15. [getSharing] gives a share of the workflow asked for, the first in
    the table; when the options do not allow a global scope, or the user
    does not hold the scope they name, the share is the user's own. It
    gives [null] exactly when the table has no such share. The workflow
    comes with the share when [relations] names it, as it does by default;
    the call only reads. *)
Theorem getSharing_spec (hasGlobalScope : User → string → bool) (user : User)
    (workflowId : string) (options : WorkflowsGetSharedOptions)
    (relations : option (list string)) (w : World) :
  let restricted :=
    match options with
    | AllowGlobalScope globalScope => hasGlobalScope user globalScope = false
    | DisallowGlobalScope => True
    end in
  let selected row :=
    rowWorkflowId row = workflowId ∧ (restricted → rowUserId row = userId user) in
  match (getSharing hasGlobalScope user workflowId options relations w).1 with
  | Ok (Some (row, entity)) =>
      (∃ before after,
         sharedWorkflowRepository w = (before ++ row :: after)%list
         ∧ ∀ earlier, earlier ∈ before → ¬ selected earlier)
      ∧ selected row
      ∧ entity
        = (if bool_decide ("workflow" ∈ default ["workflow"] relations)
           then workflowRepository w !! workflowId else None)
  | Ok None => ∀ row, row ∈ sharedWorkflowRepository w → ¬ selected row
  | Throw _ => False
  end
  ∧ stores (getSharing hasGlobalScope user workflowId options relations w).2 = stores w
  ∧ sharedWorkflowRepository (getSharing hasGlobalScope user workflowId options relations w).2
    = sharedWorkflowRepository w.
Proof.
  intros restricted selected. unfold getSharing. run_calls. split; [|done].
  set (ownerId := if match options with
                     | AllowGlobalScope globalScope => negb (hasGlobalScope user globalScope)
                     | DisallowGlobalScope => true
                     end then Some (userId user) else None).
  assert (∀ row, sharingWhere workflowId ownerId row = true ↔ selected row) as Hwhere.
  { intros row. unfold sharingWhere, selected, restricted, ownerId.
    rewrite andb_true_iff, String.eqb_eq.
    destruct options as [globalScope|]; [destruct (hasGlobalScope user globalScope)|];
      cbn; rewrite ?String.eqb_eq; intuition congruence. }
  destruct (List.find _ (sharedWorkflowRepository w)) as [row|] eqn:Hfind.
  - split; [|split].
    + clear Hwhere.
      induction (sharedWorkflowRepository w) as [|first rest IH]; [discriminate|].
      cbn in Hfind. destruct (sharingWhere workflowId ownerId first) eqn:Hfirst.
      * injection Hfind as ->. exists [], rest. split; [done|].
        intros earlier Hin. by apply elem_of_nil in Hin.
      * destruct (IH Hfind) as (before & after & -> & Hbefore).
        exists (first :: before), after. split; [done|].
        intros earlier [->|Hin]%elem_of_cons; [|by apply Hbefore].
        intros Hselected.
        assert (sharingWhere workflowId ownerId first = true) as Hyes; [|congruence].
        unfold sharingWhere, selected, restricted, ownerId in *.
        rewrite andb_true_iff, String.eqb_eq.
        destruct options as [globalScope|]; [destruct (hasGlobalScope user globalScope)|];
          cbn; rewrite ?String.eqb_eq; intuition congruence.
    + apply Hwhere. by apply find_some in Hfind as [_ Hfind].
    + apply find_some in Hfind as [_ Hfind]. apply Hwhere in Hfind as [-> _].
      destruct (bool_decide _) eqn:Hrelation.
      * apply bool_decide_eq_true in Hrelation.
        assert (existsb (String.eqb "workflow") (default ["workflow"] relations) = true) as ->;
          [|done].
        apply existsb_exists. exists "workflow". split; [by apply list_elem_of_In|done].
      * apply bool_decide_eq_false in Hrelation.
        destruct (existsb _ _) eqn:Hexists; [|done].
        apply existsb_exists in Hexists as (relation & Hin & <-%String.eqb_eq).
        by apply list_elem_of_In in Hin.
  - intros row Hin Hselected. apply Hwhere in Hselected.
    apply list_elem_of_In in Hin.
    pose proof (find_none _ _ Hfind _ Hin). congruence.
Qed.

(** ** runManually *)

(** X16. [runManually] answers that it waits for a webhook only when no
    pinned trigger was found, the run is not a partial execution (run data,
    a first start node and a destination node all given), and
    [needsWebhookData] says so. *)
Theorem runManually_waiting env (renv : RunEnv) (payload : ManualRunPayload) (user : User)
    (sessionId : option string) :
  runManually env renv payload user sessionId = Ok WaitingForWebhook →
  findPinnedTrigger env (workflowData payload) (startNodes payload) (pinData payload) = None
  ∧ (runData payload = None ∨ startNodes payload = None ∨ startNodes payload = Some []
     ∨ destinationNode payload = None)
  ∧ getBase renv (userId user) = Ok tt
  ∧ needsWebhookData renv (workflowData payload) sessionId (destinationNode payload)
    = Ok true.
Proof.
  unfold runManually. intros Hrun.
  destruct (findPinnedTrigger env _ _ _) as [pinnedTrigger|].
  { cbn in Hrun. destruct (run renv _); discriminate. }
  destruct (match runData payload with Some _ => _ | None => _ end) eqn:Hfull.
  2: { cbn in Hrun. destruct (run renv _); discriminate. }
  destruct (getBase renv (userId user)) as [[]|]; [|discriminate]. cbn in Hrun.
  destruct (needsWebhookData renv _ _ _) as [[|]|]; cbn in Hrun;
    [|destruct (run renv _); discriminate|discriminate].
  repeat split; try done.
  destruct (runData payload), (startNodes payload) as [[|]|], (destinationNode payload);
    try discriminate; auto.
Qed.

Lemma runManually_waiting_witness :
  findPinnedTrigger quietEnv (workflowData plainRun) (startNodes plainRun) (pinData plainRun)
  = None
  ∧ needsWebhookData (sampleRunner true) (workflowData plainRun) None
      (destinationNode plainRun) = Ok true.
Proof.
  destruct (runManually_waiting quietEnv (sampleRunner true) plainRun alice None eq_refl)
    as (Hpinned & _ & _ & Hneeds).
  split; [exact Hpinned|exact Hneeds].
Defined.

(** X17. When [runManually] starts an execution, the runner was handed the
    workflow marked as not active, in mode ['manual'], for the calling
    user, with the payload's run data, pin data and destination node. The
    start nodes it was handed are the payload's, unless
    [findPinnedTrigger] has found a node and [runData[node.name]] is not
    truthy, that is the run data is undefined, or holds no entry under
    the node's name and the name is not one that every object inherits:
    then they are that node alone. *)
Theorem runManually_started env (renv : RunEnv) (payload : ManualRunPayload) (user : User)
    (sessionId : option string) (executionId : string) :
  runManually env renv payload user sessionId = Ok (ExecutionStarted executionId) →
  ∃ data,
    run renv data = Ok executionId
    ∧ active (runWorkflowData data) = false
    ∧ nodes (runWorkflowData data) = nodes (workflowData payload)
    ∧ connections (runWorkflowData data) = connections (workflowData payload)
    ∧ runExecutionMode data = "manual"
    ∧ runUserId data = userId user
    ∧ runRunData data = runData payload
    ∧ runPinData data = pinData payload
    ∧ runDestinationNode data = destinationNode payload
    ∧ runSessionId data = sessionId
    ∧ match findPinnedTrigger env (workflowData payload) (startNodes payload)
              (pinData payload) with
      | Some pinnedTrigger =>
          (runStartNodes data = Some [nodeName pinnedTrigger]
           ∧ match runData payload with
             | Some entries =>
                 entries !! nodeName pinnedTrigger = None
                 ∧ nodeName pinnedTrigger ∉ inheritedNames
             | None => True
             end)
          ∨ (runStartNodes data = startNodes payload
             ∧ ∃ entries,
                 runData payload = Some entries
                 ∧ (is_Some (entries !! nodeName pinnedTrigger)
                    ∨ nodeName pinnedTrigger ∈ inheritedNames))
      | None => runStartNodes data = startNodes payload
      end.
Proof.
  unfold runManually. intros Hrun.
  match type of Hrun with
  | context [run renv ?d] => exists d; destruct (run renv d) as [started|] eqn:Hdata
  end.
  - assert (started = executionId) as ->.
    { destruct (findPinnedTrigger env _ _ _); cbn in Hrun; [congruence|].
      destruct (match runData payload with Some _ => _ | None => _ end);
        [|cbn in Hrun; congruence].
      destruct (getBase renv (userId user)); [|discriminate]. cbn in Hrun.
      destruct (needsWebhookData renv _ _ _) as [[|]|]; cbn in Hrun; congruence. }
    split; [done|]. cbn.
    destruct (findPinnedTrigger env _ _ _) as [pinnedTrigger|]; [|done].
    repeat (split; [done|]). unfold hasRunData.
    destruct (runData payload) as [entries|]; [|by left].
    destruct (hasTruthy entries (nodeName pinnedTrigger)) eqn:Htruthy.
    + right. split; [done|]. exists entries. split; [done|].
      by apply PinnedTrigger.hasTruthy_spec.
    + left. split; [done|].
      assert (¬ (is_Some (entries !! nodeName pinnedTrigger)
                 ∨ nodeName pinnedTrigger ∈ inheritedNames)) as Hnot.
      { rewrite <- PinnedTrigger.hasTruthy_spec. congruence. }
      split; [|tauto]. apply eq_None_not_Some. tauto.
  - exfalso.
    destruct (findPinnedTrigger env _ _ _); cbn in Hrun; [congruence|].
    destruct (match runData payload with Some _ => _ | None => _ end);
      [|cbn in Hrun; congruence].
    destruct (getBase renv (userId user)); [|discriminate]. cbn in Hrun.
    destruct (needsWebhookData renv _ _ _) as [[|]|]; cbn in Hrun; congruence.
Qed.

Lemma runManually_started_witness :
  ∃ data,
    run (sampleRunner false) data = Ok "execution-1"
    ∧ active (runWorkflowData data) = false.
Proof.
  destruct (runManually_started quietEnv (sampleRunner false) plainRun alice None
              "execution-1" eq_refl) as (data & Hrun & Hactive & _).
  exists data. split; [exact Hrun|exact Hactive].
Defined.

(** The order workflow run with its webhook node pinned and no run data
    for it starts from that node; a workflow whose webhook node is named
    "constructor", run with empty pin data and empty run data, is found
    a pinned trigger and run data both, and keeps the payload's start
    nodes. *)
Example runManually_started_sample :
  let handed :=
    {| run := fun data => Ok (String.concat "," (default ["-"] (runStartNodes data)));
       getBase := fun _ => Ok tt;
       needsWebhookData := fun _ _ _ => Ok true |} in
  let inheritedRun :=
    {| workflowData := constructorWorkflow;
       runData := Some ∅;
       pinData := Some ∅;
       startNodes := Some [];
       destinationNode := None |} in
  runManually quietEnv handed pinnedRun alice None = Ok (ExecutionStarted "On order")
  ∧ runManually quietEnv handed inheritedRun alice None = Ok (ExecutionStarted "").
Proof. cbv zeta. split; vm_compute; reflexivity. Qed.

(** The first element that passes heads the filtered list. *)
Lemma filter_first {A} (p : A → bool) (before : list A) x rest :
  (∀ y, y ∈ before → p y = false) → p x = true →
  List.filter p (before ++ x :: rest) = x :: List.filter p rest.
Proof.
  intros Hbefore Hx. induction before as [|y before IH]; cbn.
  - by rewrite Hx.
  - rewrite (Hbefore y) by (by left). apply IH. intros z Hz. apply Hbefore. by right.
Qed.

Lemma not_eligible env (pinned : IPinData) node :
  ¬ eligible env pinned node → isPinnedTrigger env pinned node = false.
Proof.
  intros Hnot. destruct (isPinnedTrigger env pinned node) eqn:Hp; [|done].
  by apply PinnedTrigger.isPinnedTrigger_eligible in Hp.
Qed.

(** X18. A full manual execution (no start node, no run data) of a workflow
    with pin data. Take the first node, in the workflow's node order, that
    is not disabled, whose type name in lower case contains "trigger" or
    "webhook", and under whose name the pin data holds something, an
    entry of its own or a property that every object inherits: this node
    is the one start node handed to the runner, with the workflow marked
    as not active; neither [getBase] nor [needsWebhookData] has a say, and
    the call never waits for a webhook. *)
Theorem runManually_from_pinned_trigger env (renv : RunEnv) (payload : ManualRunPayload)
    (user : User) (sessionId : option string) (pinned : IPinData) before firstPinned rest :
  pinData payload = Some pinned →
  startNodes payload = Some [] →
  runData payload = None →
  nodes (workflowData payload) = (before ++ firstPinned :: rest)%list →
  (∀ earlier, earlier ∈ before → ¬ eligible env pinned earlier) →
  eligible env pinned firstPinned →
  runManually env renv payload user sessionId
  = (executionId <-?
       run renv
         {| runDestinationNode := destinationNode payload;
            runExecutionMode := "manual";
            runRunData := None;
            runPinData := Some pinned;
            runSessionId := sessionId;
            runStartNodes := Some [nodeName firstPinned];
            runWorkflowData :=
              {| nodes := nodes (workflowData payload);
                 connections := connections (workflowData payload);
                 active := false |};
            runUserId := userId user |};
     Ok (ExecutionStarted executionId)).
Proof.
  intros Hpinned Hstart Hrun Hnodes Hbefore Hfirst.
  assert (List.filter (isPinnedTrigger env pinned) (nodes (workflowData payload))
          = firstPinned :: List.filter (isPinnedTrigger env pinned) rest) as Hfilter.
  { rewrite Hnodes. apply filter_first;
      [intros y Hy; by apply not_eligible, Hbefore
      |by apply PinnedTrigger.isPinnedTrigger_eligible]. }
  unfold runManually, findPinnedTrigger.
  rewrite Hpinned, Hstart, Hrun, Hfilter. reflexivity.
Qed.

(** The property for the order workflow with its webhook node pinned:
    the run starts, from that node, though the test webhooks would have
    it wait. *)
Lemma runManually_from_pinned_trigger_witness :
  runManually quietEnv (sampleRunner true) pinnedRun alice None
  = Ok (ExecutionStarted "execution-1").
Proof.
  rewrite (runManually_from_pinned_trigger quietEnv (sampleRunner true) pinnedRun alice None
             {[ "On order" := [] ]} [codeNode] webhookNode [] eq_refl eq_refl eq_refl eq_refl).
  - reflexivity.
  - intros earlier ->%list_elem_of_singleton (_ & _ & [Htype|Htype]); vm_compute in Htype;
      discriminate.
  - split; [done|]. split; [left; by eexists|]. right. vm_compute. reflexivity.
Defined.

(** ** findPinnedTrigger in a partial execution *)

Lemma find_name_first (firstPinned : INode) (others : list INode) :
  List.find (fun pt => String.eqb (nodeName pt) (nodeName firstPinned)) (firstPinned :: others)
  = Some firstPinned.
Proof. cbn. by rewrite String.eqb_refl. Qed.

Lemma find_filter {A} (q p : A → bool) (l : list A) :
  List.find q (List.filter p l) = List.find (fun x => p x && q x) l.
Proof.
  induction l as [|x l IH]; [done|]. cbn. destruct (p x); cbn; [|done].
  by rewrite IH.
Qed.

Lemma find_first {A} (q : A → bool) (l : list A) :
  match List.find q l with
  | Some x =>
      ∃ before rest, l = (before ++ x :: rest)%list ∧ q x = true
                     ∧ ∀ y, y ∈ before → q y = false
  | None => ∀ y, y ∈ l → q y = false
  end.
Proof.
  induction l as [|a l IH]; cbn.
  - intros y Hy. inversion Hy.
  - destruct (q a) eqn:Ha.
    + exists [], l. split; [done|]. split; [done|]. intros y Hy. inversion Hy.
    + destruct (List.find q l) as [x|].
      * destruct IH as (before & rest & -> & Hx & Hb). exists (a :: before), rest.
        split; [done|]. split; [done|]. intros y [->|Hy]%elem_of_cons; auto.
      * intros y [->|Hy]%elem_of_cons; auto.
Qed.

(** X19. [findPinnedTrigger] in a partial execution, that is with a first
    start node; only that one is looked at. The nodes that count are those
    the filter lets through: not disabled, with a type name that in lower
    case contains "trigger" or "webhook", and a name under which the pin
    data holds an entry of its own or a property that every object
    inherits. With no such node the result is [null]. When the start node
    has parent nodes, the result is the first such node of the workflow
    if it is one of these parents, and [null] if it is not, even when a
    later such node is a parent. When the start node has no parent node,
    the result is the first such node that bears the name of the start
    node, [null] if there is none. *)
Theorem findPinnedTrigger_partial env (workflow : IWorkflowDb) (startNodeName : string)
    (otherStartNodes : list string) (pinned : IPinData) :
  let parentNames := getParentNodes env (nodes workflow) (connections workflow) startNodeName in
  let found :=
    findPinnedTrigger env workflow (Some (startNodeName :: otherStartNodes)) (Some pinned) in
  ((∀ node, node ∈ nodes workflow → ¬ eligible env pinned node) → found = None)
  ∧ (∀ before firstPinned rest,
       nodes workflow = (before ++ firstPinned :: rest)%list →
       (∀ earlier, earlier ∈ before → ¬ eligible env pinned earlier) →
       eligible env pinned firstPinned →
       match parentNames with
       | _ :: _ =>
           found = if bool_decide (nodeName firstPinned ∈ parentNames)
                   then Some firstPinned else None
       | [] =>
           match found with
           | Some node =>
               ∃ earlier later,
                 nodes workflow = (earlier ++ node :: later)%list
                 ∧ eligible env pinned node
                 ∧ nodeName node = startNodeName
                 ∧ ∀ other, other ∈ earlier → eligible env pinned other →
                     nodeName other ≠ startNodeName
           | None =>
               ∀ other, other ∈ nodes workflow → eligible env pinned other →
                 nodeName other ≠ startNodeName
           end
       end).
Proof.
  intros parentNames found. subst found. unfold findPinnedTrigger. fold parentNames. split.
  - intros Hnone.
    assert (List.filter (isPinnedTrigger env pinned) (nodes workflow) = []) as ->; [|done].
    induction (nodes workflow) as [|node others IH]; [done|]. cbn.
    rewrite (not_eligible env pinned node) by (apply Hnone; by left).
    apply IH. intros other Hin. apply Hnone. by right.
  - intros before firstPinned rest Hnodes Hbefore Hfirst.
    assert (List.filter (isPinnedTrigger env pinned) (nodes workflow)
            = firstPinned :: List.filter (isPinnedTrigger env pinned) rest) as Hfilter.
    { rewrite Hnodes. apply filter_first;
        [intros y Hy; by apply not_eligible, Hbefore
        |by apply PinnedTrigger.isPinnedTrigger_eligible]. }
    destruct parentNames as [|parent parents].
    + destruct (List.filter (isPinnedTrigger env pinned) (nodes workflow)) eqn:Hlist;
        [discriminate|]. rewrite <- Hlist, find_filter.
      pose proof (find_first
                    (fun x => isPinnedTrigger env pinned x && String.eqb (nodeName x) startNodeName)
                    (nodes workflow)) as Hfound.
      destruct (List.find _ (nodes workflow)) as [node|].
      * destruct Hfound as (earlier & later & Hsplit & [Hp Hname%String.eqb_eq]%andb_true_iff
                            & Hearlier).
        exists earlier, later. split; [done|].
        split; [by apply PinnedTrigger.isPinnedTrigger_eligible|]. split; [done|].
        intros other Hin Hel%PinnedTrigger.isPinnedTrigger_eligible Hother.
        specialize (Hearlier other Hin). rewrite Hel, Hother, String.eqb_refl in Hearlier.
        discriminate.
      * intros other Hin Hel%PinnedTrigger.isPinnedTrigger_eligible Hother.
        specialize (Hfound other Hin). rewrite Hel, Hother, String.eqb_refl in Hfound.
        discriminate.
    + rewrite Hfilter.
      destruct (List.find _ (parent :: parents)) as [checkNodeName|] eqn:Hfind.
      * apply find_some in Hfind as [Hin ->%String.eqb_eq].
        rewrite find_name_first, bool_decide_eq_true_2; [done|]. by apply list_elem_of_In.
      * rewrite bool_decide_eq_false_2; [done|]. intros Hin%list_elem_of_In.
        pose proof (find_none _ _ Hfind _ Hin) as Hno. cbn in Hno.
        by rewrite String.eqb_refl in Hno.
Qed.

(** Two pinned webhook nodes, the second of which is the parent of the
    start node: it is not found, the first one not being a parent; with
    both as parents the first one is found. And a webhook node named
    "constructor" that is not pinned comes before the pinned one: it is
    the one found. *)
Example findPinnedTrigger_partial_sample :
  let webhook nodeName :=
    {| nodeId := None; nodeName := nodeName; nodeType := "n8n-nodes-base.webhook";
       nodeDisabled := None; nodeCredentials := ∅ |} in
  let workflow :=
    {| nodes := [webhook "A"; webhook "B"; codeNode]; connections := ∅; active := false |} in
  let pinned : IPinData := <["A" := []]> {["B" := []]} in
  let inheriting :=
    {| nodes := [constructorNode; webhook "B"; codeNode]; connections := ∅;
       active := false |} in
  findPinnedTrigger (withParents ["B"] quietEnv) workflow (Some ["Code"]) (Some pinned) = None
  ∧ findPinnedTrigger (withParents ["B"; "A"] quietEnv) workflow (Some ["Code"]) (Some pinned)
    = Some (webhook "A")
  ∧ findPinnedTrigger quietEnv workflow (Some ["B"]) (Some pinned) = Some (webhook "B")
  ∧ findPinnedTrigger (withParents ["B"; "constructor"] quietEnv) inheriting (Some ["Code"])
      (Some {["B" := []]})
    = Some constructorNode.
Proof. intros webhook workflow pinned inheriting. repeat split; vm_compute; reflexivity. Qed.

(** ** update without permission *)

(** X20. When no row of the shared-workflow table gives the user update
    access to the workflow, [update] logs the attempt and throws a
    NotFoundError; the look-up and the log are the only calls made, no
    hook is run and nothing is written. *)
Theorem update_without_permission env (user : User) (workflow : WorkflowEntity)
    (workflowId : string) (tagIds : option (list string)) (forceSave : option bool)
    (roles : option (list string)) (w : World) :
  (∀ row, row ∈ sharedWorkflowRepository w →
     whereClause env user "workflow:update" workflowId roles row = false) →
  update env user workflow workflowId tagIds forceSave roles w
  = (Throw (NotFoundError noPermissionMessage),
     set_trace
       (trace w
        ++ [ SharedWorkflowFindOne "workflow:update" workflowId;
             LoggerVerbose "User attempted to update a workflow without permissions" ])
       w).
Proof.
  intros Hnone. unfold update. unfold bind at 1.
  rewrite (ServiceProofs.findOne_missing _ _ _ _ Hnone). run_calls.
  by rewrite <- app_assoc.
Qed.

(** The property for bob, who has no share in [wf1]. *)
Lemma update_without_permission_witness :
  (update quietEnv bob currentUpdate "wf1" None None None sampleWorld).1
  = Throw (NotFoundError noPermissionMessage).
Proof.
  rewrite (update_without_permission quietEnv bob currentUpdate "wf1" None None None
             sampleWorld); [reflexivity|].
  intros row Hrow. apply list_elem_of_singleton in Hrow. subst row. reflexivity.
Defined.

(** ** getMany *)

Section GetMany.
Variable env : Env.
Variable sharedWorkflowIds : list string.
Variable options : option ListQueryOptions.

Let query : FindManyOptions := findManyOptions env sharedWorkflowIds options.
Let requested : gmap string FilterValue := default ∅ (options ≫= optFilter).

(** The [where] before the rewriting of the name. *)
Lemma where_name_rewritten (where_ : gmap string WhereValue) key :
  key ≠ "name" →
  match where_ !! "name" with
  | Some (WhereEquals (FilterString name)) =>
      if negb (String.eqb name "")
      then <["name" := WhereLike ("%" +:+ name +:+ "%")]> where_
      else where_
  | _ => where_
  end !! key = where_ !! key.
Proof.
  intros Hne. destruct (where_ !! "name") as [[[name| |]| | |]|]; try done.
  destruct (negb _); [by rewrite lookup_insert_ne|done].
Qed.

Lemma where_tags_rewritten (where_ : gmap string WhereValue) key :
  key ≠ "tags" →
  match requested !! "tags" with
  | Some (FilterStrings reqTags) => <["tags" := WhereTagNames reqTags]> where_
  | _ => where_
  end !! key = where_ !! key.
Proof.
  intros Hne. destruct (requested !! "tags") as [[| |reqTags]|]; try done.
  by rewrite lookup_insert_ne.
Qed.

(** X21. The query that [getMany] hands to the repository, whatever the
    options: its [where] restricts the ids to the given ids of shared
    workflows, and a filter on [id] cannot replace this; its [select]
    has [id] and never [ownedBy]; without a [take] other than zero it
    has neither [skip] nor [take], so that a [skip] alone is ignored; its
    relations, when set, are not empty, and have [tags] only when the
    workflow tags are enabled. *)
Theorem getMany_query :
  findWhere query !! "id" = Some (WhereIn sharedWorkflowIds)
  ∧ findSelect query !! "id" = Some SelectTrue
  ∧ findSelect query !! "ownedBy" = None
  ∧ (options ≫= optTake = None ∨ options ≫= optTake = Some 0 →
     findSkip query = None ∧ findTake query = None)
  ∧ (∀ n, options ≫= optTake = Some (S n) →
       findSkip query = options ≫= optSkip ∧ findTake query = Some (S n))
  ∧ (∀ relations, findRelations query = Some relations →
       relations ≠ []
       ∧ ("tags" ∈ relations → workflowTagsDisabled env = false)).
Proof.
  subst query. unfold findManyOptions. cbv zeta. cbn [findWhere findSelect findSkip findTake
    findRelations]. fold requested.
  split; [|split; [|split; [|split; [|split]]]].
  - rewrite where_name_rewritten, where_tags_rewritten by done.
    by rewrite lookup_insert_eq.
  - by rewrite lookup_insert_eq.
  - rewrite lookup_insert_ne by done.
    destruct (negb (workflowTagsDisabled env) && _);
      rewrite ?lookup_insert_ne by done; by rewrite lookup_delete_eq.
  - intros [-> | ->]; done.
  - intros n ->. done.
  - intros relations.
    destruct (workflowTagsDisabled env); cbn [negb andb].
    + destruct (_ || _); [|discriminate]. intros [= <-]. split; [done|].
      intros Hin. exfalso. revert Hin. cbn [app]. not_listed.
    + destruct (_ || _), (_ || _); cbn [app]; try discriminate; intros [= <-]; done.
Qed.

(** X22. The filter in the query of [getMany]: a non-empty [name] is
    searched as a substring, [tags] that are an array of strings are
    matched by tag name, and every other property of the filter but [id]
    is matched as it is given. *)
Theorem getMany_filter :
  (∀ name, requested !! "name" = Some (FilterString name) → name ≠ "" →
     findWhere query !! "name" = Some (WhereLike ("%" +:+ name +:+ "%")))
  ∧ (∀ reqTags, requested !! "tags" = Some (FilterStrings reqTags) →
       findWhere query !! "tags" = Some (WhereTagNames reqTags))
  ∧ (∀ key, key ≠ "id" → key ≠ "name" → key ≠ "tags" →
       findWhere query !! key = WhereEquals <$> requested !! key).
Proof.
  subst query. unfold findManyOptions. cbv zeta. cbn [findWhere]. fold requested.
  split; [|split].
  - intros name Hname Hnonempty.
    rewrite where_tags_rewritten, lookup_insert_ne, lookup_fmap, Hname by done.
    cbn. apply String.eqb_neq in Hnonempty. rewrite Hnonempty. cbn.
    by rewrite lookup_insert_eq.
  - intros reqTags Htags. rewrite where_name_rewritten by done.
    rewrite Htags. by rewrite lookup_insert_eq.
  - intros key Hid Hname Htags.
    rewrite where_name_rewritten, where_tags_rewritten by done.
    by rewrite lookup_insert_ne, lookup_fmap.
Qed.

End GetMany.


End ServiceMore.

(* ===================================================================== *)
(** * The Compression node: the loop over the items, and zip *)
(* ===================================================================== *)

Module CompressionMore.
Import Js N8n Compression Terms CompressionLoop.

Section Node.
Variable this : IExecuteFunctions.
Variable lib : Libraries.

(** X24. Whatever the parameters, when [execute] returns, it returns one
    list of output items, each paired with an input item; the input items
    they are paired with come in strictly increasing order, so that no
    input item has two output items; and the output item paired with an
    input item carries the [json] of that input item, or, under
    [continueOnFail], is the item that carries the message of the error
    the input item has thrown. *)
Theorem execute_paired outputs :
  execute this lib = Ok outputs →
  ∃ returnData indices,
    outputs = [returnData]
    ∧ pairedItem <$> returnData = Some <$> indices
    ∧ increasing indices
    ∧ Forall (fun i => i < length (getInputData this)) indices
    ∧ ∀ output, output ∈ returnData →
        ∃ i item,
          getInputData this !! i = Some item
          ∧ pairedItem output = Some i
          ∧ (json output = json item
             ∨ ∃ e, continueOnFail this = true
                    ∧ processItem this lib i item = Throw e
                    ∧ output = errorItem i e).
Proof.
  unfold execute.
  destruct (executeLoop this lib 0 (getInputData this) []) as [returnData|] eqn:Hrun;
    [|discriminate].
  cbn. intros [= <-]. apply executeLoop_returns in Hrun as [-> Hall]. cbn [app] in *.
  destruct (settled_all_paired this lib (getInputData this) 0) as (indices & Hpaired & Hup & Hrange).
  eexists _, indices. split; [done|]. split; [done|]. split; [done|].
  split; [eapply Forall_impl; [exact Hrange|]; cbn; intros n Hn; lia|].
  intros output (i & item & Hi & Hin)%settled_elem. exists i, item. cbn in Hin.
  split; [done|]. unfold settled in Hin.
  destruct (processItem this lib i item) as [pushed|e] eqn:Hitem.
  - destruct (processItem_pushed _ _ _ _ _ Hitem) as [->|[fields ->]];
      [by apply elem_of_nil in Hin|].
    apply list_elem_of_singleton in Hin as ->. split; [done|by left].
  - apply list_elem_of_singleton in Hin as ->. split; [done|]. right. exists e.
    split; [|done]. destruct (Hall i item Hi) as [Hcontinue|[pushed Hok]]; [done|].
    cbn in Hok. congruence.
Qed.

(** X25. Under [continueOnFail], [execute] always returns: the error of
    an input item becomes an output item that carries its message and is
    paired with that input item. When the operation is one that pushes an
    item ("decompress", or "compress" to "zip" or "gzip"), there is then
    exactly one output item per input item, at the same position: the
    error item if the input item has thrown, an item with the [json] of
    the input item otherwise. *)
Theorem execute_continues :
  continueOnFail this = true →
  ∃ returnData,
    execute this lib = Ok [returnData]
    ∧ (∀ i item e, getInputData this !! i = Some item →
         processItem this lib i item = Throw e →
         errorItem i e ∈ returnData)
    ∧ (pushesItem this →
       length returnData = length (getInputData this)
       ∧ ∀ i item, getInputData this !! i = Some item →
           ∃ output,
             returnData !! i = Some output
             ∧ pairedItem output = Some i
             ∧ match processItem this lib i item with
               | Ok _ => json output = json item
               | Throw e => output = errorItem i e
               end).
Proof.
  intros Hcontinue. eexists. unfold execute.
  rewrite executeLoop_settles by (intros; by left). cbn [rbind app].
  split; [done|]. split.
  - intros i item e Hi Hitem. apply list_elem_of_In, in_concat.
    exists (settled this lib i item). split.
    + apply list_elem_of_In, elem_of_lookup_imap. by exists i, item.
    + unfold settled. rewrite Hitem. by left.
  - intros Hpushes.
    destruct (settled_singletons this lib (getInputData this) 0) as [Hlength Hlookup].
    { intros k item Hk. cbn. unfold settled.
      destruct (processItem this lib k item) as [pushed|e] eqn:Hitem; [|by eexists].
      destruct (processItem_pushes _ _ _ _ _ Hpushes Hitem) as [fields ->]. by eexists. }
    split; [done|]. intros i item Hi. rewrite (Hlookup i item Hi). cbn. unfold settled.
    destruct (processItem this lib i item) as [pushed|e] eqn:Hitem.
    + destruct (processItem_pushes _ _ _ _ _ Hpushes Hitem) as [fields ->]. by eexists.
    + by eexists.
Qed.

(** X26. Without [continueOnFail], the error of the first input item
    that throws is thrown by [execute], and with it the output items of
    the input items before it are lost. *)
Theorem execute_throws_first i item e :
  continueOnFail this = false →
  getInputData this !! i = Some item →
  processItem this lib i item = Throw e →
  (∀ j earlier, j < i → getInputData this !! j = Some earlier →
     succeeds (processItem this lib j earlier)) →
  execute this lib = Throw e.
Proof.
  intros Hstrict Hi Hitem Hearlier. unfold execute.
  by rewrite (executeLoop_throws this lib _ 0 [] i item e Hstrict Hi Hitem Hearlier).
Qed.

(** X27. With an operation that is neither "decompress" nor "compress",
    [execute] reads no field and returns an empty list of output items,
    whatever the input items are. *)
Theorem execute_idle :
  getNodeParameter this "operation" 0 ≠ "decompress" →
  getNodeParameter this "operation" 0 ≠ "compress" →
  execute this lib = Ok [[]].
Proof.
  intros Hdecompress%String.eqb_neq Hcompress%String.eqb_neq.
  assert (∀ i item, processItem this lib i item = Ok []) as Hitem.
  { intros i item. unfold processItem. by rewrite Hdecompress, Hcompress. }
  unfold execute. rewrite executeLoop_settles.
  2: { intros k item _. right. exists []. apply Hitem. }
  cbn [app rbind]. do 2 f_equal.
  generalize 0. induction (getInputData this) as [|item rest IH]; intros i; [done|].
  cbn [imap concat]. rewrite settled_shift, IH. unfold settled.
  by rewrite Nat.add_0_r, Hitem.
Qed.

End Node.

(** The property on the sample item, gzipped. *)
Lemma execute_paired_witness :
  ∃ returnData indices,
    [[ {| json := {["id" := VNum 1]};
          binary :=
            Some (<["file_0" := {| data := [Byte.x1f; Byte.x8b; Byte.x68; Byte.x69];
                                   mimeType := "application/octet-stream";
                                   fileName := Some "report.gzip";
                                   fileExtension := None |}]> ∅);
          pairedItem := Some 0 |} ]]
    = [returnData]
    ∧ pairedItem <$> returnData = Some <$> indices.
Proof.
  destruct (execute_paired (sampleNode "compress" "gzip" "data") sampleLibraries _ eq_refl)
    as (returnData & indices & Houtputs & Hpaired & _).
  exists returnData, indices. split; [exact Houtputs|exact Hpaired].
Defined.

(** The property on the sample item with a field that is missing: the
    run returns, with the error item. *)
Lemma execute_continues_witness :
  ∃ returnData,
    execute (continuing (sampleNode "compress" "gzip" "data, absent")) sampleLibraries
    = Ok [returnData].
Proof.
  destruct (execute_continues (continuing (sampleNode "compress" "gzip" "data, absent"))
              sampleLibraries eq_refl) as (returnData & Hrun & _).
  exists returnData. exact Hrun.
Defined.

Lemma execute_throws_first_witness :
  execute (sampleNode "compress" "gzip" "data, absent") sampleLibraries
  = Throw (missingField "absent").
Proof.
  apply (execute_throws_first (sampleNode "compress" "gzip" "data, absent") sampleLibraries
           0 sampleItem (missingField "absent") eq_refl eq_refl eq_refl).
  intros j earlier Hj. lia.
Defined.

Lemma execute_idle_witness :
  execute (sampleNode "rename" "" "data") sampleLibraries = Ok [[]].
Proof.
  apply execute_idle; vm_compute; discriminate.
Defined.

(** ** compress to zip *)

Lemma assign_keys key v l key' :
  key' ∈ (assign key v l).*1 ↔ key' = key ∨ key' ∈ l.*1.
Proof.
  induction l as [|[k w] rest IH]; cbn.
  - rewrite list_elem_of_singleton, elem_of_nil. tauto.
  - destruct (String.eqb k key) eqn:Hk; cbn; rewrite !elem_of_cons.
    + apply String.eqb_eq in Hk as ->. tauto.
    + rewrite IH. tauto.
Qed.

Lemma assign_NoDup key v l : NoDup l.*1 → NoDup (assign key v l).*1.
Proof.
  induction l as [|[k w] rest IH]; cbn.
  - intros _. apply NoDup_singleton.
  - intros [Hfresh Hrest]%NoDup_cons. destruct (String.eqb k key) eqn:Hk; cbn.
    + by apply NoDup_cons.
    + apply NoDup_cons. split; [|by apply IH].
      rewrite assign_keys. intros [->|Hin]; [|done].
      by rewrite String.eqb_refl in Hk.
Qed.

Lemma assign_elem key v l key' v' :
  NoDup l.*1 →
  (key', v') ∈ assign key v l ↔ (key' = key ∧ v' = v) ∨ (key' ≠ key ∧ (key', v') ∈ l).
Proof.
  induction l as [|[k w] rest IH]; cbn.
  - intros _. rewrite list_elem_of_singleton, elem_of_nil. split.
    + intros [= -> ->]. by left.
    + intros [[-> ->]|[_ []]]. done.
  - intros [Hfresh Hrest]%NoDup_cons. destruct (String.eqb k key) eqn:Hk.
    + apply String.eqb_eq in Hk as ->. rewrite !elem_of_cons. split.
      * intros [[= -> ->]|Hin]; [by left|]. right. split; [|by right].
        intros ->. apply Hfresh. apply list_elem_of_fmap. by exists (key, v').
      * intros [[-> ->]|[Hne [[= -> ->]|Hin]]]; [by left|done|by right].
    + apply String.eqb_neq in Hk. rewrite !elem_of_cons, IH by done. split.
      * intros [[= -> ->]|[[-> ->]|[Hne Hin]]]; [right|by left|right]; split; auto.
      * intros [[-> ->]|[Hne [[= -> ->]|Hin]]]; auto.
Qed.

Lemma lastAssigned_nil key value : ¬ lastAssigned [] key value.
Proof. intros (k & Hk & _). inversion Hk. Qed.

Lemma lastAssigned_cons entry entries key value :
  lastAssigned (entry :: entries) key value
  ↔ lastAssigned entries key value ∨ (entry = (key, value) ∧ key ∉ entries.*1).
Proof.
  split.
  - intros ([|k] & Hk & Hlater).
    + right. injection Hk as ->. split; [done|].
      intros ([key' value'] & Heq & [k' Hk']%list_elem_of_lookup_1)%list_elem_of_fmap.
      cbn in Heq. subst key'. by apply (Hlater (S k') (key, value')); [lia| |].
    + left. exists k. split; [done|]. intros k' later Hlt Hk'.
      apply (Hlater (S k')); [lia|done].
  - intros [(k & Hk & Hlater)|[-> Hnone]].
    + exists (S k). split; [done|]. intros [|k'] later Hlt Hk'; [lia|].
      apply (Hlater k'); [lia|done].
    + exists 0. split; [done|]. intros [|k'] later Hlt Hk' Heq; [lia|].
      apply Hnone, list_elem_of_fmap. exists later. split; [done|].
      by eapply list_elem_of_lookup_2.
Qed.

(** The archive object after the entries have been assigned to [z], one
    after the other. *)
Lemma assigned_spec (entries : list (string * (Buffer * nat))) : ∀ z,
  NoDup (ownProperties z).*1 →
  let z' := fold_left (fun z (entry : string * (Buffer * nat)) =>
                         zippable_set entry.1 entry.2 z) entries z in
  NoDup (ownProperties z').*1
  ∧ (∀ key value,
       (key, value) ∈ ownProperties z'
       ↔ (key ≠ "__proto__" ∧ lastAssigned entries key value)
         ∨ ((key = "__proto__" ∨ key ∉ entries.*1) ∧ (key, value) ∈ ownProperties z))
  ∧ (∀ value,
       prototype z' = Some value
       ↔ lastAssigned entries "__proto__" value
         ∨ (("__proto__" ∉ entries.*1) ∧ prototype z = Some value)).
Proof.
  induction entries as [|[k0 v0] entries IH]; intros z Hz; cbn zeta.
  - cbn [fold_left]. split; [done|]. split.
    + intros key value. split.
      * intros Hin. right. split; [|done]. right. apply not_elem_of_nil.
      * intros [[_ []%lastAssigned_nil]|[_ Hin]]. done.
    + intros value. split.
      * intros Hp. right. split; [apply not_elem_of_nil|done].
      * intros [[]%lastAssigned_nil|[_ Hp]]. done.
  - cbn [fold_left fst snd]. unfold zippable_set at 2 4 6.
    destruct (String.eqb k0 "__proto__") eqn:Hk0.
    + apply String.eqb_eq in Hk0 as ->.
      destruct (IH {| ownProperties := ownProperties z; prototype := Some v0 |} Hz)
        as (Hnodup & Hown & Hproto).
      split; [done|]. split.
      * intros key value. rewrite Hown, lastAssigned_cons. cbn [ownProperties fmap list_fmap fst].
        rewrite not_elem_of_cons. split.
        -- intros [[Hne Hlast]|[[->|Hnone] Hin]]; [left; auto|right; auto|].
           destruct (decide (key = "__proto__")) as [->|Hne]; right; auto.
        -- intros [[Hne [Hlast|[[= ?] _]]]|[[->|[Hne Hnone]] Hin]]; try done;
             [left; auto|right; auto|right; auto].
      * intros value. rewrite Hproto, lastAssigned_cons. cbn [prototype fmap list_fmap fst].
        rewrite not_elem_of_cons. split.
        -- intros [Hlast|[Hnone [= ->]]]; left; auto.
        -- intros [[Hlast|[[= ->] Hnone]]|[[[] _] _]]; auto.
    + apply String.eqb_neq in Hk0.
      destruct (IH {| ownProperties := assign k0 v0 (ownProperties z);
                      prototype := prototype z |}) as (Hnodup & Hown & Hproto).
      { by apply assign_NoDup. }
      split; [done|]. split.
      * intros key value. rewrite Hown, lastAssigned_cons. cbn [ownProperties fmap list_fmap fst].
        rewrite not_elem_of_cons, assign_elem by done. split.
        -- intros [[Hne Hlast]|[Hor [[-> ->]|[Hne Hin]]]].
           ++ left. auto.
           ++ left. split; [done|]. right. split; [done|]. by destruct Hor.
           ++ right. split; [|done]. destruct Hor; auto.
        -- intros [[Hne [Hlast|[[= -> ->] Hnone]]]|[[->|[Hne Hnone]] Hin]].
           ++ left. auto.
           ++ right. split; [auto|]. by left.
           ++ right. split; [by left|]. right. split; [congruence|done].
           ++ right. split; [by right|]. right. split; [done|done].
      * intros value. rewrite Hproto, lastAssigned_cons. cbn [prototype fmap list_fmap fst].
        rewrite not_elem_of_cons. split.
        -- intros [Hlast|[Hnone Hp]]; [left; auto|]. right. split; [|done]. split; [congruence|done].
        -- intros [[Hlast|[[= ? ?] _]]|[[_ Hnone] Hp]]; [by left|congruence|by right].
Qed.

Lemma zipDataOf_archived entries : archived entries (zipDataOf entries).
Proof.
  destruct (assigned_spec entries {| ownProperties := []; prototype := None |})
    as (Hnodup & Hown & Hproto); [constructor|].
  split; [exact Hnodup|]. split.
  - intros key value. unfold zipDataOf. rewrite Hown. split; [|by left].
    intros [Hlast|[_ Hin]]; [done|]. by apply elem_of_nil in Hin.
  - intros value. unfold zipDataOf. rewrite Hproto. split; [|by left].
    by intros [Hlast|[_ [=]]].
Qed.

Section Zip.
Variable this : IExecuteFunctions.
Variable lib : Libraries.
Hypothesis Hformat : getNodeParameter this "outputFormat" 0 = "zip".

Lemma compressField_zip i index name st out :
  compressField this lib i index name st = Ok out
  ↔ ∃ binaryData buffer,
      assertBinaryData this i name = Ok binaryData
      ∧ getBinaryDataBuffer this i name = Ok buffer
      ∧ out = (zippable_set (zipEntry binaryData buffer).1 (zipEntry binaryData buffer).2 st.1,
               st.2).
Proof.
  unfold compressField. rewrite Hformat. cbn [String.eqb Ascii.eqb Bool.eqb].
  destruct (assertBinaryData this i name) as [binaryData|]; cbn [rbind].
  2: { split; [done|]. by intros (? & ? & [=] & _). }
  destruct (getBinaryDataBuffer this i name) as [buffer|]; cbn [rbind].
  2: { split; [done|]. by intros (? & ? & _ & [=] & _). }
  split.
  - intros [= <-]. by exists binaryData, buffer.
  - by intros (? & ? & [= <-] & [= <-] & ->).
Qed.

Lemma compressFields_zip i names : ∀ index zipData fields out,
  compressFields this lib i index names (zipData, fields) = Ok out
  ↔ ∃ entries,
      zipEntriesOf this i names entries
      ∧ out = (fold_left (fun z (entry : string * (Buffer * nat)) =>
                            zippable_set entry.1 entry.2 z) entries zipData, fields).
Proof.
  induction names as [|name rest IH]; intros index zipData fields out.
  - cbn [compressFields]. split.
    + intros [= <-]. exists []. split; [constructor|done].
    + intros (entries & Hentries & ->). apply Forall2_nil_inv_l in Hentries as ->. done.
  - cbn [compressFields].
    destruct (compressField this lib i index name (zipData, fields)) as [st|] eqn:Hfield;
      cbn [rbind].
    + apply compressField_zip in Hfield as (binaryData & buffer & Ha & Hb & ->).
      cbn [fst snd]. rewrite IH. split.
      * intros (entries & Hentries & ->). exists (zipEntry binaryData buffer :: entries).
        split; [|done]. constructor; [|done]. by exists binaryData, buffer.
      * intros (entries & Hentries & ->).
        apply Forall2_cons_inv_l in Hentries
          as (entry & others & (binaryData' & buffer' & Ha' & Hb' & ->) & Hothers & ->).
        rewrite Ha in Ha'. rewrite Hb in Hb'. injection Ha' as <-. injection Hb' as <-.
        by exists others.
    + split; [done|]. intros (entries & Hentries & _).
      apply Forall2_cons_inv_l in Hentries
        as (entry & others & (binaryData & buffer & Ha & Hb & ->) & _ & _).
      assert (compressField this lib i index name (zipData, fields)
              = Ok (zippable_set (zipEntry binaryData buffer).1 (zipEntry binaryData buffer).2
                      zipData, fields)) as Hrun
        by (apply compressField_zip; by exists binaryData, buffer).
      congruence.
Qed.

(** X28. With operation "compress" and output format "zip", the field
    names being the pieces of the parameter between the commas, each
    without the white space at its two ends. The block of an input item
    returns exactly when each named field can be read, [zip] makes an
    archive and [prepareBinaryData] prepares it under the parameter
    [fileName]; it then pushes one output item, which carries the [json]
    of the input item and a single binary field, named by the parameter
    [binaryPropertyOutput], that holds the prepared archive. What is
    handed to [zip] is the object to which one entry per field has been
    assigned, in the order of the fields: under the field's file name, the
    field's buffer with a level, which is 0 when the field's file
    extension is, letter for letter, one of [ALREADY_COMPRESSED], and 6
    otherwise. That object has one property per file name other than
    "__proto__", with the entry of the last field of that file name; the
    entry of a field whose file name is "__proto__" is no property of it,
    but its prototype. *)
Theorem compress_zip i item
    (Hoperation : getNodeParameter this "operation" 0 = "compress") :
  ∃ names,
    fieldNames (getNodeParameter this "binaryPropertyName" 0) names
    ∧ (∀ pushed,
         processItem this lib i item = Ok pushed
         ↔ ∃ entries buffer archive,
             zipEntriesOf this i names entries
             ∧ zip lib (zipDataOf entries) = Ok buffer
             ∧ prepareBinaryData this buffer (Some (getNodeParameter this "fileName" 0))
               = Ok archive
             ∧ pushed
               = [ {| json := json item;
                      binary :=
                        Some {[ getNodeParameter this "binaryPropertyOutput" 0 := archive ]};
                      pairedItem := Some i |} ])
    ∧ (∀ entries,
         zipEntriesOf this i names entries →
         length entries = length names
         ∧ ∀ k name, names !! k = Some name →
             ∃ binaryData buffer level,
               assertBinaryData this i name = Ok binaryData
               ∧ getBinaryDataBuffer this i name = Ok buffer
               ∧ entries !! k = Some (template (fileName binaryData), (buffer, level))
               ∧ (level = 0 ∨ level = 6)
               ∧ (level = 0
                  ↔ ∃ ext, fileExtension binaryData = Some ext ∧ ext ∈ ALREADY_COMPRESSED))
    ∧ ∀ entries, archived entries (zipDataOf entries).
Proof.
  exists (binaryPropertyNames this). split; [apply StringFacts.fieldNames_spec|].
  split; [|split].
  - intros pushed. unfold processItem. rewrite Hoperation, Hformat.
    cbn [String.eqb Ascii.eqb Bool.eqb rbind app].
    destruct (compressFields this lib i 0 (binaryPropertyNames this) _) as [st|] eqn:Hfields;
      cbn [rbind].
    + apply compressFields_zip in Hfields as (entries & Hentries & ->). cbn [fst snd].
      fold (zipDataOf entries). split.
      * intros Hpushed. exists entries.
        destruct (zip lib (zipDataOf entries)) as [buffer|]; [|discriminate].
        cbn [rbind] in Hpushed.
        destruct (prepareBinaryData this (Buffer_from buffer) _) as [archive|] eqn:Hprepared;
          [|discriminate].
        cbn [rbind] in Hpushed. injection Hpushed as <-. by exists buffer, archive.
      * intros (entries' & buffer & archive & Hentries' & Hzip & Hprepared & ->).
        assert (entries' = entries) as ->.
        { clear Hzip. revert entries' Hentries'.
          induction Hentries as [|name entry names others
                                   (binaryData & buffer1 & Ha & Hb & ->) _ IH];
            intros entries' Hentries'.
          - by apply Forall2_nil_inv_l in Hentries' as ->.
          - apply Forall2_cons_inv_l in Hentries'
              as (entry' & others' & (binaryData' & buffer' & Ha' & Hb' & ->) & Hothers & ->).
            rewrite Ha in Ha'. rewrite Hb in Hb'. injection Ha' as <-. injection Hb' as <-.
            f_equal. by apply IH. }
        rewrite Hzip. cbn [rbind]. unfold Buffer_from. rewrite Hprepared. done.
    + split; [done|]. intros (entries & buffer & archive & Hentries & _).
      assert (compressFields this lib i 0 (binaryPropertyNames this)
                ({| ownProperties := []; prototype := None |}, ∅)
              = Ok (zipDataOf entries, ∅)) as Hrun
        by (apply compressFields_zip; by exists entries).
      congruence.
  - intros entries Hentries. split; [symmetry; exact (Forall2_length _ _ _ Hentries)|].
    intros k name Hk.
    destruct (Forall2_lookup_l _ _ _ _ _ Hentries Hk)
      as (e & He & binaryData & buffer & Ha & Hb & ->).
    exists binaryData, buffer. eexists. split; [done|]. split; [done|].
    split; [exact He|].
    destruct (fileExtension binaryData) as [ext|].
    + destruct (existsb (String.eqb ext) ALREADY_COMPRESSED) eqn:Hext.
      * split; [by left|]. split; [|done]. intros _. exists ext. split; [done|].
        apply existsb_exists in Hext as (listed & Hin & ->%String.eqb_eq).
        by apply list_elem_of_In.
      * split; [by right|]. split; [done|]. intros (ext' & [= <-] & Hin).
        assert (existsb (String.eqb ext) ALREADY_COMPRESSED = true) as Hyes; [|congruence].
        apply existsb_exists. exists ext. split; [by apply list_elem_of_In|].
        apply String.eqb_refl.
    + split; [by right|]. split; [done|]. by intros (ext & ? & _).
  - apply zipDataOf_archived.
Qed.

End Zip.

(** The property on the sample item, whose text file and gzip file go
    into the archive. *)
Lemma compress_zip_witness :
  ∃ names,
    fieldNames "data, archive" names
    ∧ ∀ entries, zipEntriesOf (sampleNode "compress" "zip" "data, archive") 0 names entries →
        length entries = length names.
Proof.
  destruct (compress_zip (sampleNode "compress" "zip" "data, archive") sampleLibraries
              eq_refl 0 sampleItem eq_refl) as (names & Hnames & _ & Hentries & _).
  exists names. split; [exact Hnames|]. intros entries Hlisted.
  exact (proj1 (Hentries entries Hlisted)).
Defined.

(** The archive of the sample item: the text file at level 6, and the
    gzip file too, its extension being written "GZ"; the output item
    carries the prepared archive. *)
Example compress_zip_sample :
  compressFields (sampleNode "compress" "zip" "data, archive") sampleLibraries 0 0
    ["data"; "archive"] ({| ownProperties := []; prototype := None |}, ∅)
  = Ok ({| ownProperties :=
             [ ("report.final.txt", ([Byte.x68; Byte.x69], 6));
               ("notes.txt.gz", ([Byte.x1f; Byte.x8b; Byte.x6f; Byte.x6b], 6)) ];
           prototype := None |}, ∅)
  ∧ processItem (sampleNode "compress" "zip" "data, archive") sampleLibraries 0 sampleItem
    = Ok [ {| json := json sampleItem;
              binary := Some {[ "" := {| data := [];
                                         mimeType := "application/octet-stream";
                                         fileName := Some "";
                                         fileExtension := None |} ]};
              pairedItem := Some 0 |} ].
Proof. split; vm_compute; reflexivity. Qed.

(** Three entries assigned to an archive object: the second one under
    the file name of the first replaces it, and the one under "__proto__"
    becomes the prototype. *)
Example zipDataOf_sample :
  zipDataOf [ ("a.txt", ([Byte.x61], 6)); ("__proto__", ([Byte.x62], 6));
              ("a.txt", ([Byte.x63], 0)) ]
  = {| ownProperties := [ ("a.txt", ([Byte.x63], 0)) ];
       prototype := Some ([Byte.x62], 6) |}.
Proof. vm_compute. reflexivity. Qed.

End CompressionMore.

(* ===================================================================== *)
(** * The migration: when it runs, and what it logs *)
(* ===================================================================== *)

Module MigrationMore.
Import Js Migration Terms.

(** X30. With a table prefix that SQLite reads as it is spelled, [up]
    returns exactly on a database that has no table of the prefixed name
    [execution_metadata], compared without regard to the case of the
    ASCII letters, and [down] exactly on one that has it; [up] logs its
    start and its end, in this order and nothing else; [down] logs
    nothing, removes that table and leaves every other table as it
    was. *)
Theorem migration_runs misread tablePrefix db :
  plainPrefix tablePrefix = true →
  let created := tablePrefix +:+ "execution_metadata" in
  (returned (up misread tablePrefix db) = true
   ↔ existsb (named created) (schema db) = false)
  ∧ (returned (down misread tablePrefix db) = true
     ↔ existsb (named created) (schema db) = true)
  ∧ (∀ db', up misread tablePrefix db = Ok db' →
       migrationLog db'
       = (migrationLog db ++ [MigrationStart name; MigrationEnd name])%list)
  ∧ (∀ db', down misread tablePrefix db = Ok db' →
       schema db' = List.filter (fun entry => negb (named created entry)) (schema db)
       ∧ migrationLog db' = migrationLog db).
Proof.
  intros Hprefix created.
  rewrite (MigrationProofs.down_spec misread tablePrefix db Hprefix). fold created.
  destruct (existsb (named created) (schema db)) eqn:Htable.
  - destruct (MigrationProofs.up_taken misread tablePrefix db Hprefix Htable) as [e ->].
    cbn [returned]. split; [done|]. split; [done|]. split; [discriminate|].
    by intros db' [= <-].
  - rewrite (MigrationProofs.up_fresh misread tablePrefix db Hprefix Htable).
    cbn [returned]. split; [done|]. split; [done|]. split; [|discriminate].
    by intros db' [= <-].
Qed.

(** The property with the prefix [n8n_]: on the empty database [up]
    returns and [down] throws. *)
Lemma migration_runs_witness :
  returned (up rejected "n8n_" emptyDatabase) = true
  ∧ returned (down rejected "n8n_" emptyDatabase) = false.
Proof.
  destruct (migration_runs rejected "n8n_" emptyDatabase eq_refl) as (Hup & Hdown & _).
  split; [by apply Hup|].
  destruct (returned (down rejected "n8n_" emptyDatabase)); [|done].
  by destruct (proj1 Hdown eq_refl).
Defined.

End MigrationMore.
